(** * finance-detective: the indicator pipeline, embedded and verified

    The repository reads a YAML configuration (config.py), fetches price
    histories (data_gatherer.py), computes technical indicators with pandas
    (data_analyzer.py), renders a report (report_compiler.py), and main.py
    runs the four stages in a row.

    Numbers.  pandas columns are float64.  They are idealised here as exact
    reals extended with the three IEEE special values; rounding is not
    modelled and zeros carry no sign (a division by zero takes the sign of
    the numerator).  The reals make square roots exact; what is lost is
    evaluation by computation, so concrete cases are proved by rewriting.
    pandas' conventions for missing values (NaN is skipped by reductions, a
    rolling window needs [window] observations, infinities are not
    observations inside a rolling window) are modelled as pandas documents
    them.

    State.  analyze_stock assigns columns to the frame it is handed, so its
    body is written in a small state-and-exception monad over that frame.
    The provider, the clock, the chart renderer and the file system are
    explicit arguments.

    Layout.  First the embedding of the five source files, then the
    indicator formulas in the words of the specification and the inputs of
    the examples, then the lemmas and theorems. *)

From Stdlib Require Import Reals Lra Lia.
From stdpp Require Import base option list gmap strings.

(** ** float64, idealised *)

Module Float.
Local Open Scope R_scope.

Inductive float64 : Type :=
  | Fin (r : R)
  | PInf
  | NInf
  | NaN.

Inductive sign : Type := Neg | Zero | Pos.

Definition sign_of (r : R) : sign :=
  if Req_EM_T r 0 then Zero else if Rlt_dec 0 r then Pos else Neg.

Definition inf_of (s : sign) : float64 :=
  match s with Pos => PInf | Neg => NInf | Zero => NaN end.

Definition flip (s : sign) : sign :=
  match s with Pos => Neg | Neg => Pos | Zero => Zero end.

Definition fneg (a : float64) : float64 :=
  match a with
  | Fin r => Fin (- r)
  | PInf => NInf
  | NInf => PInf
  | NaN => NaN
  end.

Definition fabs (a : float64) : float64 :=
  match a with
  | Fin r => Fin (Rabs r)
  | PInf | NInf => PInf
  | NaN => NaN
  end.

Definition fadd (a b : float64) : float64 :=
  match a, b with
  | NaN, _ | _, NaN => NaN
  | Fin x, Fin y => Fin (x + y)
  | PInf, NInf | NInf, PInf => NaN
  | PInf, _ | _, PInf => PInf
  | NInf, _ | _, NInf => NInf
  end.

Definition fsub (a b : float64) : float64 := fadd a (fneg b).

Definition fmul (a b : float64) : float64 :=
  match a, b with
  | NaN, _ | _, NaN => NaN
  | Fin x, Fin y => Fin (x * y)
  | Fin x, PInf | PInf, Fin x => inf_of (sign_of x)
  | Fin x, NInf | NInf, Fin x => inf_of (flip (sign_of x))
  | PInf, PInf | NInf, NInf => PInf
  | PInf, NInf | NInf, PInf => NInf
  end.

(** Division never raises on float64: x/0 is an infinity of x's sign and
    0/0 is NaN. *)
Definition fdiv (a b : float64) : float64 :=
  match a, b with
  | NaN, _ | _, NaN => NaN
  | Fin x, Fin y =>
      match sign_of y with
      | Zero => inf_of (sign_of x)
      | _ => Fin (x / y)
      end
  | Fin _, (PInf | NInf) => Fin 0
  | PInf, Fin y => match sign_of y with Neg => NInf | _ => PInf end
  | NInf, Fin y => match sign_of y with Neg => PInf | _ => NInf end
  | (PInf | NInf), (PInf | NInf) => NaN
  end.

(** np.sqrt *)
Definition fsqrt (a : float64) : float64 :=
  match a with
  | Fin r => match sign_of r with Neg => NaN | _ => Fin (sqrt r) end
  | PInf => PInf
  | NInf | NaN => NaN
  end.

Definition fsq (a : float64) : float64 := fmul a a.

(** [x > 0] and [x < 0] as numpy evaluates them: False on NaN. *)
Definition fgt0 (a : float64) : bool :=
  match a with
  | Fin r => match sign_of r with Pos => true | _ => false end
  | PInf => true
  | NInf | NaN => false
  end.

Definition flt0 (a : float64) : bool :=
  match a with
  | Fin r => match sign_of r with Neg => true | _ => false end
  | NInf => true
  | PInf | NaN => false
  end.

(** Maximum of two values neither of which is NaN. *)
Definition fmax (a b : float64) : float64 :=
  match a, b with
  | NaN, x | x, NaN => x
  | PInf, _ | _, PInf => PInf
  | NInf, x | x, NInf => x
  | Fin x, Fin y => Fin (Rmax x y)
  end.

Definition is_nan (a : float64) : bool :=
  match a with NaN => true | _ => false end.

Definition is_finite (a : float64) : bool :=
  match a with Fin _ => true | _ => false end.


Definition fsum (l : list float64) : float64 := foldl fadd (Fin 0) l.

Definition of_nat (n : nat) : float64 := Fin (INR n).

End Float.

(** ** Python exceptions and results *)

Module Py.

(** The exception classes the program raises or catches.  All of them derive
    from [Exception]; interrupts, which do not, are outside the model. *)
Inductive exn : Type :=
  | KeyError (key : string)
  | IndexError
  | ValueError (message : string)
  | FileNotFoundError (message : string)
  | YFException
  | RequestException
  | Exception (message : string).

Inductive outcome (A : Type) : Type :=
  | Ok (a : A)
  | Raise (e : exn).
Arguments Ok {A} a.
Arguments Raise {A} e.

End Py.

(** ** The pandas operations data_analyzer.py calls *)

Module Pandas.
Import Float Py.
Local Open Scope R_scope.

(** A column: one float64 per row, NaN where the value is missing. *)
Abbreviation Series := (list float64).

(** [Series.shift(n)]: rows move down by [n], the top is filled with NaN. *)
Definition shift (n : nat) (s : Series) : Series :=
  take (length s) (replicate n NaN ++ s).

Definition sub (a b : Series) : Series := zip_with fsub a b.
Definition add (a b : Series) : Series := zip_with fadd a b.
Definition div (a b : Series) : Series := zip_with fdiv a b.
Definition scale (k : float64) (a : Series) : Series := (λ v, fmul v k) <$> a.
Definition neg (a : Series) : Series := fneg <$> a.
Definition abs (a : Series) : Series := fabs <$> a.

(** [Series.diff()] *)
Definition diff (s : Series) : Series := sub s (shift 1 s).

(** [Series.pct_change()]: pandas evaluates [s / s.shift(1) - 1].  (The
    forward fill older pandas versions apply first is the identity on a
    column without NaN, which is what a price column is.) *)
Definition pct_change (s : Series) : Series :=
  (λ v, fsub v (Fin 1)) <$> div s (shift 1 s).

(** [s.where(cond, other)] *)
Definition where_ (cond : float64 → bool) (other : float64) (s : Series) : Series :=
  (λ v, if cond v then v else other) <$> s.

(** Reductions skip NaN ([skipna=True]). *)
Definition dropna (s : Series) : Series := filter (λ v, negb (is_nan v)) s.

Definition mean (s : Series) : float64 :=
  fdiv (fsum (dropna s)) (of_nat (length (dropna s))).

Definition var (ddof : nat) (s : Series) : float64 :=
  let xs := dropna s in
  if decide (length xs ≤ ddof)%nat then NaN
  else
    let avg := fdiv (fsum xs) (of_nat (length xs)) in
    fdiv (fsum ((λ x, fsq (fsub avg x)) <$> xs)) (of_nat (length xs - ddof)).

(** [Series.std()]: sample standard deviation, [ddof=1]. *)
Definition std (s : Series) : float64 := fsqrt (var 1 s).

(** Rolling windows.  The window at row [i] holds rows [i-w+1 .. i] (fewer
    near the top); its observations are the finite entries; with the default
    [min_periods = window] fewer than [w] observations give NaN. *)
Definition window (w i : nat) (s : Series) : Series :=
  drop (i + 1 - w) (take (i + 1) s).

Definition observations (s : Series) : list R :=
  omap (λ v, match v with Fin r => Some r | _ => None end) s.

Definition rolling (w : nat) (agg : list R → float64) (s : Series) : Series :=
  imap (λ i _, let obs := observations (window w i s) in
               if decide (length obs < w)%nat then NaN else agg obs) s.

Definition rsum (l : list R) : R := foldr Rplus 0 l.

Definition rmean (l : list R) : R := rsum l / INR (length l).

(** sum of squared deviations from the mean *)
Definition ssd (l : list R) : R := rsum ((λ x, (x - rmean l) * (x - rmean l)) <$> l).

Definition rolling_mean (w : nat) : Series → Series :=
  rolling w (λ obs, Fin (rmean obs)).

Definition rolling_std (w : nat) : Series → Series :=
  rolling w (λ obs, if decide (length obs ≤ 1)%nat then NaN
                    else Fin (sqrt (ssd obs / INR (length obs - 1)))).

(** [ewm(span=.., adjust=False).mean()] with pandas' default
    [ignore_na=False] and [min_periods=0]: the running average [weighted]
    starts at the first row; a NaN row leaves it unchanged and ages its
    weight; an observation after a NaN average re-seeds it. *)
Fixpoint ewm_go (alpha : R) (weighted : float64) (old_wt : R) (s : Series) : Series :=
  match s with
  | [] => []
  | cur :: rest =>
      if is_nan weighted then cur :: ewm_go alpha cur old_wt rest
      else if is_nan cur then
        weighted :: ewm_go alpha weighted (old_wt * (1 - alpha)) rest
      else
        let o := old_wt * (1 - alpha) in
        let w := fdiv (fadd (fmul (Fin o) weighted) (fmul (Fin alpha) cur))
                      (Fin (o + alpha)) in
        w :: ewm_go alpha w 1 rest
  end.

Definition alpha_of_span (span : nat) : R := 2 / (INR span + 1).

Definition ewm_mean (span : nat) (s : Series) : Series :=
  match s with
  | [] => []
  | x0 :: rest => x0 :: ewm_go (alpha_of_span span) x0 1 rest
  end.

(** [DataFrame.max(axis=1)] over three concatenated columns: the row maximum
    of the entries that are not NaN (NaN only if all are). *)
Definition nanmax (row : list float64) : float64 := foldr fmax NaN row.

Definition max_axis1 (a b c : Series) : Series :=
  zip_with (λ x yz, nanmax [x; yz.1; yz.2]) a (zip b c).

(** A frame: its row count and its named columns. *)
Record DataFrame : Type := mkFrame {
  nrows : nat;
  columns : gmap string Series
}.

(** Code that reads and assigns columns of one frame object and may raise:
    the frame is threaded through, and survives an exception as it was when
    the exception was raised. *)
Definition Frame (A : Type) : Type := DataFrame → outcome A * DataFrame.

Definition ret {A} (a : A) : Frame A := λ df, (Ok a, df).

Definition bind {A B} (m : Frame A) (k : A → Frame B) : Frame B :=
  λ df, match m df with
        | (Ok a, df') => k a df'
        | (Raise e, df') => (Raise e, df')
        end.

Notation "x <- m ;; k" := (bind m (λ x, k))
  (at level 100, m at next level, right associativity).
Notation "m ;;; k" := (bind m (λ _, k))
  (at level 100, right associativity).

(** [price_data[name]] *)
Definition get_col (name : string) : Frame Series :=
  λ df, match columns df !! name with
        | Some s => (Ok s, df)
        | None => (Raise (KeyError name), df)
        end.

(** [price_data[name] = s] *)
Definition set_col (name : string) (s : Series) : Frame unit :=
  λ df, (Ok tt, mkFrame (nrows df) (<[name := s]> (columns df))).

(** [len(price_data)] *)
Definition frame_len : Frame nat := λ df, (Ok (nrows df), df).

(** [s.iloc[-1]] *)
Definition iloc_last (s : Series) : Frame float64 :=
  λ df, match last s with
        | Some v => (Ok v, df)
        | None => (Raise IndexError, df)
        end.

(** [price_data[[c1; c2; ...]]]: a new frame with the listed columns. *)
Fixpoint select_cols (names : list string) (df : DataFrame) : outcome (gmap string Series) :=
  match names with
  | [] => Ok ∅
  | n :: rest =>
      match columns df !! n with
      | None => Raise (KeyError n)
      | Some s =>
          match select_cols rest df with
          | Ok m => Ok (<[n := s]> m)
          | Raise e => Raise e
          end
      end
  end.

Definition select (names : list string) : Frame DataFrame :=
  λ df, match select_cols names df with
        | Ok m => (Ok (mkFrame (nrows df) m), df)
        | Raise e => (Raise e, df)
        end.

End Pandas.

(** ** data_analyzer.py *)

Module Analyzer.
Import Float Py Pandas.
Local Open Scope R_scope.

(** One trading day as the provider reports it. *)
Record PriceBar : Type := mkBar {
  Open : R;
  High : R;
  Low : R;
  Close : R;
  Volume : R
}.

(** The frame [ticker.history] returns for a sequence of bars. *)
Definition frame_of_bars (bars : list PriceBar) : DataFrame :=
  mkFrame (length bars)
    (<["Open" := Fin ∘ Open <$> bars]>
     (<["High" := Fin ∘ High <$> bars]>
      (<["Low" := Fin ∘ Low <$> bars]>
       (<["Close" := Fin ∘ Close <$> bars]>
        (<["Volume" := Fin ∘ Volume <$> bars]> ∅))))).

(** A news item: a dict of which only the publish time (epoch seconds) is
    ever read; [None] when the key is absent. *)
Record NewsItem : Type := mkNews {
  providerPublishTime : option Z
}.

(** The per-ticker value of the evidence dict. *)
Record StockData : Type := mkStockData {
  price_data : DataFrame;
  news_data : list NewsItem
}.

(** The per-ticker value of the analysis dict. *)
Record IndicatorResult : Type := mkResult {
  latest_price : float64;
  volatility : float64;
  avg_daily_return : float64;
  sharpe_ratio : float64;
  macd : float64;
  macd_signal : float64;
  upper_band : float64;
  lower_band : float64;
  avg_bb_gap : float64;
  rsi : float64;
  atr : float64;
  avg_roc : float64;
  latest_roc : float64;
  result_price_data : DataFrame;
  macd_data : DataFrame
}.

(** [calculate_roc(price_data, n)] *)
Definition calculate_roc (n : nat) : Frame Series :=
  close <- get_col "Close";;
  ret (scale (Fin 100) (div (sub close (shift n close)) (shift n close))).

(** The expressions analyze_stock builds from the columns it reads, under the
    names of its local variables. *)
Definition sharpe_of (avg_daily_return volatility : float64) (trading_days : nat) : float64 :=
  fmul (fdiv avg_daily_return volatility) (fsqrt (of_nat trading_days)).

Definition macd_of (close : Series) : Series :=
  sub (ewm_mean 12 close) (ewm_mean 26 close).

Definition signal_of (macd : Series) : Series := ewm_mean 9 macd.

Definition upper_band_of (sma20 close : Series) : Series :=
  add sma20 (scale (Fin 2) (rolling_std 20 close)).

Definition lower_band_of (sma20 close : Series) : Series :=
  sub sma20 (scale (Fin 2) (rolling_std 20 close)).

Definition gain_of (delta : Series) : Series :=
  rolling_mean 14 (where_ fgt0 (Fin 0) delta).

Definition loss_of (delta : Series) : Series :=
  rolling_mean 14 (neg (where_ flt0 (Fin 0) delta)).

Definition rsi_of (close : Series) : Series :=
  let delta := diff close in
  let rs := div (gain_of delta) (loss_of delta) in
  (λ v, fsub (Fin 100) (fdiv (Fin 100) (fadd (Fin 1) v))) <$> rs.

Definition true_range_of (high low close : Series) : Series :=
  let high_low := sub high low in
  let high_close := abs (sub high (shift 1 close)) in
  let low_close := abs (sub low (shift 1 close)) in
  max_axis1 high_low high_close low_close.

Definition atr_series (high low close : Series) : Series :=
  rolling_mean 14 (true_range_of high low close).

Definition derived_columns : list string :=
  ["Daily Return"; "SMA20"; "UpperBand"; "LowerBand"; "BB_Gap"; "RSI"; "ROC"].

Definition charted_columns : list string :=
  ["Close"; "Daily Return"; "RSI"; "UpperBand"; "LowerBand"; "ROC"].

(** The body of analyze_stock, statement by statement, on the frame object
    [stock_data['price_data']] refers to. *)
Definition analyze_frame : Frame IndicatorResult :=
  close <- get_col "Close";;
  set_col "Daily Return" (pct_change close);;;
  dr <- get_col "Daily Return";;
  let volatility := std dr in
  dr <- get_col "Daily Return";;
  let avg_daily_return := mean dr in
  trading_days <- frame_len;;
  let sharpe_ratio := sharpe_of avg_daily_return volatility trading_days in
  close <- get_col "Close";;
  let macd := macd_of close in
  let signal := signal_of macd in
  close <- get_col "Close";;
  set_col "SMA20" (rolling_mean 20 close);;;
  sma20 <- get_col "SMA20";;
  close <- get_col "Close";;
  set_col "UpperBand" (upper_band_of sma20 close);;;
  sma20 <- get_col "SMA20";;
  close <- get_col "Close";;
  set_col "LowerBand" (lower_band_of sma20 close);;;
  upper <- get_col "UpperBand";;
  lower <- get_col "LowerBand";;
  set_col "BB_Gap" (sub upper lower);;;
  bb_gap <- get_col "BB_Gap";;
  let avg_bb_gap := mean bb_gap in
  close <- get_col "Close";;
  set_col "RSI" (rsi_of close);;;
  high <- get_col "High";;
  low <- get_col "Low";;
  close <- get_col "Close";;
  atr <- iloc_last (atr_series high low close);;
  roc <- calculate_roc 12;;
  set_col "ROC" roc;;;
  roc <- get_col "ROC";;
  let avg_roc := mean roc in
  roc <- get_col "ROC";;
  latest_roc <- iloc_last roc;;
  close <- get_col "Close";;
  latest_price <- iloc_last close;;
  macd_last <- iloc_last macd;;
  signal_last <- iloc_last signal;;
  upper <- get_col "UpperBand";;
  upper_last <- iloc_last upper;;
  lower <- get_col "LowerBand";;
  lower_last <- iloc_last lower;;
  rsi <- get_col "RSI";;
  rsi_last <- iloc_last rsi;;
  charted <- select charted_columns;;
  ret (mkResult latest_price volatility avg_daily_return sharpe_ratio
         macd_last signal_last upper_last lower_last avg_bb_gap rsi_last
         atr avg_roc latest_roc charted
         (mkFrame (length macd) (<["MACD" := macd]> (<["Signal" := signal]> ∅)))).

(** [analyze_stock((stock, stock_data))]: the outcome, and the frame object
    [stock_data['price_data']] as the call leaves it. *)
Definition analyze_stock (stock_data_tuple : string * StockData)
    : outcome (string * IndicatorResult) * DataFrame :=
  let '(stock, stock_data) := stock_data_tuple in
  match analyze_frame (price_data stock_data) with
  | (Ok r, df) => (Ok (stock, r), df)
  | (Raise e, df) => (Raise e, df)
  end.

(** [pool.map(f, items)]: the results in the order of [items]; an exception
    raised by a call is re-raised by [map]. *)
Fixpoint pool_map {A B} (f : A → outcome B) (items : list A) : outcome (list B) :=
  match items with
  | [] => Ok []
  | x :: rest =>
      match f x with
      | Raise e => Raise e
      | Ok y =>
          match pool_map f rest with
          | Raise e => Raise e
          | Ok ys => Ok (y :: ys)
          end
      end
  end.

(** The merge loop: [analyzed_data[stock] = result] for each result. *)
Definition merge_results (results : list (string * IndicatorResult))
    : gmap string IndicatorResult :=
  foldl (λ analyzed_data sr, <[sr.1 := sr.2]> analyzed_data) ∅ results.

(** [analyze_clues(evidence)].  Each worker process analyses its own pickled
    copy of a ticker's frame, so what a worker assigns to that copy is not
    seen here: only the outcomes come back. *)
Definition analyze_clues (evidence : gmap string StockData)
    : outcome (gmap string IndicatorResult) :=
  match pool_map (λ item, (analyze_stock item).1) (map_to_list evidence) with
  | Raise e => Raise e
  | Ok results => Ok (merge_results results)
  end.

End Analyzer.

(** ** config.py *)

Module Config.
Import Py.

(** What [yaml.safe_load] yields for a value. *)
Local Unset Elimination Schemes.
Inductive yaml : Type :=
  | YNull
  | YBool (b : bool)
  | YInt (z : Z)
  | YStr (s : string)
  | YDate (iso : string)
  | YList (items : list yaml)
  | YMap (entries : list (string * yaml)).
Local Set Elimination Schemes.

(** Python truthiness: [not v] is [negb (truthy v)]. *)
Definition truthy (v : yaml) : bool :=
  match v with
  | YNull => false
  | YBool b => b
  | YInt z => negb (z =? 0)%Z
  | YStr s => negb (String.eqb s "")
  | YDate _ => true
  | YList items => match items with [] => false | _ => true end
  | YMap entries => match entries with [] => false | _ => true end
  end.

Definition required_keys : list string :=
  ["stocks"; "start_date"; "end_date"; "report_format"].

(** The first key of [keys] that is not in [config]. *)
Fixpoint first_missing (keys : list string) (config : gmap string yaml) : option string :=
  match keys with
  | [] => None
  | key :: rest =>
      match config !! key with
      | None => Some key
      | Some _ => first_missing rest config
      end
  end.

Definition is_nonempty_list (v : option yaml) : bool :=
  match v with
  | Some (YList (_ :: _)) => true
  | _ => false
  end.

Definition is_report_format (v : option yaml) : bool :=
  match v with
  | Some (YStr s) => String.eqb s "pdf" || String.eqb s "txt"
  | _ => false
  end.

(** [validate_config(config)] *)
Definition validate_config (config : gmap string yaml) : outcome unit :=
  match first_missing required_keys config with
  | Some key => Raise (ValueError ("Missing required configuration key: " +:+ key))
  | None =>
      if negb (is_nonempty_list (config !! "stocks")) then
        Raise (ValueError "'stocks' must be a non-empty list")
      else if negb (is_report_format (config !! "report_format")) then
        Raise (ValueError "'report_format' must be either 'pdf' or 'txt'")
      else Ok tt
  end.

(** [load_config], from the parsed mapping on: decoding the file and parsing
    the YAML are the YAML library's. *)
Definition load_config (parsed : gmap string yaml) : outcome (gmap string yaml) :=
  match validate_config parsed with
  | Ok _ => Ok parsed
  | Raise e => Raise e
  end.

End Config.

(** ** data_gatherer.py *)

Module Gatherer.
Import Py Pandas Analyzer.

(** The market-data provider: what [ticker.history(start, end)] and
    [ticker.news] do for a ticker. *)
Record Provider : Type := mkProvider {
  history : string → string → string → outcome DataFrame;
  news : string → outcome (list NewsItem)
}.

(** [data.empty]: some axis has length 0. *)
Definition empty (df : DataFrame) : bool :=
  (nrows df =? 0)%nat || bool_decide (dom (columns df) = ∅).

Definition month_seconds : Z := 30 * 86400.

(** The list comprehension over [news]: reading the publish time of an item
    that has none raises KeyError. *)
Fixpoint filter_news (now : Z) (items : list NewsItem) : outcome (list NewsItem) :=
  match items with
  | [] => Ok []
  | article :: rest =>
      match providerPublishTime article with
      | None => Raise (KeyError "providerPublishTime")
      | Some t =>
          match filter_news now rest with
          | Raise e => Raise e
          | Ok kept =>
              if ((now - month_seconds <=? t) && (t <=? now))%Z
              then Ok (article :: kept) else Ok kept
          end
      end
  end.

(** The body of the [try] for one ticker.  (The clock is read once per
    ticker; one reading [now] stands for them.) *)
Definition fetch (p : Provider) (now : Z) (start_date end_date stock : string)
    : outcome StockData :=
  match history p stock start_date end_date with
  | Raise e => Raise e
  | Ok data =>
      if empty data then Raise (ValueError ("No data available for " +:+ stock))
      else
        match news p stock with
        | Raise e => Raise e
        | Ok items =>
            match filter_news now items with
            | Raise e => Raise e
            | Ok filtered_news => Ok (mkStockData data filtered_news)
            end
        end
  end.

(** What the loop logs: the start of a ticker, its success, or the exception
    that ended it. *)
Inductive log_record : Type :=
  | Investigating (stock : string)
  | Stored (stock : string)
  | Failed (stock : string) (e : exn).

(** One turn of the loop.  Every [except] clause logs and goes on: the four
    clauses differ in the message only, and between them catch every
    exception. *)
Definition gather_step (p : Provider) (now : Z) (start_date end_date : string)
    (st : gmap string StockData * list log_record) (stock : string)
    : gmap string StockData * list log_record :=
  let '(evidence_locker, log) := st in
  let log := log ++ [Investigating stock] in
  match fetch p now start_date end_date stock with
  | Ok sd => (<[stock := sd]> evidence_locker, log ++ [Stored stock])
  | Raise e => (evidence_locker, log ++ [Failed stock e])
  end.

(** [collect_evidence(stocks, start_date, end_date)], with the log it
    writes. *)
Definition collect_evidence (p : Provider) (now : Z)
    (stocks : list string) (start_date end_date : string)
    : outcome (gmap string StockData) * list log_record :=
  let '(evidence_locker, log) :=
    foldl (gather_step p now start_date end_date) (∅, []) stocks in
  if bool_decide (dom evidence_locker = ∅)
  then (Raise (Exception "No data could be retrieved for any of the stocks."), log)
  else (Ok evidence_locker, log).

End Gatherer.

(** ** report_compiler.py *)

Module Report.
Import Py Analyzer.

(** The files that exist in the working directory. *)
Abbreviation Files := (gset string).

Record ReportOutput : Type := mkOutput {
  output_file : string;
  temp_files : list string
}.

(** Where, if anywhere, drawing the two charts of a ticker raises: matplotlib
    and fpdf are external. *)
Inductive chart_fault : Type :=
  | NoFault
  | PriceChartFails
  | PriceImageFails
  | MacdChartFails
  | MacdImageFails.

Definition price_chart (stock : string) : string := stock +:+ "_price_bb_rsi_chart.png".
Definition macd_chart (stock : string) : string := stock +:+ "_macd_chart.png".
Definition stock_pdf (stock : string) : string :=
  "financial_case_file_" +:+ stock +:+ ".pdf".
Definition merged_pdf : string := "financial_case_file_complete.pdf".
Definition txt_file : string := "financial_case_file.txt".

(** [_add_charts_to_pdf(pdf, stock, data, temp_files)]: [savefig] writes the
    image, [pdf.image] embeds it, and only then is its name appended to
    [temp_files]; an exception anywhere ends in the [except] clause, which
    writes a note into the page. *)
Definition _add_charts_to_pdf (fault : chart_fault) (stock : string)
    (st : Files * list string) : Files * list string :=
  let '(fs, temp_files) := st in
  match fault with
  | PriceChartFails => (fs, temp_files)
  | PriceImageFails => ({[price_chart stock]} ∪ fs, temp_files)
  | MacdChartFails =>
      ({[price_chart stock]} ∪ fs, temp_files ++ [price_chart stock])
  | MacdImageFails =>
      ({[macd_chart stock]} ∪ ({[price_chart stock]} ∪ fs),
       temp_files ++ [price_chart stock])
  | NoFault =>
      ({[macd_chart stock]} ∪ ({[price_chart stock]} ∪ fs),
       temp_files ++ [price_chart stock; macd_chart stock])
  end.

(** The locals of [_generate_pdf_report] while it loops over the tickers. *)
Record PdfState : Type := mkPdfState {
  files : Files;
  pdf_files : list string;
  chart_files : list string
}.

(** One turn of the loop: the page, its charts, [pdf.output(pdf_file)]. *)
Definition render_page (faults : string → chart_fault) (st : PdfState)
    (item : string * IndicatorResult) : PdfState :=
  let stock := item.1 in
  let '(fs, temps) := _add_charts_to_pdf (faults stock) stock (files st, chart_files st) in
  mkPdfState ({[stock_pdf stock]} ∪ fs) (pdf_files st ++ [stock_pdf stock]) temps.

Definition render_pages (faults : string → chart_fault)
    (analyzed_clues : gmap string IndicatorResult) (fs : Files) : PdfState :=
  foldl (render_page faults) (mkPdfState fs [] []) (map_to_list analyzed_clues).

(** [_cleanup_temp_files]: [os.remove] on each path; a failure is logged and
    skipped. *)
Definition _cleanup_temp_files (paths : list string) (fs : Files) : Files :=
  foldl (λ fs file, fs ∖ {[file]}) fs paths.

(** [_merge_pdf_files]: the merger writes [output_file]; the check that it
    exists follows the write. *)
Definition _merge_pdf_files (pdfs : list string) (out : string) (fs : Files)
    : outcome unit * Files :=
  let fs := {[out]} ∪ fs in
  if bool_decide (out ∈ fs) then (Ok tt, fs)
  else (Raise (FileNotFoundError ("Merged PDF not found: " +:+ out)), fs).

Definition _generate_pdf_report (faults : string → chart_fault)
    (analyzed_clues : gmap string IndicatorResult) (fs : Files)
    : outcome ReportOutput * Files :=
  let st := render_pages faults analyzed_clues fs in
  match _merge_pdf_files (pdf_files st) merged_pdf (files st) with
  | (Raise e, fs) => (Raise e, fs)
  | (Ok _, fs) =>
      let fs := _cleanup_temp_files (pdf_files st ++ chart_files st) fs in
      (Ok (mkOutput merged_pdf []), fs)
  end.

Definition _generate_txt_report (analyzed_clues : gmap string IndicatorResult)
    (fs : Files) : outcome ReportOutput * Files :=
  (Ok (mkOutput txt_file []), {[txt_file]} ∪ fs).

(** [compile_case_file(analyzed_clues, report_format)] *)
Definition compile_case_file (faults : string → chart_fault)
    (analyzed_clues : gmap string IndicatorResult) (report_format : string)
    (fs : Files) : outcome ReportOutput * Files :=
  if String.eqb report_format "pdf" then _generate_pdf_report faults analyzed_clues fs
  else if String.eqb report_format "txt" then _generate_txt_report analyzed_clues fs
  else (Raise (ValueError ("Unsupported report format: " +:+ report_format)), fs).

End Report.

(** ** main.py *)

Module Main.
Import Py Analyzer Config Gatherer Report.

(** What the run reads from outside: the clock, the provider, the chart
    renderer. *)
Record World : Type := mkWorld {
  today : string;
  one_year_ago : string;
  now : Z;
  provider : Provider;
  chart_faults : string → chart_fault
}.

Definition unset (case_details : gmap string yaml) (key : string) : bool :=
  match case_details !! key with
  | None => true
  | Some v => negb (truthy v)
  end.

(** The two [if] statements that fill in missing dates. *)
Definition default_dates (w : World) (case_details : gmap string yaml)
    : gmap string yaml :=
  let case_details :=
    if unset case_details "end_date"
    then <["end_date" := YStr (today w)]> case_details else case_details in
  if unset case_details "start_date"
  then <["start_date" := YStr (one_year_ago w)]> case_details else case_details.

(** Step 1 of [investigate_finances] and the defaults that follow it: the
    configuration the run goes on with. *)
Definition configure (w : World) (parsed : gmap string yaml) : outcome (gmap string yaml) :=
  match load_config parsed with
  | Raise e => Raise e
  | Ok case_details => Ok (default_dates w case_details)
  end.

(** [case_details['stocks']] as the ticker list handed to the gatherer (the
    items of the list are ticker strings). *)
Definition tickers (v : option yaml) : list string :=
  match v with
  | Some (YList items) =>
      omap (λ item, match item with YStr s => Some s | _ => None end) items
  | _ => []
  end.

(** A date or format value as the string handed on. *)
Definition text (v : option yaml) : string :=
  match v with
  | Some (YStr s) | Some (YDate s) => s
  | _ => ""
  end.

(** Steps 1 to 6 inside the [try]. *)
Definition investigation (w : World) (parsed : gmap string yaml) (fs : Files)
    : outcome unit * Files :=
  match configure w parsed with
  | Raise e => (Raise e, fs)
  | Ok case_details =>
      match (collect_evidence (provider w) (now w)
               (tickers (case_details !! "stocks"))
               (text (case_details !! "start_date"))
               (text (case_details !! "end_date"))).1 with
      | Raise e => (Raise e, fs)
      | Ok raw_evidence =>
          match analyze_clues raw_evidence with
          | Raise e => (Raise e, fs)
          | Ok analyzed_clues =>
              match compile_case_file (chart_faults w) analyzed_clues
                      (text (case_details !! "report_format")) fs with
              | (Raise e, fs) => (Raise e, fs)
              | (Ok output_files, fs) =>
                  if bool_decide (output_file output_files ∈ fs) then
                    (Ok tt, _cleanup_temp_files (temp_files output_files) fs)
                  else
                    (Raise (FileNotFoundError
                              ("Output file not found: " +:+ output_file output_files)), fs)
              end
          end
      end
  end.

(** [investigate_finances()]: True when nothing was raised. *)
Definition investigate_finances (w : World) (parsed : gmap string yaml) (fs : Files)
    : bool * Files :=
  match investigation w parsed fs with
  | (Ok _, fs) => (true, fs)
  | (Raise _, fs) => (false, fs)
  end.

End Main.

(** ** config.py, from the file on *)

Module ConfigFile.
Import Py Config.

(** What opening the file in one encoding and parsing it comes to:
    [codecs] fails to decode it, [yaml.safe_load] rejects it, something else
    is raised (the file cannot be opened, the document is not a mapping and
    validate_config trips over it), or the document is a mapping. *)
Inductive reading : Type :=
  | Undecodable
  | Malformed
  | Failed (e : exn)
  | Parsed (config : gmap string yaml).

(** What load_config raises: [yaml.YAMLError], or an exception of [Py.exn]. *)
Inductive raised : Type :=
  | YAMLError
  | Error (e : exn).

(** The lines load_config logs. *)
Inductive log_record : Type :=
  | Loaded (encoding : string)
  | DecodeFailed (encoding : string)
  | ParseError
  | Unexpected (e : exn)
  | AllFailed.

Definition encodings : list string := ["utf-8"; "iso-8859-1"; "windows-1252"].

(** The [for] loop over the encodings, from [remaining] on. *)
Fixpoint try_encodings (read : string → reading) (remaining : list string)
    (log : list log_record) : (raised + gmap string yaml) * list log_record :=
  match remaining with
  | [] =>
      (inl (Error (ValueError
                     "Unable to read the config file with any of the attempted encodings.")),
       log ++ [AllFailed])
  | encoding :: rest =>
      match read encoding with
      | Undecodable => try_encodings read rest (log ++ [DecodeFailed encoding])
      | Malformed => (inl YAMLError, log ++ [ParseError])
      | Failed e => (inl (Error e), log ++ [Unexpected e])
      | Parsed config =>
          match validate_config config with
          | Ok _ => (inr config, log ++ [Loaded encoding])
          | Raise e => (inl (Error e), log ++ [Unexpected e])
          end
      end
  end.

(** [load_config(file_path)], with [read] standing for the file. *)
Definition load_config (read : string → reading)
    : (raised + gmap string yaml) * list log_record :=
  try_encodings read encodings [].

End ConfigFile.

(** ** report_compiler.py: what is printed *)

Module Layout.
Import Float Py Analyzer.

(** An f-string: literal text, and numbers formatted with a fixed number of
    decimals ([{x:.2f}] is [Fixed 2 x]). *)
Inductive piece : Type :=
  | Lit (s : string)
  | Fixed (digits : nat) (x : float64).

Abbreviation text := (list piece).

(** The font styles the report asks for: [""], ["B"] and ["U"]. *)
Inductive emphasis : Type := Regular | Bold | Underlined.

Record font : Type := mkFont {
  family : string;
  style : emphasis;
  size_pt : nat
}.

Definition colour : Type := nat * nat * nat.

(** A cell as [pdf.cell] draws it, in the font and text colour current at
    the call. *)
Record cell : Type := mkCell {
  width : nat;
  height : nat;
  txt : text;
  ln : bool;
  link : option string;
  cell_font : font;
  cell_color : colour
}.

Inductive mark : Type :=
  | Cell (c : cell)
  | Ln (h : nat).

(** The part of an FPDF object the report sections use. *)
Record FPDF : Type := mkPdf {
  current_font : font;
  text_color : colour;
  page : list mark
}.

(** [pdf.set_font(family, style, size)]: an empty family and a size of 0
    (the default) keep what is current. *)
Definition set_font (family : string) (style : emphasis) (size : nat) (pdf : FPDF) : FPDF :=
  mkPdf (mkFont (if String.eqb family "" then Layout.family (current_font pdf) else family)
                style
                (if (size =? 0)%nat then size_pt (current_font pdf) else size))
        (text_color pdf) (page pdf).

Definition set_text_color (r g b : nat) (pdf : FPDF) : FPDF :=
  mkPdf (current_font pdf) (r, g, b) (page pdf).

(** [pdf.cell(w, h, txt=.., ln=.., link=..)] *)
Definition cell_ (w h : nat) (txt : text) (ln : bool) (link : option string) (pdf : FPDF)
    : FPDF :=
  mkPdf (current_font pdf) (text_color pdf)
        (page pdf ++ [Cell (mkCell w h txt ln link (current_font pdf) (text_color pdf))]).

(** [pdf.ln(h)] *)
Definition ln_ (h : nat) (pdf : FPDF) : FPDF :=
  mkPdf (current_font pdf) (text_color pdf) (page pdf ++ [Ln h]).

(** [_add_linked_cell(pdf, text, url, width)] *)
Definition _add_linked_cell (text : string) (url : string) (width : nat) (pdf : FPDF) : FPDF :=
  let pdf := set_text_color 0 0 255 pdf in
  let pdf := set_font "" Underlined 0 pdf in
  let pdf := cell_ width 8 [Lit text] false (Some url) pdf in
  let pdf := set_text_color 0 0 0 pdf in
  set_font "" Regular 0 pdf.

(** [_add_key_statistics_section(pdf, data)] *)
Definition _add_key_statistics_section (data : IndicatorResult) (pdf : FPDF) : FPDF :=
  let pdf := set_font "helvetica" Bold 12 pdf in
  let pdf := cell_ 200 10 [Lit "Key Intel:"] true None pdf in
  let pdf := set_font "helvetica" Regular 10 pdf in
  let pdf := cell_ 30 8 [Lit "Price:"] false None pdf in
  let pdf := cell_ 70 8 [Lit "$"; Fixed 2 (latest_price data)] false None pdf in
  let pdf := _add_linked_cell "Volatility:"
               "https://www.investopedia.com/terms/v/volatility.asp" 30 pdf in
  let pdf := cell_ 70 8 [Fixed 4 (volatility data)] true None pdf in
  let pdf := _add_linked_cell "Sharpe Ratio:"
               "https://www.investopedia.com/terms/s/sharperatio.asp" 30 pdf in
  let pdf := cell_ 70 8 [Fixed 4 (sharpe_ratio data)] false None pdf in
  let pdf := _add_linked_cell "ATR:" "https://www.investopedia.com/terms/a/atr.asp" 30 pdf in
  let pdf := cell_ 70 8 [Fixed 4 (atr data)] true None pdf in
  let pdf := _add_linked_cell "Avg ROC:"
               "https://www.investopedia.com/terms/p/pricerateofchange.asp" 30 pdf in
  let pdf := cell_ 70 8 [Fixed 2 (avg_roc data); Lit "%"] false None pdf in
  let pdf := cell_ 30 8 [Lit "Latest ROC:"] false None pdf in
  let pdf := cell_ 70 8 [Fixed 2 (latest_roc data); Lit "%"] true None pdf in
  ln_ 3 pdf.

(** [_add_momentum_indicators_section(pdf, data)] *)
Definition _add_momentum_indicators_section (data : IndicatorResult) (pdf : FPDF) : FPDF :=
  let pdf := set_font "helvetica" Bold 12 pdf in
  let pdf := cell_ 200 10 [Lit "Momentum Signals:"] true None pdf in
  let pdf := set_font "helvetica" Regular 10 pdf in
  let pdf := _add_linked_cell "RSI:" "https://www.investopedia.com/terms/r/rsi.asp" 30 pdf in
  let pdf := cell_ 70 8 [Fixed 2 (rsi data)] false None pdf in
  let pdf := _add_linked_cell "MACD:" "https://www.investopedia.com/terms/m/macd.asp" 50 pdf in
  let pdf := cell_ 50 8 [Fixed 4 (macd data)] true None pdf in
  let pdf := cell_ 30 8 [Lit "MACD Signal:"] false None pdf in
  let pdf := cell_ 70 8 [Fixed 4 (macd_signal data)] false None pdf in
  let pdf := _add_linked_cell "Bollinger Bands"
               "https://www.investopedia.com/terms/b/bollingerbands.asp" 50 pdf in
  let pdf := cell_ 50 8 [Lit "Avg Gap: $"; Fixed 2 (avg_bb_gap data)] true None pdf in
  ln_ 3 pdf.

(** The lines [_generate_txt_report] writes for one ticker. *)
Definition stock_lines (stock : string) (data : IndicatorResult) : list text :=
  [ [Lit "Stock: "; Lit stock];
    [Lit "Latest Price: $"; Fixed 2 (latest_price data)];
    [Lit "Volatility: "; Fixed 4 (volatility data);
     Lit " (https://www.investopedia.com/terms/v/volatility.asp)"];
    [Lit "Sharpe Ratio: "; Fixed 4 (sharpe_ratio data);
     Lit " (https://www.investopedia.com/terms/s/sharperatio.asp)"];
    [Lit "Average True Range (ATR): "; Fixed 4 (atr data);
     Lit " (https://www.investopedia.com/terms/a/atr.asp)"];
    [Lit "Average Rate of Change (ROC): "; Fixed 2 (avg_roc data);
     Lit "% (https://www.investopedia.com/terms/p/pricerateofchange.asp)"];
    [Lit "Latest Rate of Change (ROC): "; Fixed 2 (latest_roc data); Lit "%"];
    [Lit "RSI: "; Fixed 2 (rsi data); Lit " (https://www.investopedia.com/terms/r/rsi.asp)"];
    [Lit "MACD: "; Fixed 4 (macd data);
     Lit " (https://www.investopedia.com/terms/m/macd.asp)"];
    [Lit "MACD Signal: "; Fixed 4 (macd_signal data)];
    [Lit "Average Bollinger Bands Gap: $"; Fixed 2 (avg_bb_gap data);
     Lit " (https://www.investopedia.com/terms/b/bollingerbands.asp)"] ].

End Layout.

(** ** What analyze_stock computes, column by column *)

Module Described.
Import Float Py Pandas Analyzer Gatherer.
Local Open Scope R_scope.

(** The value [s.iloc[-1]] yields on a non-empty column. *)
Definition lastv (s : Series) : float64 := default NaN (last s).

(** [calculate_roc]'s value on a Close column. *)
Definition roc_of (n : nat) (close : Series) : Series :=
  scale (Fin 100) (div (sub close (shift n close)) (shift n close)).

Definition bb_gap_of (close : Series) : Series :=
  sub (upper_band_of (rolling_mean 20 close) close)
      (lower_band_of (rolling_mean 20 close) close).

(** The columns of the frame once analyze_stock has run to its end. *)
Definition analyzed_columns (close : Series) (cols : gmap string Series)
    : gmap string Series :=
  <["ROC" := roc_of 12 close]>
  (<["RSI" := rsi_of close]>
   (<["BB_Gap" := bb_gap_of close]>
    (<["LowerBand" := lower_band_of (rolling_mean 20 close) close]>
     (<["UpperBand" := upper_band_of (rolling_mean 20 close) close]>
      (<["SMA20" := rolling_mean 20 close]>
       (<["Daily Return" := pct_change close]> cols)))))).

(** The frame under [price_data] in the returned dict. *)
Definition charted_frame (n : nat) (close : Series) : DataFrame :=
  mkFrame n
    (<["Close" := close]>
     (<["Daily Return" := pct_change close]>
      (<["RSI" := rsi_of close]>
       (<["UpperBand" := upper_band_of (rolling_mean 20 close) close]>
        (<["LowerBand" := lower_band_of (rolling_mean 20 close) close]>
         (<["ROC" := roc_of 12 close]> ∅)))))).

Definition macd_frame (close : Series) : DataFrame :=
  mkFrame (length (macd_of close))
    (<["MACD" := macd_of close]> (<["Signal" := signal_of (macd_of close)]> ∅)).

(** The returned dict, as a function of the three columns read. *)
Definition result_of (n : nat) (close high low : Series) : IndicatorResult :=
  {| latest_price := lastv close;
     volatility := std (pct_change close);
     avg_daily_return := mean (pct_change close);
     sharpe_ratio := sharpe_of (mean (pct_change close)) (std (pct_change close)) n;
     macd := lastv (macd_of close);
     macd_signal := lastv (signal_of (macd_of close));
     upper_band := lastv (upper_band_of (rolling_mean 20 close) close);
     lower_band := lastv (lower_band_of (rolling_mean 20 close) close);
     avg_bb_gap := mean (bb_gap_of close);
     rsi := lastv (rsi_of close);
     atr := lastv (atr_series high low close);
     avg_roc := mean (roc_of 12 close);
     latest_roc := lastv (roc_of 12 close);
     result_price_data := charted_frame n close;
     macd_data := macd_frame close |}.

(** A frame analyze_stock runs to the end on: Close, High and Low columns of
    one length, and at least one row (the gatherer stores no empty frame). *)
Definition analysable (df : DataFrame) : Prop :=
  ∃ c h l,
    columns df !! "Close" = Some c ∧ columns df !! "High" = Some h ∧
    columns df !! "Low" = Some l ∧
    c ≠ [] ∧ length h = length c ∧ length l = length c.

(** A frame as a provider delivers it: every column has one entry per row,
    and the High, Low and Close columns are there. *)
Definition provider_frame (df : DataFrame) : Prop :=
  (∀ name s, columns df !! name = Some s → length s = nrows df) ∧
  is_Some (columns df !! "Close") ∧ is_Some (columns df !! "High") ∧
  is_Some (columns df !! "Low").

(** A computation that leaves the row count and every column outside
    [derived_columns] as they were, whether it returns or raises. *)
Definition touches_derived_only {A} (m : Frame A) : Prop :=
  ∀ df, nrows (m df).2 = nrows df ∧
        ∀ name, name ∉ derived_columns → columns (m df).2 !! name = columns df !! name.

(** A ticker yields data when the body of the [try] runs to its end. *)
Definition yields (p : Provider) (now : Z) (start_date end_date stock : string) : bool :=
  match fetch p now start_date end_date stock with
  | Ok _ => true
  | Raise _ => false
  end.

End Described.

(** ** The indicator formulas as the specification words them *)

Module Spec.
Import Float Py Pandas.
Local Open Scope R_scope.

(** Daily Return at bar [t >= 1]: [(close[t] - close[t-1]) / close[t-1]]. *)
Fixpoint returns_from (prev : R) (closes : list R) : list float64 :=
  match closes with
  | [] => []
  | x :: rest => fdiv (fsub (Fin x) (Fin prev)) (Fin prev) :: returns_from x rest
  end.


(** The same returns as real numbers, for closes none of which is 0. *)
Fixpoint real_returns_from (prev : R) (closes : list R) : list R :=
  match closes with
  | [] => []
  | x :: rest => (x - prev) / prev :: real_returns_from x rest
  end.


Definition arithmetic_mean (xs : list float64) : float64 :=
  fdiv (fsum xs) (of_nat (length xs)).

(** Sample standard deviation, [ddof = 1]: undefined below two samples. *)
Definition sample_std (xs : list float64) : float64 :=
  if decide (length xs ≤ 1)%nat then NaN
  else fsqrt (fdiv (fsum ((λ x, fsq (fsub x (arithmetic_mean xs))) <$> xs))
                   (of_nat (length xs - 1))).

End Spec.

Module MacdSpec.
Local Open Scope R_scope.

(** The recursive exponential moving average:
    [ema[0] = x[0]], [ema[t] = alpha * x[t] + (1 - alpha) * ema[t-1]]. *)
Fixpoint ema_from (alpha prev : R) (xs : list R) : list R :=
  match xs with
  | [] => []
  | x :: rest =>
      let e := alpha * x + (1 - alpha) * prev in
      e :: ema_from alpha e rest
  end.

Definition ema (span : nat) (xs : list R) : list R :=
  match xs with
  | [] => []
  | x0 :: rest => x0 :: ema_from (2 / (INR span + 1)) x0 rest
  end.

Definition macd_line (closes : list R) : list R :=
  zip_with Rminus (ema 12 closes) (ema 26 closes).

Definition signal_line (closes : list R) : list R := ema 9 (macd_line closes).

End MacdSpec.

Module RsiSpec.
Import Float Py Pandas.
Local Open Scope R_scope.

(** The upward part of a close-to-close delta, and the downward part as a
    magnitude: a delta of the other direction counts as 0. *)
Definition up_part (d : R) : R := Rmax d 0.
Definition down_part (d : R) : R := Rmax (- d) 0.

Fixpoint moves_from (part : R → R) (prev : R) (closes : list R) : list R :=
  match closes with
  | [] => []
  | x :: rest => part (x - prev) :: moves_from part x rest
  end.

(** One entry per bar; the first bar has no delta and counts as 0. *)
Definition moves (part : R → R) (closes : list R) : list R :=
  match closes with
  | [] => []
  | c0 :: rest => 0 :: moves_from part c0 rest
  end.

(** The [w]-period rolling mean at row [i]: undefined until [w] rows exist. *)
Definition sma (w : nat) (xs : list R) (i : nat) : float64 :=
  if decide (i + 1 < w)%nat then NaN
  else Fin (rmean (drop (i + 1 - w) (take (i + 1) xs))).

Definition rsi_at (closes : list R) (i : nat) : float64 :=
  let gain := sma 14 (moves up_part closes) i in
  let loss := sma 14 (moves down_part closes) i in
  fsub (Fin 100) (fdiv (Fin 100) (fadd (Fin 1) (fdiv gain loss))).

(** Strictly monotonically increasing closes. *)
Definition strictly_increasing (closes : list R) : Prop :=
  ∀ i x y, closes !! i = Some x → closes !! S i = Some y → x < y.

End RsiSpec.

Module AtrSpec.
Import Analyzer.
Local Open Scope R_scope.

(** True range of a bar given the previous close. *)
Definition true_range_next (prev_close : R) (b : PriceBar) : R :=
  Rmax (High b - Low b)
       (Rmax (Rabs (High b - prev_close)) (Rabs (Low b - prev_close))).

Fixpoint true_ranges_from (prev_close : R) (bars : list PriceBar) : list R :=
  match bars with
  | [] => []
  | b :: rest => true_range_next prev_close b :: true_ranges_from (Close b) rest
  end.

(** At the first bar only [high - low] takes part. *)
Definition true_ranges (bars : list PriceBar) : list R :=
  match bars with
  | [] => []
  | b0 :: rest => (High b0 - Low b0) :: true_ranges_from (Close b0) rest
  end.

End AtrSpec.

(** ** Inputs for the examples *)

Module Samples.
Import Float Py Pandas Analyzer Config Described.
Local Open Scope R_scope.

Definition two_bars : list PriceBar :=
  [mkBar 100 101 99 100 1000; mkBar 100 103 100 102 1200].

(** [n] bars closing at [a], [a+1], [a+2], ... *)
Definition rising_from (a n : nat) : list PriceBar :=
  (λ k, mkBar (INR k) (INR k + 1) (INR k - 1) (INR k) 1000) <$> seq a n.

Definition rising_bars (n : nat) : list PriceBar := rising_from 100 n.

Definition flat_bars (n : nat) (c : R) : list PriceBar :=
  replicate n (mkBar c c c c 1000).

(** A configuration that leaves both dates out. *)
Definition config_without_dates : gmap string yaml :=
  <["stocks" := YList [YStr "AAPL"; YStr "MSFT"]]> (<["report_format" := YStr "pdf"]> ∅).

(** A configuration that has both date keys, with no value. *)
Definition config_with_blank_dates : gmap string yaml :=
  <["start_date" := YNull]> (<["end_date" := YNull]> config_without_dates).

Definition one_ticker_evidence : gmap string StockData :=
  {["AAPL" := mkStockData (frame_of_bars two_bars) []]}.

(** A dict analyze_stock returns, for the report examples. *)
Definition sample_result : IndicatorResult :=
  result_of 2 (Fin <$> (Close <$> two_bars)) (Fin <$> (High <$> two_bars))
    (Fin <$> (Low <$> two_bars)).

Definition one_ticker_clues : gmap string IndicatorResult := {["AAPL" := sample_result]}.

(** A provider that answers every ticker with the two bars and no news. *)
Definition sample_provider : Gatherer.Provider :=
  Gatherer.mkProvider (λ _ _ _, Ok (frame_of_bars two_bars)) (λ _, Ok []).

(** A world for the examples: a fixed date, the provider above, charts that
    always render. *)
Definition sample_world : Main.World :=
  Main.mkWorld "2024-12-31" "2024-01-01" 1735600000 sample_provider (λ _, Report.NoFault).

End Samples.
(** ** More of what the code does, for the statements below *)

Module Behaviour.
Import Float Py Pandas Analyzer Gatherer Report.
Local Open Scope R_scope.


(** What one ticker adds to the log. *)
Definition log_of (p : Provider) (now : Z) (start_date end_date stock : string)
    : list log_record :=
  [Investigating stock;
   match fetch p now start_date end_date stock with
   | Ok _ => Stored stock
   | Raise e => Failed stock e
   end].


(** The 14 entries of a list up to row [i] (fewer near the top). *)
Definition last14 (xs : list R) (i : nat) : list R := drop (i + 1 - 14) (take (i + 1) xs).



(** The product of a list of reals. *)
Definition rprod (l : list R) : R := foldr Rmult 1 l.

(** The growth factors [1 + r] of a list of returns. *)
Definition growth (returns : list R) : list R := (λ r, 1 + r) <$> returns.

(** A value, and a bar, quoted in another unit: every price times [k]. *)
Definition rescale (k : R) (v : float64) : float64 :=
  match v with
  | Fin r => Fin (k * r)
  | PInf => PInf
  | NInf => NInf
  | NaN => NaN
  end.

Definition rescale_bar (k : R) (b : PriceBar) : PriceBar :=
  mkBar (k * Open b) (k * High b) (k * Low b) (k * Close b) (Volume b).

(** What drawing the charts of one ticker writes to disk, and what it
    appends to [temp_files]. *)
Definition charts_written (fault : chart_fault) (stock : string) : Files :=
  (_add_charts_to_pdf fault stock (∅, [])).1.

Definition charts_registered (fault : chart_fault) (stock : string) : list string :=
  (_add_charts_to_pdf fault stock (∅, [])).2.

(** The characters of a file name, last first. *)
Definition backwards (s : string) : list Ascii.ascii := reverse (String.list_ascii_of_string s).

End Behaviour.

(** ** Reading the printed report *)

Module Printed.
Import Float Py Analyzer Layout.

(** The numbers a piece of text shows, each with its number of decimals. *)
Definition numbers_of (t : text) : list (nat * float64) :=
  omap (λ p, match p with Fixed digits x => Some (digits, x) | Lit _ => None end) t.

Definition cells_of (marks : list mark) : list cell :=
  omap (λ m, match m with Cell c => Some c | Ln _ => None end) marks.

(** The numbers on a page, in the order drawn. *)
Definition page_numbers (marks : list mark) : list (nat * float64) :=
  cells_of marks ≫= λ c, numbers_of (txt c).

(** The widths of the rows of cells: a row ends with a cell drawn with
    [ln=1]. *)
Fixpoint row_widths (so_far : nat) (marks : list mark) : list nat :=
  match marks with
  | [] => []
  | Cell c :: rest =>
      if ln c then (so_far + width c)%nat :: row_widths 0 rest
      else row_widths (so_far + width c) rest
  | Ln _ :: rest => row_widths so_far rest
  end.

Definition black : colour := (0, 0, 0)%nat.
Definition blue : colour := (0, 0, 255)%nat.

(** A cell that carries a link is blue and underlined; one that carries
    none is black and not underlined. *)
Definition well_styled (c : cell) : Prop :=
  match link c with
  | Some _ => cell_color c = blue ∧ style (cell_font c) = Underlined
  | None => cell_color c = black ∧ style (cell_font c) ≠ Underlined
  end.

End Printed.
(** ** More inputs for the examples *)

Module Examples.
Import Float Py Pandas Analyzer Config Gatherer Report Main Samples.
Local Open Scope R_scope.




(** A frame of two rows that has a Close column only. *)
Definition closes_only : DataFrame := mkFrame 2 {["Close" := [Fin 100; Fin 102]]}.

(** The page of a ticker when its header has been drawn: a new FPDF object
    (black text) set to bold 16 pt helvetica. *)
Definition headed_page : Layout.FPDF :=
  Layout.mkPdf (Layout.mkFont "helvetica" Layout.Bold 16) (0, 0, 0)%nat [].

End Examples.

(** ** Facts about the float64 model *)

Module FloatFacts.
Import Float.
Local Open Scope R_scope.

Lemma sign_of_0 : sign_of 0 = Zero.
Proof. unfold sign_of. destruct (Req_EM_T 0 0); [done | lra]. Qed.

Lemma sign_of_pos r : 0 < r → sign_of r = Pos.
Proof.
  intros H. unfold sign_of.
  destruct (Req_EM_T r 0); [lra |]. destruct (Rlt_dec 0 r); [done | lra].
Qed.

Lemma sign_of_neg r : r < 0 → sign_of r = Neg.
Proof.
  intros H. unfold sign_of.
  destruct (Req_EM_T r 0); [lra |]. destruct (Rlt_dec 0 r); [lra | done].
Qed.

Lemma sign_of_nonzero r : r ≠ 0 → sign_of r ≠ Zero.
Proof. intros H. unfold sign_of. destruct (Req_EM_T r 0); [done |]. by destruct (Rlt_dec 0 r). Qed.

Lemma sign_of_Zero r : sign_of r = Zero → r = 0.
Proof.
  unfold sign_of. destruct (Req_EM_T r 0); [done |]. by destruct (Rlt_dec 0 r).
Qed.

Lemma sign_of_Neg r : sign_of r = Neg → r < 0.
Proof.
  unfold sign_of. destruct (Req_EM_T r 0); [done |].
  destruct (Rlt_dec 0 r); [done | lra].
Qed.

Lemma sign_of_Pos r : sign_of r = Pos → 0 < r.
Proof.
  unfold sign_of. destruct (Req_EM_T r 0); [done |].
  by destruct (Rlt_dec 0 r).
Qed.

Lemma fdiv_Fin x y : y ≠ 0 → fdiv (Fin x) (Fin y) = Fin (x / y).
Proof.
  intros H. simpl. pose proof (sign_of_nonzero y H). by destruct (sign_of y).
Qed.

Lemma fdiv_0_0 : fdiv (Fin 0) (Fin 0) = NaN.
Proof. simpl. by rewrite sign_of_0. Qed.

Lemma fdiv_pos_0 x : 0 < x → fdiv (Fin x) (Fin 0) = PInf.
Proof. intros H. simpl. by rewrite sign_of_0, (sign_of_pos x H). Qed.



Lemma fsqrt_0 : fsqrt (Fin 0) = Fin 0.
Proof. simpl. by rewrite sign_of_0, sqrt_0. Qed.


Lemma foldr_Rplus_acc (l : list R) (acc x : R) :
  foldr Rplus (acc + x) l = foldr Rplus acc l + x.
Proof. induction l as [| y l IH]; simpl; [done |]. rewrite IH. lra. Qed.

Lemma foldl_fadd_Fin (l : list R) (acc : R) :
  foldl fadd (Fin acc) (Fin <$> l) = Fin (foldr Rplus acc l).
Proof.
  revert acc. induction l as [| x l IH]; intros acc; [done |].
  simpl. rewrite IH, foldr_Rplus_acc. f_equal. lra.
Qed.

End FloatFacts.

(** ** Facts about the pandas operations *)

Module PandasFacts.
Import Float FloatFacts Py Pandas Described.
Local Open Scope R_scope.

Lemma last_lastv (s : Series) : s ≠ [] → last s = Some (lastv s).
Proof.
  unfold lastv. intros Hs. destruct (last s) eqn:E; [done |].
  by apply last_None in E.
Qed.

Lemma nonempty_length {A} (l : list A) : (0 < length l)%nat ↔ l ≠ [].
Proof. destruct l; simpl; split; (done || lia). Qed.

Lemma length_shift n s : length (shift n s) = length s.
Proof. unfold shift. rewrite length_take, length_app. lia. Qed.


Lemma lookup_shift_ge n s i :
  (n ≤ i)%nat → (i < length s)%nat → shift n s !! i = s !! (i - n)%nat.
Proof.
  intros Hn Hs. unfold shift. rewrite lookup_take_lt by done.
  rewrite lookup_app_r by (rewrite length_replicate; lia).
  by rewrite length_replicate.
Qed.

Lemma zip_with_take_r_le {A B C} (f : A → B → C) (l : list A) (k : list B) n :
  (length l ≤ n)%nat → zip_with f l (take n k) = zip_with f l k.
Proof.
  revert k n. induction l as [| x l IH]; intros [| y k] [| n] Hn; simpl in *;
    try done; try lia.
  f_equal. apply IH. lia.
Qed.

(** Zipping a column against [shift 1] of a column at least as long pairs
    each row with the row above, and the first row with NaN. *)
Lemma zip_with_shift1 {A C} (f : A → float64 → C) (l : list A) (s : Series) :
  (length l ≤ length s)%nat → zip_with f l (shift 1 s) = zip_with f l (NaN :: s).
Proof. intros H. unfold shift. simpl replicate. simpl app. by apply zip_with_take_r_le. Qed.

Lemma length_sub a b : length a = length b → length (sub a b) = length a.
Proof. intros H. unfold sub. by rewrite length_zip_with_l_eq. Qed.

Lemma length_add a b : length a = length b → length (add a b) = length a.
Proof. intros H. unfold add. by rewrite length_zip_with_l_eq. Qed.

Lemma length_div a b : length a = length b → length (div a b) = length a.
Proof. intros H. unfold div. by rewrite length_zip_with_l_eq. Qed.

Lemma length_scale k a : length (scale k a) = length a.
Proof. unfold scale. by rewrite length_fmap. Qed.

Lemma length_diff s : length (diff s) = length s.
Proof. unfold diff. apply length_sub. by rewrite length_shift. Qed.

Lemma length_pct_change s : length (pct_change s) = length s.
Proof.
  unfold pct_change. rewrite length_fmap. apply length_div. by rewrite length_shift.
Qed.

Lemma length_rolling w agg s : length (rolling w agg s) = length s.
Proof. unfold rolling. by rewrite length_imap. Qed.

Lemma length_ewm_go alpha wt o s : length (ewm_go alpha wt o s) = length s.
Proof.
  revert wt o. induction s as [| x s IH]; intros wt o; simpl; [done |].
  destruct (is_nan wt); [| destruct (is_nan x)]; simpl; by rewrite IH.
Qed.

Lemma length_ewm_mean span s : length (ewm_mean span s) = length s.
Proof. destruct s; simpl; [done |]. by rewrite length_ewm_go. Qed.

Lemma length_max_axis1 a b c :
  length b = length a → length c = length a → length (max_axis1 a b c) = length a.
Proof.
  intros Hb Hc. unfold max_axis1. rewrite length_zip_with_l_eq; [done |].
  rewrite length_zip_with_l_eq; congruence.
Qed.

Lemma observations_Fin (xs : list R) : observations (Fin <$> xs) = xs.
Proof.
  unfold observations. induction xs as [| x xs IH]; [done |].
  rewrite fmap_cons. cbn [omap list_omap]. by rewrite IH.
Qed.

Lemma window_Fin w i (xs : list R) :
  window w i (Fin <$> xs) = Fin <$> drop (i + 1 - w) (take (i + 1) xs).
Proof. unfold window. by rewrite fmap_drop, fmap_take. Qed.

(** A rolling aggregate over a column of finite values: NaN on the first
    [w-1] rows, the aggregate of rows [i-w+1 .. i] from then on. *)
Lemma lookup_rolling_Fin w agg (xs : list R) i :
  (i < length xs)%nat →
  rolling w agg (Fin <$> xs) !! i =
    Some (if decide (i + 1 < w)%nat then NaN
          else agg (drop (i + 1 - w) (take (i + 1) xs))).
Proof.
  intros Hi. unfold rolling. rewrite list_lookup_imap.
  destruct (lookup_lt_is_Some_2 (Fin <$> xs) i) as [v Hv].
  { by rewrite length_fmap. }
  rewrite Hv. simpl. f_equal.
  rewrite window_Fin, observations_Fin.
  rewrite length_drop, length_take.
  destruct (decide (i + 1 < w)%nat); destruct (decide _); (done || lia).
Qed.

Lemma dropna_Fin (xs : list R) : dropna (Fin <$> xs) = Fin <$> xs.
Proof.
  unfold dropna. induction xs as [| x xs IH]; [done |].
  rewrite fmap_cons, filter_cons_True by done. by rewrite IH.
Qed.

Lemma dropna_NaN_cons s : dropna (NaN :: s) = dropna s.
Proof. unfold dropna. by rewrite filter_cons_False by (simpl; auto). Qed.

Lemma dropna_app a b : dropna (a ++ b) = dropna a ++ dropna b.
Proof. unfold dropna. apply filter_app. Qed.

Lemma dropna_replicate_NaN n : dropna (replicate n NaN) = [].
Proof. induction n as [| n IH]; [done |]. simpl. by rewrite dropna_NaN_cons. Qed.

Lemma rsum_replicate n c : rsum (replicate n c) = INR n * c.
Proof.
  induction n as [| n IH]; [simpl; lra |].
  rewrite S_INR. change (rsum (replicate (S n) c)) with (c + rsum (replicate n c)).
  rewrite IH. lra.
Qed.

Lemma rmean_replicate n c : n ≠ 0%nat → rmean (replicate n c) = c.
Proof.
  intros Hn. unfold rmean. rewrite rsum_replicate, length_replicate.
  field. by apply not_0_INR.
Qed.

Lemma ssd_replicate n c : ssd (replicate n c) = 0.
Proof.
  destruct n as [| n]; [done |].
  unfold ssd. rewrite rmean_replicate by done. rewrite fmap_replicate, rsum_replicate. lra.
Qed.

End PandasFacts.

(** ** What analyze_stock returns and what it leaves in the frame *)

Module AnalyzerFacts.
Import Float FloatFacts Py Pandas PandasFacts Analyzer Described.
Local Open Scope R_scope.

Lemma bind_ret {A B} (a : A) (k : A → Frame B) df : bind (ret a) k df = k a df.
Proof. done. Qed.

Lemma bind_assoc {A B C} (m : Frame A) (f : A → Frame B) (g : B → Frame C) df :
  bind (bind m f) g df = bind m (λ a, bind (f a) g) df.
Proof. unfold bind. destruct (m df) as [[a | e] df']; [| done]. done. Qed.

Lemma bind_get_col {A} name s (k : Series → Frame A) df :
  columns df !! name = Some s → bind (get_col name) k df = k s df.
Proof. intros H. unfold bind, get_col. by rewrite H. Qed.

Lemma bind_set_col {A} name s (k : unit → Frame A) df :
  bind (set_col name s) k df = k tt (mkFrame (nrows df) (<[name := s]> (columns df))).
Proof. done. Qed.

Lemma bind_frame_len {A} (k : nat → Frame A) df :
  bind frame_len k df = k (nrows df) df.
Proof. done. Qed.

Lemma bind_iloc_last {A} s (k : float64 → Frame A) df :
  s ≠ [] → bind (iloc_last s) k df = k (lastv s) df.
Proof. intros H. unfold bind, iloc_last. by rewrite (last_lastv s H). Qed.


Lemma length_macd_of c : length (macd_of c) = length c.
Proof. unfold macd_of. rewrite length_sub; by rewrite !length_ewm_mean. Qed.

Lemma length_signal_of c : length (signal_of c) = length c.
Proof. unfold signal_of. by rewrite length_ewm_mean. Qed.

Lemma length_upper_band_of c :
  length (upper_band_of (rolling_mean 20 c) c) = length c.
Proof.
  unfold upper_band_of, rolling_mean, rolling_std.
  rewrite length_add; rewrite ?length_scale, !length_rolling; done.
Qed.

Lemma length_lower_band_of c :
  length (lower_band_of (rolling_mean 20 c) c) = length c.
Proof.
  unfold lower_band_of, rolling_mean, rolling_std.
  rewrite length_sub; rewrite ?length_scale, !length_rolling; done.
Qed.

Lemma length_rsi_of c : length (rsi_of c) = length c.
Proof.
  unfold rsi_of, gain_of, loss_of, rolling_mean, where_, neg.
  rewrite length_fmap, length_div; rewrite !length_rolling, ?length_fmap, length_diff; done.
Qed.

Lemma length_true_range_of h l c :
  length h = length c → length l = length c →
  length (true_range_of h l c) = length c.
Proof.
  intros Hh Hl. unfold true_range_of, abs.
  assert (length (sub h l) = length c) as E1
    by (rewrite length_sub; congruence).
  assert (length (sub h (shift 1 c)) = length c) as E2
    by (rewrite length_sub; rewrite ?length_shift; congruence).
  assert (length (sub l (shift 1 c)) = length c) as E3
    by (rewrite length_sub; rewrite ?length_shift; congruence).
  rewrite length_max_axis1; rewrite ?length_fmap; congruence.
Qed.

Lemma length_atr_series h l c :
  length h = length c → length l = length c →
  length (atr_series h l c) = length c.
Proof.
  intros Hh Hl. unfold atr_series, rolling_mean.
  by rewrite length_rolling, length_true_range_of.
Qed.

Lemma length_roc_of n c : length (roc_of n c) = length c.
Proof.
  assert (length (sub c (shift n c)) = length c) as E
    by (apply length_sub; by rewrite length_shift).
  unfold roc_of. rewrite length_scale, length_div; rewrite ?length_shift; done.
Qed.

Ltac nonempty :=
  apply nonempty_length;
  rewrite ?length_signal_of, ?length_macd_of, ?length_upper_band_of,
    ?length_lower_band_of, ?length_rsi_of, ?length_roc_of,
    ?length_atr_series by congruence;
  apply nonempty_length; assumption.

Ltac column :=
  cbn [columns nrows];
  repeat (rewrite lookup_insert_ne by done);
  first [ apply lookup_insert_eq | eassumption ].

(** A frame with Close, High and Low columns of one length and at least one
    row is analysed to the end: the dict is [result_of] and the frame has
    gained the seven derived columns. *)
Lemma analyze_frame_ok df c h l :
  columns df !! "Close" = Some c →
  columns df !! "High" = Some h →
  columns df !! "Low" = Some l →
  c ≠ [] → length h = length c → length l = length c →
  analyze_frame df =
    (Ok (result_of (nrows df) c h l),
     mkFrame (nrows df) (analyzed_columns c (columns df))).
Proof.
  intros Hc Hh Hl Hne Hlh Hll. unfold analyze_frame, calculate_roc.
  repeat first
    [ rewrite bind_set_col
    | rewrite bind_frame_len
    | rewrite bind_ret
    | rewrite bind_assoc
    | erewrite bind_get_col by column
    | progress fold (roc_of 12 c)
    | rewrite bind_iloc_last by nonempty ].
  unfold select, bind. cbn [select_cols charted_columns columns nrows].
  repeat (rewrite ?lookup_insert_eq; rewrite ?lookup_insert_ne by done).
  rewrite Hc. done.
Qed.

End AnalyzerFacts.

(** ** The indicator formulas as the specification words them *)

Module SharpeFacts.
Import Float FloatFacts Py Pandas PandasFacts Analyzer AnalyzerFacts Spec Described.
Local Open Scope R_scope.

Lemma frame_of_bars_close bars :
  columns (frame_of_bars bars) !! "Close" = Some (Fin <$> (Close <$> bars)).
Proof.
  unfold frame_of_bars. cbn [columns].
  repeat (rewrite lookup_insert_ne by done). rewrite lookup_insert_eq.
  by rewrite list_fmap_compose.
Qed.

Lemma frame_of_bars_high bars :
  columns (frame_of_bars bars) !! "High" = Some (Fin <$> (High <$> bars)).
Proof.
  unfold frame_of_bars. cbn [columns].
  repeat (rewrite lookup_insert_ne by done). rewrite lookup_insert_eq.
  by rewrite list_fmap_compose.
Qed.

Lemma frame_of_bars_low bars :
  columns (frame_of_bars bars) !! "Low" = Some (Fin <$> (Low <$> bars)).
Proof.
  unfold frame_of_bars. cbn [columns].
  repeat (rewrite lookup_insert_ne by done). rewrite lookup_insert_eq.
  by rewrite list_fmap_compose.
Qed.

(** analyze_stock on the frame of a non-empty bar sequence. *)
Lemma analyze_bars_ok stock bars news :
  bars ≠ [] →
  analyze_stock (stock, mkStockData (frame_of_bars bars) news) =
    (Ok (stock, result_of (length bars) (Fin <$> (Close <$> bars))
                  (Fin <$> (High <$> bars)) (Fin <$> (Low <$> bars))),
     mkFrame (length bars)
       (analyzed_columns (Fin <$> (Close <$> bars)) (columns (frame_of_bars bars)))).
Proof.
  intros Hne. unfold analyze_stock. cbn [price_data].
  rewrite (analyze_frame_ok _ _ _ _ (frame_of_bars_close bars)
             (frame_of_bars_high bars) (frame_of_bars_low bars)).
  - done.
  - by destruct bars.
  - by rewrite !length_fmap.
  - by rewrite !length_fmap.
Qed.

(** pandas' [x / prev - 1] and the specification's [(x - prev) / prev]
    agree, also when [prev] is 0. *)
Lemma return_formulas_agree x p :
  fsub (fdiv (Fin x) (Fin p)) (Fin 1) = fdiv (fsub (Fin x) (Fin p)) (Fin p).
Proof.
  cbn [fsub fneg fadd fdiv]. destruct (sign_of p) eqn:Ep.
  - simpl. f_equal. apply sign_of_Neg in Ep. field. lra.
  - apply sign_of_Zero in Ep. subst p.
    replace (x + - 0) with x by lra. by destruct (sign_of x).
  - simpl. f_equal. apply sign_of_Pos in Ep. field. lra.
Qed.

Lemma pct_change_from p (rest : list R) :
  (λ v, fsub v (Fin 1)) <$> zip_with fdiv (Fin <$> rest) (Fin p :: (Fin <$> rest))
  = returns_from p rest.
Proof.
  revert p. induction rest as [| x rest IH]; intros p; [done |].
  cbn [fmap list_fmap zip_with returns_from].
  rewrite return_formulas_agree. f_equal. apply IH.
Qed.

(** The Daily Return column: NaN at the first bar, then the returns. *)
Lemma pct_change_closes c0 (rest : list R) :
  pct_change (Fin <$> (c0 :: rest)) = NaN :: returns_from c0 rest.
Proof.
  unfold pct_change, div. rewrite zip_with_shift1 by done.
  cbn [fmap list_fmap zip_with]. f_equal. apply pct_change_from.
Qed.

Lemma returns_from_nonzero p (rest : list R) :
  Forall (λ c, c ≠ 0) (p :: rest) →
  returns_from p rest = Fin <$> real_returns_from p rest.
Proof.
  revert p. induction rest as [| x rest IH]; intros p Hnz; [done |].
  apply Forall_cons in Hnz as [Hp Hnz].
  cbn [returns_from real_returns_from fmap list_fmap]. rewrite IH by done.
  f_equal. cbn [fsub fneg fadd]. by rewrite fdiv_Fin.
Qed.


Lemma fsq_fsub_comm a b : fsq (fsub a b) = fsq (fsub b a).
Proof.
  destruct a, b; simpl; try done. f_equal. ring.
Qed.

Lemma mean_is_arithmetic_mean s : mean s = arithmetic_mean (dropna s).
Proof. done. Qed.

Lemma std_is_sample_std s : std s = sample_std (dropna s).
Proof.
  unfold std, var, sample_std. destruct (decide _); [done |].
  do 3 f_equal. apply list_fmap_ext. intros i x _. apply fsq_fsub_comm.
Qed.

End SharpeFacts.

(** ** Sharpe ratio *)

Section Sharpe.
Import Float FloatFacts Py Pandas PandasFacts Analyzer AnalyzerFacts Spec SharpeFacts Described Samples.
Local Open Scope R_scope.



End Sharpe.

(** ** MACD and its signal line *)

Section Macd.
Import Float FloatFacts Py Pandas PandasFacts Analyzer AnalyzerFacts SharpeFacts MacdSpec Described Samples.
Local Open Scope R_scope.

Lemma ema_from_lookup alpha prev xs t x e :
  xs !! S t = Some x → ema_from alpha prev xs !! t = Some e →
  ema_from alpha prev xs !! S t = Some (alpha * x + (1 - alpha) * e).
Proof.
  revert prev t e. induction xs as [| y xs IH]; intros prev t e Hx He; [done |].
  destruct t as [| t]; simpl in *.
  - destruct xs as [| z xs]; [done |]. simpl in *. congruence.
  - by apply IH.
Qed.

(** The recursion, read by index. *)
Lemma ema_seed span x0 xs : ema span (x0 :: xs) !! 0%nat = Some x0.
Proof. done. Qed.

Lemma ema_recursion span xs t x e :
  xs !! S t = Some x → ema span xs !! t = Some e →
  ema span xs !! S t = Some (2 / (INR span + 1) * x + (1 - 2 / (INR span + 1)) * e).
Proof.
  destruct xs as [| x0 xs]; [done |]. cbn [ema]. intros Hx He.
  destruct t as [| t]; simpl in *.
  - destruct xs as [| y xs]; [done |]. simpl in *. congruence.
  - by apply ema_from_lookup.
Qed.

Lemma ewm_go_Fin alpha w (xs : list R) :
  ewm_go alpha (Fin w) 1 (Fin <$> xs) = Fin <$> ema_from alpha w xs.
Proof.
  revert w. induction xs as [| x xs IH]; intros w; [done |].
  cbn [fmap list_fmap ewm_go is_nan ema_from fmul fadd].
  assert (sign_of (1 * (1 - alpha) + alpha) = Pos) as Hs by (apply sign_of_pos; lra).
  cbn [fdiv]. rewrite Hs.
  replace ((1 * (1 - alpha) * w + alpha * x) / (1 * (1 - alpha) + alpha))
    with (alpha * x + (1 - alpha) * w) by (field; lra).
  f_equal. apply IH.
Qed.

(** On a column of finite values pandas' ewm average is the recursion. *)
Lemma ewm_mean_Fin span (xs : list R) :
  ewm_mean span (Fin <$> xs) = Fin <$> ema span xs.
Proof.
  destruct xs as [| x0 xs]; [done |].
  cbn [fmap list_fmap ewm_mean ema]. f_equal. apply ewm_go_Fin.
Qed.

Lemma sub_Fin (a b : list R) :
  sub (Fin <$> a) (Fin <$> b) = Fin <$> zip_with Rminus a b.
Proof.
  revert b. induction a as [| x a IH]; intros [| y b]; try done.
  cbn [fmap list_fmap zip_with sub]. f_equal. apply IH.
Qed.

Lemma macd_of_Fin (closes : list R) :
  macd_of (Fin <$> closes) = Fin <$> macd_line closes.
Proof. unfold macd_of, macd_line. by rewrite !ewm_mean_Fin, sub_Fin. Qed.

Lemma signal_of_Fin (closes : list R) :
  signal_of (macd_of (Fin <$> closes)) = Fin <$> signal_line closes.
Proof. unfold signal_of, signal_line. by rewrite macd_of_Fin, ewm_mean_Fin. Qed.

Lemma length_ema_from alpha p xs : length (ema_from alpha p xs) = length xs.
Proof. revert p. induction xs; intros p; simpl; [done |]. by rewrite IHxs. Qed.

Lemma length_ema span xs : length (ema span xs) = length xs.
Proof. destruct xs; simpl; [done |]. by rewrite length_ema_from. Qed.

(** C2.  For a non-empty price series analyze_stock returns; its MACD column
    is EMA(close, 12) - EMA(close, 26) and its Signal column is EMA(MACD, 9),
    each EMA being the recursion seeded with the first input value with
    alpha = 2 / (span + 1); the [macd] and [macd_signal] scalars are the last
    elements of those columns; and on a two-point column [p0; p1] the span-12
    average at t = 1 is alpha * p1 + (1 - alpha) * p0 with alpha = 2/13. *)
Theorem macd_is_ema_difference (stock : string) (bars : list PriceBar) (news : list NewsItem) :
  bars ≠ [] →
  ∃ res df',
    analyze_stock (stock, mkStockData (frame_of_bars bars) news) = (Ok (stock, res), df') ∧
    let closes := Close <$> bars in
    columns (macd_data res) !! "MACD" = Some (Fin <$> macd_line closes) ∧
    columns (macd_data res) !! "Signal" = Some (Fin <$> signal_line closes) ∧
    last (Fin <$> macd_line closes) = Some (macd res) ∧
    last (Fin <$> signal_line closes) = Some (macd_signal res) ∧
    (∀ span x0 xs, ema span (x0 :: xs) !! 0%nat = Some x0) ∧
    (∀ span xs t x e,
        xs !! S t = Some x → ema span xs !! t = Some e →
        ema span xs !! S t =
          Some (2 / (INR span + 1) * x + (1 - 2 / (INR span + 1)) * e)) ∧
    (∀ p0 p1 : R,
        ewm_mean 12 [Fin p0; Fin p1] = [Fin p0; Fin (2 / 13 * p1 + (1 - 2 / 13) * p0)]).
Proof.
  intros Hne. eexists _, _. split; [by apply analyze_bars_ok |].
  cbn [macd_data macd macd_signal result_of macd_frame columns].
  rewrite signal_of_Fin, macd_of_Fin.
  assert (Fin <$> macd_line (Close <$> bars) ≠ []) as Hm.
  { apply nonempty_length. rewrite length_fmap. unfold macd_line.
    rewrite length_zip_with_l_eq; rewrite !length_ema, ?length_fmap; [| done].
    by apply nonempty_length. }
  assert (Fin <$> signal_line (Close <$> bars) ≠ []) as Hs.
  { apply nonempty_length. rewrite length_fmap. unfold signal_line.
    rewrite length_ema. rewrite <- (length_fmap Fin). by apply nonempty_length. }
  split_and!.
  - by rewrite lookup_insert_eq.
  - rewrite lookup_insert_ne by done. by rewrite lookup_insert_eq.
  - by apply last_lastv.
  - by apply last_lastv.
  - done.
  - apply ema_recursion.
  - intros p0 p1. change [Fin p0; Fin p1] with (Fin <$> [p0; p1]).
    rewrite ewm_mean_Fin. cbn [ema ema_from fmap list_fmap]. do 3 f_equal.
    simpl INR. field.
Qed.

Lemma macd_is_ema_difference_witness :
  ∃ res df',
    analyze_stock ("AAPL", mkStockData (frame_of_bars two_bars) []) = (Ok ("AAPL", res), df') ∧
    let closes := Close <$> two_bars in
    columns (macd_data res) !! "MACD" = Some (Fin <$> macd_line closes) ∧
    columns (macd_data res) !! "Signal" = Some (Fin <$> signal_line closes) ∧
    last (Fin <$> macd_line closes) = Some (macd res) ∧
    last (Fin <$> signal_line closes) = Some (macd_signal res) ∧
    (∀ span x0 xs, ema span (x0 :: xs) !! 0%nat = Some x0) ∧
    (∀ span xs t x e,
        xs !! S t = Some x → ema span xs !! t = Some e →
        ema span xs !! S t =
          Some (2 / (INR span + 1) * x + (1 - 2 / (INR span + 1)) * e)) ∧
    (∀ p0 p1 : R,
        ewm_mean 12 [Fin p0; Fin p1] = [Fin p0; Fin (2 / 13 * p1 + (1 - 2 / 13) * p0)]).
Proof. apply (macd_is_ema_difference "AAPL" two_bars []). done. Defined.

End Macd.

(** ** RSI *)

Section Rsi.
Import Float FloatFacts Py Pandas PandasFacts Analyzer AnalyzerFacts SharpeFacts RsiSpec Described.
Local Open Scope R_scope.

Lemma length_moves_from part p xs : length (moves_from part p xs) = length xs.
Proof. revert p. induction xs; intros p; simpl; [done |]. by rewrite IHxs. Qed.

Lemma length_moves part xs : length (moves part xs) = length xs.
Proof. destruct xs; simpl; [done |]. by rewrite length_moves_from. Qed.

Lemma keep_up d :
  (if fgt0 (Fin d) then Fin d else Fin 0) = Fin (up_part d).
Proof.
  unfold up_part. simpl. destruct (sign_of d) eqn:E; f_equal.
  - apply sign_of_Neg in E. rewrite Rmax_right; lra.
  - apply sign_of_Zero in E. rewrite Rmax_right; lra.
  - apply sign_of_Pos in E. rewrite Rmax_left; lra.
Qed.

Lemma keep_down d :
  fneg (if flt0 (Fin d) then Fin d else Fin 0) = Fin (down_part d).
Proof.
  unfold down_part. simpl. destruct (sign_of d) eqn:E; simpl; f_equal.
  - apply sign_of_Neg in E. rewrite Rmax_left; lra.
  - apply sign_of_Zero in E. rewrite Rmax_right; lra.
  - apply sign_of_Pos in E. rewrite Rmax_right; lra.
Qed.

Lemma gains_from p (rest : list R) :
  where_ fgt0 (Fin 0) (zip_with fsub (Fin <$> rest) (Fin p :: (Fin <$> rest)))
  = Fin <$> moves_from up_part p rest.
Proof.
  revert p. induction rest as [| x rest IH]; intros p; [done |].
  unfold where_ in *. cbn [fmap list_fmap zip_with moves_from].
  rewrite <- IH. f_equal. apply keep_up.
Qed.

Lemma losses_from p (rest : list R) :
  neg (where_ flt0 (Fin 0) (zip_with fsub (Fin <$> rest) (Fin p :: (Fin <$> rest))))
  = Fin <$> moves_from down_part p rest.
Proof.
  revert p. induction rest as [| x rest IH]; intros p; [done |].
  unfold neg, where_ in *. cbn [fmap list_fmap zip_with moves_from].
  rewrite <- IH. f_equal. apply keep_down.
Qed.

(** The two columns the rolling means run over hold finite values: the
    NaN delta of the first bar has become 0. *)
Lemma gains_Fin (closes : list R) :
  where_ fgt0 (Fin 0) (diff (Fin <$> closes)) = Fin <$> moves up_part closes.
Proof.
  destruct closes as [| c0 rest]; [done |].
  unfold diff, sub. rewrite zip_with_shift1 by done.
  cbn [fmap list_fmap zip_with moves]. unfold where_ at 1. rewrite fmap_cons.
  f_equal. apply gains_from.
Qed.

Lemma losses_Fin (closes : list R) :
  neg (where_ flt0 (Fin 0) (diff (Fin <$> closes))) = Fin <$> moves down_part closes.
Proof.
  destruct closes as [| c0 rest]; [done |].
  unfold diff, sub. rewrite zip_with_shift1 by done.
  cbn [fmap list_fmap zip_with moves]. unfold neg at 1, where_ at 1. rewrite !fmap_cons.
  f_equal; [simpl; f_equal; lra |]. apply losses_from.
Qed.

Lemma lookup_rolling_mean_Fin w (xs : list R) i :
  (i < length xs)%nat → rolling_mean w (Fin <$> xs) !! i = Some (sma w xs i).
Proof. intros Hi. unfold rolling_mean, sma. by rewrite lookup_rolling_Fin. Qed.

(** The RSI column, row by row. *)
Lemma lookup_rsi_of (closes : list R) i :
  (i < length closes)%nat → rsi_of (Fin <$> closes) !! i = Some (rsi_at closes i).
Proof.
  intros Hi. unfold rsi_of, gain_of, loss_of, div.
  rewrite gains_Fin, losses_Fin.
  rewrite list_lookup_fmap, lookup_zip_with.
  rewrite !lookup_rolling_mean_Fin by (by rewrite length_moves).
  done.
Qed.

Lemma increasing_tail x y rest :
  strictly_increasing (x :: y :: rest) → x < y ∧ strictly_increasing (y :: rest).
Proof.
  intros H. split; [by apply (H 0%nat) |].
  intros i a b Ha Hb. by apply (H (S i)).
Qed.

Lemma down_moves_increasing p rest :
  strictly_increasing (p :: rest) →
  moves_from down_part p rest = replicate (length rest) 0.
Proof.
  revert p. induction rest as [| x rest IH]; intros p H; [done |].
  apply increasing_tail in H as [Hlt H]. simpl. rewrite IH by done.
  f_equal. unfold down_part. rewrite Rmax_right; lra.
Qed.

Lemma up_moves_increasing p rest :
  strictly_increasing (p :: rest) →
  Forall (λ u, 0 < u) (moves_from up_part p rest).
Proof.
  revert p. induction rest as [| x rest IH]; intros p H; [constructor |].
  apply increasing_tail in H as [Hlt H]. simpl. constructor; [| by apply IH].
  unfold up_part. rewrite Rmax_left; lra.
Qed.

Lemma rsum_nonneg l : Forall (λ u, 0 <= u) l → 0 <= rsum l.
Proof.
  induction 1 as [| x l Hx Hl IH]; [simpl; lra |].
  change (rsum (x :: l)) with (x + rsum l). lra.
Qed.

Lemma rsum_pos l j x :
  Forall (λ u, 0 <= u) l → l !! j = Some x → 0 < x → 0 < rsum l.
Proof.
  intros Hall. revert j. induction Hall as [| y l Hy Hl IH]; intros j Hj Hx; [done |].
  change (rsum (y :: l)) with (y + rsum l).
  destruct j as [| j]; simpl in Hj.
  - inversion Hj; subst. pose proof (rsum_nonneg l Hl). lra.
  - pose proof (IH j Hj Hx). lra.
Qed.

(** On strictly increasing closes, from row 13 on, the loss mean is 0 and the
    gain mean is positive. *)
Lemma loss_increasing closes i :
  strictly_increasing closes → (13 ≤ i < length closes)%nat →
  sma 14 (moves down_part closes) i = Fin 0.
Proof.
  intros Hinc [Hi Hn]. unfold sma. destruct (decide _); [lia |]. f_equal.
  destruct closes as [| c0 rest]; [simpl in Hn; lia |].
  cbn [moves]. rewrite down_moves_increasing by done.
  change (0 :: replicate (length rest) 0) with (replicate (S (length rest)) 0).
  rewrite take_replicate, drop_replicate. simpl in Hn.
  rewrite rmean_replicate by lia. done.
Qed.

Lemma gain_increasing closes i :
  strictly_increasing closes → (13 ≤ i < length closes)%nat →
  ∃ g, 0 < g ∧ sma 14 (moves up_part closes) i = Fin g.
Proof.
  intros Hinc [Hi Hn]. unfold sma. destruct (decide _); [lia |].
  eexists. split; [| done].
  destruct closes as [| c0 rest]; [simpl in Hn; lia |]. simpl in Hn.
  pose proof (up_moves_increasing c0 rest Hinc) as Hpos.
  set (ups := moves up_part (c0 :: rest)).
  assert (Forall (λ u, 0 <= u) ups) as Hnn.
  { subst ups. cbn [moves]. constructor; [lra |].
    eapply Forall_impl; [exact Hpos |]. simpl. intros; lra. }
  assert (length ups = S (length rest)) as Hlen by (subst ups; by rewrite length_moves).
  destruct (lookup_lt_is_Some_2 ups i) as [u Hu]; [lia |].
  assert (0 < u) as Hupos.
  { subst ups. cbn [moves] in Hu. destruct i as [| i]; [lia |]. simpl in Hu.
    rewrite Forall_lookup in Hpos. by apply (Hpos i). }
  set (win := drop (i + 1 - 14) (take (i + 1) ups)).
  assert (length win = 14%nat) as Hw.
  { subst win. rewrite length_drop, length_take. lia. }
  assert (win !! 13%nat = Some u) as Hwu.
  { subst win. rewrite lookup_drop, lookup_take_lt by lia.
    replace (i + 1 - 14 + 13)%nat with i by lia. done. }
  assert (0 < rsum win) as Hs.
  { eapply rsum_pos; [| exact Hwu | done].
    subst win. by apply Forall_drop, Forall_take. }
  unfold rmean. rewrite Hw. apply Rdiv_lt_0_compat; [done |]. simpl. lra.
Qed.

Lemma rsi_at_increasing closes i :
  strictly_increasing closes → (13 ≤ i < length closes)%nat →
  rsi_at closes i = Fin 100.
Proof.
  intros Hinc Hi. unfold rsi_at.
  rewrite loss_increasing by done.
  destruct (gain_increasing closes i Hinc Hi) as (g & Hg & ->).
  rewrite fdiv_pos_0 by done. simpl. f_equal. lra.
Qed.

(** C3.  analyze_stock's RSI column is, at every row, 100 - 100/(1 + gain/loss)
    with gain the 14-period rolling mean of the upward deltas and loss the
    14-period rolling mean of the magnitudes of the downward deltas, a delta
    of the other direction counting as 0 in each mean; and on strictly
    increasing closes the loss mean is 0 and the RSI is 100 at every row whose
    window is full. *)
Theorem rsi_formula (stock : string) (bars : list PriceBar) (news : list NewsItem) :
  bars ≠ [] →
  ∃ res df' rsi_col,
    analyze_stock (stock, mkStockData (frame_of_bars bars) news) = (Ok (stock, res), df') ∧
    columns (result_price_data res) !! "RSI" = Some rsi_col ∧
    let closes := Close <$> bars in
    (∀ i, (i < length bars)%nat → rsi_col !! i = Some (rsi_at closes i)) ∧
    (strictly_increasing closes →
       ∀ i, (13 ≤ i < length bars)%nat →
         sma 14 (moves down_part closes) i = Fin 0 ∧ rsi_col !! i = Some (Fin 100)).
Proof.
  intros Hne. eexists _, _, _. split; [by apply analyze_bars_ok |].
  cbn [result_price_data result_of charted_frame columns]. split.
  { do 2 (rewrite lookup_insert_ne by done). by rewrite lookup_insert_eq. }
  cbn zeta. split.
  - intros i Hi. apply lookup_rsi_of. by rewrite length_fmap.
  - intros Hinc i Hi. rewrite <- (length_fmap Close) in Hi. split.
    + by apply loss_increasing.
    + rewrite lookup_rsi_of by lia. f_equal. by apply rsi_at_increasing.
Qed.

End Rsi.

Section RsiWitness.
Import Float FloatFacts Py Pandas PandasFacts Analyzer AnalyzerFacts RsiSpec Samples.
Local Open Scope R_scope.

Lemma rising_from_increasing a n : strictly_increasing (Close <$> rising_from a n).
Proof.
  intros i x y. unfold rising_from. rewrite <- !list_fmap_compose, !list_lookup_fmap.
  intros Hx Hy.
  destruct (seq a n !! i) as [u |] eqn:Eu; [| done].
  destruct (seq a n !! S i) as [v |] eqn:Ev; [| done].
  apply lookup_seq in Eu as [-> _]. apply lookup_seq in Ev as [-> _].
  cbn -[INR] in Hx, Hy. injection Hx as <-. injection Hy as <-.
  apply lt_INR. lia.
Qed.

Lemma rising_bars_increasing n : strictly_increasing (Close <$> rising_bars n).
Proof. apply rising_from_increasing. Qed.

Lemma length_rising_bars n : length (rising_bars n) = n.
Proof. unfold rising_bars, rising_from. by rewrite length_fmap, length_seq. Qed.

Lemma rsi_formula_witness :
  ∃ res df' rsi_col,
    analyze_stock ("AAPL", mkStockData (frame_of_bars (rising_bars 15)) []) =
      (Ok ("AAPL", res), df') ∧
    columns (result_price_data res) !! "RSI" = Some rsi_col ∧
    rsi_col !! 13%nat = Some (Fin 100) ∧ rsi_col !! 14%nat = Some (Fin 100).
Proof.
  destruct (rsi_formula "AAPL" (rising_bars 15) []) as (res & df' & col & Hrun & Hcol & _ & Hinc).
  { intros E. apply (f_equal length) in E. by rewrite length_rising_bars in E. }
  exists res, df', col. split; [exact Hrun |]. split; [exact Hcol |].
  pose proof (Hinc (rising_bars_increasing 15)) as H.
  split.
  - apply (H 13%nat). rewrite length_rising_bars. lia.
  - apply (H 14%nat). rewrite length_rising_bars. lia.
Defined.

End RsiWitness.

(** ** Constant-price series *)

Section ConstantPrice.
Import Float FloatFacts Py Pandas PandasFacts Analyzer AnalyzerFacts Spec SharpeFacts Described.
Local Open Scope R_scope.

Lemma zip_with_pieces {A B C} (f : A → B → C) a b x y u v :
  zip_with f (replicate a x ++ replicate b y) (replicate a u ++ replicate b v)
  = replicate a (f x u) ++ replicate b (f y v).
Proof.
  rewrite zip_with_app by (by rewrite !length_replicate).
  by rewrite !zip_with_replicate.
Qed.

Lemma fmap_pieces {A B} (f : A → B) a b (x y : A) :
  f <$> (replicate a x ++ replicate b y) = replicate a (f x) ++ replicate b (f y).
Proof. by rewrite fmap_app, !fmap_replicate. Qed.

Lemma dropna_pieces a b v :
  dropna (replicate a NaN ++ replicate b (Fin v)) = replicate b (Fin v).
Proof.
  rewrite dropna_app, dropna_replicate_NaN. simpl.
  rewrite <- (fmap_replicate Fin). apply dropna_Fin.
Qed.

Lemma fsum_zeros m : fsum (replicate m (Fin 0)) = Fin 0.
Proof.
  unfold fsum. rewrite <- (fmap_replicate Fin), foldl_fadd_Fin. f_equal.
  change (foldr Rplus 0 (replicate m 0)) with (rsum (replicate m 0)).
  rewrite rsum_replicate. lra.
Qed.

Lemma fdiv_0_of_nat k : k ≠ 0%nat → fdiv (Fin 0) (of_nat k) = Fin 0.
Proof.
  intros Hk. unfold of_nat. rewrite fdiv_Fin by (by apply not_0_INR).
  f_equal. unfold Rdiv. lra.
Qed.

Lemma arithmetic_mean_zeros m :
  m ≠ 0%nat → arithmetic_mean (replicate m (Fin 0)) = Fin 0.
Proof.
  intros Hm. unfold arithmetic_mean. rewrite fsum_zeros, length_replicate.
  by apply fdiv_0_of_nat.
Qed.

Lemma sample_std_zeros m :
  (2 ≤ m)%nat → sample_std (replicate m (Fin 0)) = Fin 0.
Proof.
  intros Hm. unfold sample_std. rewrite length_replicate.
  destruct (decide _); [lia |].
  rewrite arithmetic_mean_zeros by lia. rewrite fmap_replicate.
  replace (fsq (fsub (Fin 0) (Fin 0))) with (Fin 0) by (simpl; f_equal; lra).
  rewrite fsum_zeros, fdiv_0_of_nat by lia. apply fsqrt_0.
Qed.

(** The daily returns of a constant non-zero price are all 0 ... *)
Lemma returns_constant c m :
  c ≠ 0 → returns_from c (replicate m c) = replicate m (Fin 0).
Proof.
  intros Hc. induction m as [| m IH]; [done |].
  cbn [replicate returns_from]. rewrite IH. f_equal.
  cbn [fsub fneg fadd]. rewrite fdiv_Fin by done. f_equal. unfold Rdiv. lra.
Qed.

(** ... and those of a constant price 0 are all NaN (0/0). *)
Lemma returns_constant_zero m :
  returns_from 0 (replicate m 0) = replicate m NaN.
Proof.
  induction m as [| m IH]; [done |].
  cbn [replicate returns_from]. rewrite IH. f_equal.
  cbn [fsub fneg fadd]. replace (0 + - 0) with 0 by lra. apply fdiv_0_0.
Qed.

Lemma lookup_pieces {A} a b (x y : A) i :
  (i < a + b)%nat →
  (replicate a x ++ replicate b y) !! i = Some (if decide (i < a)%nat then x else y).
Proof.
  intros Hi. destruct (decide (i < a)%nat).
  - rewrite lookup_app_l by (by rewrite length_replicate). by apply lookup_replicate_2.
  - rewrite lookup_app_r by (rewrite length_replicate; lia).
    rewrite length_replicate. apply lookup_replicate_2. lia.
Qed.

(** A rolling aggregate over a constant column. *)
Lemma rolling_constant w agg n c :
  (1 ≤ w ≤ n)%nat →
  rolling w agg (Fin <$> replicate n c)
  = replicate (w - 1) NaN ++ replicate (n - (w - 1)) (agg (replicate w c)).
Proof.
  intros Hw. apply list_eq. intros i.
  destruct (decide (i < n)%nat) as [Hi | Hi].
  - rewrite lookup_rolling_Fin by (by rewrite length_replicate).
    rewrite lookup_pieces by lia. f_equal.
    rewrite take_replicate, drop_replicate.
    destruct (decide (i + 1 < w)%nat); destruct (decide (i < w - 1)%nat); try lia; [done |].
    do 2 f_equal. lia.
  - rewrite !lookup_ge_None_2; [done | |].
    + rewrite length_app, !length_replicate. lia.
    + rewrite length_rolling, length_fmap, length_replicate. lia.
Qed.

Lemma shift_constant k n v :
  (k ≤ n)%nat → shift k (replicate n v) = replicate k NaN ++ replicate (n - k) v.
Proof.
  intros Hk. unfold shift. rewrite length_replicate.
  rewrite take_app, length_replicate, !take_replicate.
  f_equal; f_equal; lia.
Qed.

Lemma sma20_constant n c :
  (20 ≤ n)%nat →
  rolling_mean 20 (Fin <$> replicate n c) = replicate 19 NaN ++ replicate (n - 19) (Fin c).
Proof.
  intros Hn. unfold rolling_mean. rewrite rolling_constant by lia.
  rewrite rmean_replicate by lia. done.
Qed.

Lemma std20_constant n c :
  (20 ≤ n)%nat →
  rolling_std 20 (Fin <$> replicate n c) = replicate 19 NaN ++ replicate (n - 19) (Fin 0).
Proof.
  intros Hn. unfold rolling_std. rewrite rolling_constant by lia.
  rewrite length_replicate. destruct (decide _); [lia |].
  rewrite ssd_replicate. unfold Rdiv. rewrite Rmult_0_l, sqrt_0. done.
Qed.

Lemma upper_band_constant n c :
  (20 ≤ n)%nat →
  upper_band_of (rolling_mean 20 (Fin <$> replicate n c)) (Fin <$> replicate n c)
  = replicate 19 NaN ++ replicate (n - 19) (Fin c).
Proof.
  intros Hn. unfold upper_band_of, add, scale.
  rewrite sma20_constant, std20_constant by done.
  rewrite fmap_pieces, zip_with_pieces. do 3 f_equal. simpl. f_equal. lra.
Qed.

Lemma lower_band_constant n c :
  (20 ≤ n)%nat →
  lower_band_of (rolling_mean 20 (Fin <$> replicate n c)) (Fin <$> replicate n c)
  = replicate 19 NaN ++ replicate (n - 19) (Fin c).
Proof.
  intros Hn. unfold lower_band_of, sub, scale.
  rewrite sma20_constant, std20_constant by done.
  rewrite fmap_pieces, zip_with_pieces. do 3 f_equal. simpl. f_equal. lra.
Qed.

Lemma bb_gap_constant n c :
  (20 ≤ n)%nat →
  bb_gap_of (Fin <$> replicate n c) = replicate 19 NaN ++ replicate (n - 19) (Fin 0).
Proof.
  intros Hn. unfold bb_gap_of.
  rewrite upper_band_constant, lower_band_constant by done.
  unfold sub. rewrite zip_with_pieces. do 3 f_equal. simpl. f_equal. lra.
Qed.

Lemma roc_constant n c :
  (12 ≤ n)%nat → c ≠ 0 →
  roc_of 12 (Fin <$> replicate n c) = replicate 12 NaN ++ replicate (n - 12) (Fin 0).
Proof.
  intros Hn Hc. unfold roc_of, scale, div, sub.
  rewrite fmap_replicate, shift_constant by done.
  replace (replicate n (Fin c)) with (replicate 12 (Fin c) ++ replicate (n - 12) (Fin c)).
  2:{ rewrite <- replicate_add. f_equal. lia. }
  rewrite !zip_with_pieces, fmap_pieces. do 3 f_equal.
  cbn [fsub fneg fadd]. rewrite fdiv_Fin by done. simpl. f_equal. unfold Rdiv. lra.
Qed.

End ConstantPrice.

Section ConstantPriceClaim.
Import Float FloatFacts Py Pandas PandasFacts Analyzer AnalyzerFacts Spec SharpeFacts Described Samples.
Local Open Scope R_scope.

(** C4, as the code has it.  For a constant price series of at least 20 bars
    whose price is not 0, analyze_stock returns: Daily Return undefined at
    the first bar and 0 after it, volatility 0, an undefined (NaN) Sharpe
    ratio, upper and lower Bollinger band equal to the price from bar 19 on
    and undefined before, BB_Gap 0 on those bars and average gap 0, and a ROC
    of 0 from bar 12 on and undefined before. *)
Theorem constant_price_indicators
    (stock : string) (bars : list PriceBar) (news : list NewsItem) (c : R) :
  (20 ≤ length bars)%nat →
  Close <$> bars = replicate (length bars) c →
  c ≠ 0 →
  ∃ res df',
    analyze_stock (stock, mkStockData (frame_of_bars bars) news) = (Ok (stock, res), df') ∧
    let n := length bars in
    columns (result_price_data res) !! "Daily Return"
      = Some (NaN :: replicate (n - 1) (Fin 0)) ∧
    volatility res = Fin 0 ∧
    sharpe_ratio res = NaN ∧
    columns (result_price_data res) !! "UpperBand"
      = Some (replicate 19 NaN ++ replicate (n - 19) (Fin c)) ∧
    columns (result_price_data res) !! "LowerBand"
      = Some (replicate 19 NaN ++ replicate (n - 19) (Fin c)) ∧
    columns df' !! "BB_Gap"
      = Some (replicate 19 NaN ++ replicate (n - 19) (Fin 0)) ∧
    avg_bb_gap res = Fin 0 ∧
    columns (result_price_data res) !! "ROC"
      = Some (replicate 12 NaN ++ replicate (n - 12) (Fin 0)).
Proof.
  intros Hn Hconst Hc.
  eexists _, _. split.
  { apply analyze_bars_ok. intros ->. simpl in Hn. lia. }
  rewrite Hconst. set (n := length bars) in *. cbn zeta.
  assert (pct_change (Fin <$> replicate n c) = NaN :: replicate (n - 1) (Fin 0)) as Hdr.
  { destruct n as [| m]; [lia |]. cbn [replicate].
    rewrite pct_change_closes, returns_constant by done.
    do 2 f_equal. lia. }
  cbn [result_price_data volatility sharpe_ratio avg_bb_gap result_of
       charted_frame columns].
  rewrite std_is_sample_std, !mean_is_arithmetic_mean, !Hdr, dropna_NaN_cons.
  rewrite <- (fmap_replicate Fin (n - 1) 0), dropna_Fin, !(fmap_replicate Fin (n - 1) 0).
  rewrite sample_std_zeros, arithmetic_mean_zeros by lia.
  rewrite upper_band_constant, lower_band_constant, roc_constant,
    bb_gap_constant by (done || lia).
  rewrite dropna_pieces, arithmetic_mean_zeros by lia.
  unfold analyzed_columns.
  split_and!; try done;
    repeat (rewrite lookup_insert_ne by done); rewrite ?lookup_insert_eq; try done.
  - unfold sharpe_of. by rewrite fdiv_0_0.
  - by rewrite bb_gap_constant.
Qed.

Lemma constant_price_indicators_witness :
  ∃ res df',
    analyze_stock ("AAPL", mkStockData (frame_of_bars (flat_bars 20 50)) [])
      = (Ok ("AAPL", res), df') ∧
    let n := length (flat_bars 20 50) in
    columns (result_price_data res) !! "Daily Return"
      = Some (NaN :: replicate (n - 1) (Fin 0)) ∧
    volatility res = Fin 0 ∧
    sharpe_ratio res = NaN ∧
    columns (result_price_data res) !! "UpperBand"
      = Some (replicate 19 NaN ++ replicate (n - 19) (Fin 50)) ∧
    columns (result_price_data res) !! "LowerBand"
      = Some (replicate 19 NaN ++ replicate (n - 19) (Fin 50)) ∧
    columns df' !! "BB_Gap"
      = Some (replicate 19 NaN ++ replicate (n - 19) (Fin 0)) ∧
    avg_bb_gap res = Fin 0 ∧
    columns (result_price_data res) !! "ROC"
      = Some (replicate 12 NaN ++ replicate (n - 12) (Fin 0)).
Proof.
  apply (constant_price_indicators "AAPL" (flat_bars 20 50) [] 50).
  - simpl. lia.
  - reflexivity.
  - lra.
Defined.

(** C4 as stated fails for the constant price 0: every return is 0/0, so
    Daily Return is NaN at bar 1 (not 0) and the volatility is NaN (not 0). *)
Lemma constant_zero_price_counterexample :
  ∃ res df' dr,
    analyze_stock ("AAPL", mkStockData (frame_of_bars (flat_bars 20 0)) [])
      = (Ok ("AAPL", res), df') ∧
    columns (result_price_data res) !! "Daily Return" = Some dr ∧
    dr !! 1%nat = Some NaN ∧ dr !! 1%nat ≠ Some (Fin 0) ∧
    volatility res = NaN ∧ volatility res ≠ Fin 0.
Proof.
  eexists _, _, _. split.
  { apply analyze_bars_ok. done. }
  assert (pct_change (Fin <$> (Close <$> flat_bars 20 0)) = replicate 20 NaN) as Hdr.
  { unfold flat_bars. rewrite fmap_replicate. cbn [Close].
    change (replicate 20 0) with (0 :: replicate 19 0).
    by rewrite pct_change_closes, returns_constant_zero. }
  cbn [result_price_data volatility result_of charted_frame columns].
  rewrite Hdr. split_and!.
  - rewrite lookup_insert_ne by done. by rewrite lookup_insert_eq.
  - done.
  - done.
  - rewrite std_is_sample_std, dropna_replicate_NaN. done.
  - rewrite std_is_sample_std, dropna_replicate_NaN. done.
Qed.

End ConstantPriceClaim.

(** ** True range and ATR *)

Section Atr.
Import Float FloatFacts Py Pandas PandasFacts Analyzer AnalyzerFacts SharpeFacts RsiSpec AtrSpec Described.
Local Open Scope R_scope.

Lemma length_true_ranges_from p bars : length (true_ranges_from p bars) = length bars.
Proof. revert p. induction bars; intros p; simpl; [done |]. by rewrite IHbars. Qed.

Lemma length_true_ranges bars : length (true_ranges bars) = length bars.
Proof. destruct bars; simpl; [done |]. by rewrite length_true_ranges_from. Qed.

Lemma true_range_from p (rest : list PriceBar) :
  max_axis1
    (zip_with fsub (Fin <$> (High <$> rest)) (Fin <$> (Low <$> rest)))
    (fabs <$> zip_with fsub (Fin <$> (High <$> rest)) (Fin p :: (Fin <$> (Close <$> rest))))
    (fabs <$> zip_with fsub (Fin <$> (Low <$> rest)) (Fin p :: (Fin <$> (Close <$> rest))))
  = Fin <$> true_ranges_from p rest.
Proof.
  revert p. induction rest as [| b rest IH]; intros p; [done |].
  unfold max_axis1 in *.
  cbn [fmap list_fmap zip_with zip true_ranges_from]. rewrite <- IH. done.
Qed.

(** The true-range column analyze_stock builds holds finite values only: at
    the first bar the two terms that need a previous close are NaN and the
    row maximum skips them. *)
Lemma true_range_of_bars (bars : list PriceBar) :
  true_range_of (Fin <$> (High <$> bars)) (Fin <$> (Low <$> bars)) (Fin <$> (Close <$> bars))
  = Fin <$> true_ranges bars.
Proof.
  destruct bars as [| b0 rest]; [done |].
  unfold true_range_of, sub, abs.
  rewrite !zip_with_shift1 by (by rewrite !length_fmap).
  pose proof (true_range_from (Close b0) rest) as IH.
  unfold max_axis1 in *.
  cbn [fmap list_fmap zip_with zip true_ranges]. rewrite <- IH. done.
Qed.

(** C10.  The true range at the first bar is high[0] - low[0]; the ATR column
    (14-period rolling mean of the true range) is undefined on bars 0 .. 12
    and defined from bar 13 on; with at least 14 bars the [atr] analyze_stock
    returns is the mean of the last 14 true ranges. *)
Theorem true_range_first_bar
    (stock : string) (b0 : PriceBar) (rest : list PriceBar) (news : list NewsItem) :
  let bars := b0 :: rest in
  let tr := true_range_of (Fin <$> (High <$> bars)) (Fin <$> (Low <$> bars))
                          (Fin <$> (Close <$> bars)) in
  ∃ res df',
    analyze_stock (stock, mkStockData (frame_of_bars bars) news) = (Ok (stock, res), df') ∧
    tr !! 0%nat = Some (Fin (High b0 - Low b0)) ∧
    (∀ i, (i < 13)%nat → (i < length bars)%nat → rolling_mean 14 tr !! i = Some NaN) ∧
    (∀ i, (13 ≤ i < length bars)%nat →
       rolling_mean 14 tr !! i
         = Some (Fin (rmean (drop (i + 1 - 14) (take (i + 1) (true_ranges bars)))))) ∧
    last (rolling_mean 14 tr) = Some (atr res) ∧
    ((14 ≤ length bars)%nat →
       atr res = Fin (rmean (drop (length bars - 14) (true_ranges bars)))).
Proof.
  intros bars tr. eexists _, _. split; [by apply analyze_bars_ok |].
  assert (tr = Fin <$> true_ranges bars) as Htr by apply true_range_of_bars.
  cbn [atr result_of]. unfold atr_series. fold tr. rewrite Htr.
  assert (∀ i, (i < length bars)%nat →
            rolling_mean 14 (Fin <$> true_ranges bars) !! i
              = Some (sma 14 (true_ranges bars) i)) as Hlook.
  { intros i Hi. apply lookup_rolling_mean_Fin. by rewrite length_true_ranges. }
  assert (rolling_mean 14 (Fin <$> true_ranges bars) ≠ []) as Hne.
  { apply nonempty_length. unfold rolling_mean.
    rewrite length_rolling, length_fmap, length_true_ranges. simpl. lia. }
  split_and!.
  - done.
  - intros i Hi Hn. rewrite Hlook by done. unfold sma. by destruct (decide _); [| lia].
  - intros i Hi. rewrite Hlook by lia. unfold sma. by destruct (decide _); [lia |].
  - by apply last_lastv.
  - intros Hn. apply (inj Some). rewrite <- last_lastv by done.
    rewrite last_lookup. unfold rolling_mean at 1.
    rewrite length_rolling, length_fmap, length_true_ranges.
    rewrite Hlook by lia. unfold sma. destruct (decide _); [lia |].
    subst bars. cbn [length Nat.pred] in *.
    replace (length rest + 1)%nat with (S (length rest)) by lia.
    rewrite take_ge by (rewrite length_true_ranges; simpl; lia).
    done.
Qed.

End Atr.

(** ** What analyze_stock does to the frame it is given *)

Section FrameEffect.
Import Float FloatFacts Py Pandas PandasFacts Analyzer AnalyzerFacts SharpeFacts Described Samples.
Local Open Scope R_scope.

Ltac lookups :=
  repeat (rewrite lookup_insert_ne by done); rewrite ?lookup_insert_eq;
  repeat (rewrite lookup_insert_ne by done); rewrite ?lookup_insert_eq;
  rewrite ?lookup_empty.

(** C5, as the code has it.  analyze_stock assigns its seven derived columns
    to the very frame it is given: after the call that frame holds them
    (it did not before), while its row count and every other column (Open,
    High, Low, Close, Volume) are untouched; the [price_data] entry of the
    returned dict is a new frame made of the six charted columns of the
    frame so mutated. *)
Theorem analyze_stock_assigns_derived_columns
    (stock : string) (bars : list PriceBar) (news : list NewsItem) :
  bars ≠ [] →
  ∃ res df',
    analyze_stock (stock, mkStockData (frame_of_bars bars) news) = (Ok (stock, res), df') ∧
    nrows df' = nrows (frame_of_bars bars) ∧
    (∀ name, name ∈ derived_columns →
       columns (frame_of_bars bars) !! name = None ∧ is_Some (columns df' !! name)) ∧
    (∀ name, name ∉ derived_columns →
       columns df' !! name = columns (frame_of_bars bars) !! name) ∧
    (∀ name, name ∈ charted_columns →
       columns (result_price_data res) !! name = columns df' !! name) ∧
    dom (columns (result_price_data res)) = list_to_set charted_columns.
Proof.
  intros Hne. eexists _, _. split; [by apply analyze_bars_ok |].
  cbn [nrows columns result_price_data result_of charted_frame].
  unfold analyzed_columns, derived_columns, charted_columns, frame_of_bars.
  cbn [nrows columns]. split_and!.
  - done.
  - intros name. rewrite !elem_of_cons, elem_of_nil.
    intros [-> | [-> | [-> | [-> | [-> | [-> | [-> | []]]]]]]]; lookups; eauto.
  - intros name. rewrite !not_elem_of_cons.
    intros (? & ? & ? & ? & ? & ? & ? & _). by lookups.
  - intros name. rewrite !elem_of_cons, elem_of_nil.
    intros [-> | [-> | [-> | [-> | [-> | [-> | []]]]]]]; lookups;
      by rewrite ?list_fmap_compose.
  - rewrite !dom_insert_L, dom_empty_L. simpl. set_solver.
Qed.

Lemma analyze_stock_assigns_derived_columns_witness :
  ∃ res df',
    analyze_stock ("AAPL", mkStockData (frame_of_bars two_bars) []) = (Ok ("AAPL", res), df') ∧
    nrows df' = nrows (frame_of_bars two_bars) ∧
    (∀ name, name ∈ derived_columns →
       columns (frame_of_bars two_bars) !! name = None ∧ is_Some (columns df' !! name)) ∧
    (∀ name, name ∉ derived_columns →
       columns df' !! name = columns (frame_of_bars two_bars) !! name) ∧
    (∀ name, name ∈ charted_columns →
       columns (result_price_data res) !! name = columns df' !! name) ∧
    dom (columns (result_price_data res)) = list_to_set charted_columns.
Proof. apply (analyze_stock_assigns_derived_columns "AAPL" two_bars []). discriminate. Defined.

(** C5 as stated fails: the frame passed in is not left as it was.  On a
    two-bar frame the call returns, and the frame now has a "Daily Return"
    column it did not have. *)
Lemma analyze_stock_mutates_input :
  ∃ res df',
    analyze_stock ("AAPL", mkStockData (frame_of_bars two_bars) []) = (Ok ("AAPL", res), df') ∧
    columns (frame_of_bars two_bars) !! "Daily Return" = None ∧
    is_Some (columns df' !! "Daily Return") ∧
    df' ≠ frame_of_bars two_bars.
Proof.
  eexists _, _. split; [by apply analyze_bars_ok |].
  assert (columns (frame_of_bars two_bars) !! "Daily Return" = None) as Hnone.
  { unfold frame_of_bars. cbn [columns]. by lookups. }
  split; [exact Hnone |]. split.
  - unfold analyzed_columns. cbn [columns]. lookups. eauto.
  - intros E. apply (f_equal (λ d, columns d !! "Daily Return")) in E.
    rewrite Hnone in E. revert E.
    unfold analyzed_columns. cbn [columns]. lookups. done.
Qed.

End FrameEffect.
(** ** Configuration *)

Section ConfigClaim.
Import Py Config Gatherer Report Main Samples.

Lemma first_missing_None keys (config : gmap string yaml) :
  first_missing keys config = None ↔ ∀ key, key ∈ keys → is_Some (config !! key).
Proof.
  induction keys as [| k keys IH]; simpl.
  - split; [| done]. intros _ key Hin. by apply elem_of_nil in Hin.
  - destruct (config !! k) eqn:E.
    + rewrite IH. split.
      * intros H key. rewrite elem_of_cons. intros [-> | Hin]; [by rewrite E | by apply H].
      * intros H key Hin. apply H. rewrite elem_of_cons. by right.
    + split; [done |]. intros H. specialize (H k). rewrite E in H.
      destruct H as [? H]; [by left | done].
Qed.

(** What validate_config accepts: all four keys present, a non-empty list of
    stocks, and a report format that is "pdf" or "txt". *)
Lemma validate_config_accepts (config : gmap string yaml) :
  validate_config config = Ok tt ↔
    (∀ key, key ∈ required_keys → is_Some (config !! key)) ∧
    (∃ item items, config !! "stocks" = Some (YList (item :: items))) ∧
    (config !! "report_format" = Some (YStr "pdf")
     ∨ config !! "report_format" = Some (YStr "txt")).
Proof.
  unfold validate_config. rewrite <- first_missing_None.
  destruct (first_missing required_keys config) eqn:Em.
  { split; [done |]. by intros [? _]. }
  assert (is_nonempty_list (config !! "stocks") = true
          ↔ ∃ item items, config !! "stocks" = Some (YList (item :: items))) as Hs.
  { destruct (config !! "stocks") as [[| | | | | [| item items] |] |]; simpl;
      split; try done; try (by intros (? & ? & ?)); eauto. }
  assert (is_report_format (config !! "report_format") = true
          ↔ (config !! "report_format" = Some (YStr "pdf")
             ∨ config !! "report_format" = Some (YStr "txt"))) as Hf.
  { destruct (config !! "report_format") as [[| | | s | | |] |]; simpl;
      split; try done; try (by intros [? | ?]).
    - rewrite orb_true_iff, !String.eqb_eq. intros [-> | ->]; auto.
    - rewrite orb_true_iff, !String.eqb_eq. intros [[= ->] | [= ->]]; auto. }
  destruct (is_nonempty_list (config !! "stocks")); simpl.
  - destruct (is_report_format (config !! "report_format")); simpl.
    + split; [| done]. intros _. split_and!; [done | by apply Hs | by apply Hf].
    + split; [done |]. intros (_ & _ & H). apply Hf in H. done.
  - split; [done |]. intros (_ & H & _). apply Hs in H. done.
Qed.






End ConfigClaim.

(** ** Evidence gathering *)

Section GathererClaim.
Import Py Pandas Analyzer Gatherer.

Variable p : Provider.
Variable now : Z.
Variables start_date end_date : string.

Local Abbreviation yields := (Described.yields p now start_date end_date).

Let step := gather_step p now start_date end_date.

Lemma gather_lookup stocks (locker : gmap string StockData) log s :
  (foldl step (locker, log) stocks).1 !! s =
    match fetch p now start_date end_date s with
    | Ok sd => if decide (s ∈ stocks) then Some sd else locker !! s
    | Raise _ => locker !! s
    end.
Proof.
  revert locker log. induction stocks as [| t stocks IH]; intros locker log.
  - cbn [foldl fst]. destruct (fetch _ _ _ _ s); [| done].
    rewrite decide_False; [done | apply not_elem_of_nil].
  - cbn [foldl]. unfold step at 2, gather_step.
    destruct (fetch p now start_date end_date t) as [sd | e] eqn:Et; rewrite IH.
    + destruct (fetch p now start_date end_date s) as [sd' | e'] eqn:Es.
      * destruct (decide (s ∈ stocks)) as [Hin | Hnin].
        { rewrite decide_True; [done | by right]. }
        destruct (decide (t = s)) as [-> | Hne].
        { rewrite lookup_insert_eq, decide_True by left. congruence. }
        rewrite lookup_insert_ne by done.
        rewrite decide_False; [done |]. rewrite elem_of_cons. by intros [? | ?].
      * destruct (decide (t = s)) as [-> | Hne]; [congruence |].
        by rewrite lookup_insert_ne.
    + destruct (fetch p now start_date end_date s) as [sd' | e'] eqn:Es; [| done].
      destruct (decide (s ∈ stocks)) as [Hin | Hnin].
      { rewrite decide_True; [done | by right]. }
      rewrite decide_False; [done |]. rewrite elem_of_cons.
      intros [-> | ?]; [congruence | done].
Qed.

Lemma gather_log_mono stocks (locker : gmap string StockData) log r :
  r ∈ log → r ∈ (foldl step (locker, log) stocks).2.
Proof.
  revert locker log. induction stocks as [| t stocks IH]; intros locker log Hr; [done |].
  cbn [foldl]. unfold step at 2, gather_step.
  destruct (fetch p now start_date end_date t); apply IH;
    rewrite !elem_of_app; auto.
Qed.

Lemma gather_log_errors stocks (locker : gmap string StockData) log s e :
  s ∈ stocks → fetch p now start_date end_date s = Raise e →
  Failed s e ∈ (foldl step (locker, log) stocks).2.
Proof.
  revert locker log. induction stocks as [| t stocks IH]; intros locker log Hin Hs.
  { by apply elem_of_nil in Hin. }
  cbn [foldl]. apply elem_of_cons in Hin as [<- | Hin].
  - unfold step at 2, gather_step. rewrite Hs. apply gather_log_mono.
    rewrite elem_of_app. right. by left.
  - destruct (step (locker, log) t) as [locker' log']. by apply IH.
Qed.

Lemma gather_dom stocks :
  dom (foldl step (∅, []) stocks).1 = list_to_set (filter yields stocks).
Proof.
  apply set_eq. intros s.
  rewrite elem_of_dom, gather_lookup, elem_of_list_to_set, list_elem_of_filter.
  unfold yields. destruct (fetch p now start_date end_date s) as [sd | e].
  - destruct (decide (s ∈ stocks)).
    + split; [done | eauto].
    + rewrite lookup_empty. split; [by intros [? ?] | by intros [_ ?]].
  - rewrite lookup_empty. split; [by intros [? ?] | by intros [? _]].
Qed.

(** C7.  collect_evidence logs every ticker whose fetch raises (a provider or
    network error, or the ValueError raised for empty data) and goes on with
    the next; it returns the mapping of exactly the tickers that yield data,
    each with its data; and it raises if and only if no ticker yields data.
    With three distinct tickers of which the second fails the mapping holds
    exactly the other two. *)
Theorem collect_evidence_isolates_failures (stocks : list string) :
  let run := collect_evidence p now stocks start_date end_date in
  let good := filter yields stocks in
  (∀ s data, history p s start_date end_date = Ok data → empty data = true →
     fetch p now start_date end_date s = Raise (ValueError ("No data available for " +:+ s))) ∧
  (∀ s e, s ∈ stocks → fetch p now start_date end_date s = Raise e → Failed s e ∈ run.2) ∧
  ((∃ e, run.1 = Raise e) ↔ good = []) ∧
  (good ≠ [] →
     ∃ evidence, run.1 = Ok evidence ∧
       dom evidence = list_to_set good ∧
       (∀ s, s ∈ good →
          ∃ sd, fetch p now start_date end_date s = Ok sd ∧ evidence !! s = Some sd)) ∧
  (∀ a b c sa sc e, stocks = [a; b; c] → a ≠ b → b ≠ c → a ≠ c →
     fetch p now start_date end_date a = Ok sa →
     fetch p now start_date end_date b = Raise e →
     fetch p now start_date end_date c = Ok sc →
     ∃ evidence, run.1 = Ok evidence ∧ dom evidence = {[a; c]} ∧
       evidence !! a = Some sa ∧ evidence !! c = Some sc ∧ evidence !! b = None).
Proof.
  intros run good.
  assert (∀ s data, history p s start_date end_date = Ok data → empty data = true →
     fetch p now start_date end_date s = Raise (ValueError ("No data available for " +:+ s)))
    as Hempty.
  { intros s data Hh He. unfold fetch. by rewrite Hh, He. }
  unfold collect_evidence in run.
  destruct (foldl (gather_step p now start_date end_date) (∅, []) stocks)
    as [locker log] eqn:Efold.
  pose proof (gather_dom stocks) as Hdom. fold good in Hdom.
  unfold step in Hdom. rewrite Efold in Hdom. cbn [fst] in Hdom.
  assert (∀ s, locker !! s =
            match fetch p now start_date end_date s with
            | Ok sd => if decide (s ∈ stocks) then Some sd else None
            | Raise _ => None
            end) as Hlook.
  { intros s. pose proof (gather_lookup stocks ∅ [] s) as H.
    unfold step in H. rewrite Efold in H. cbn [fst] in H. rewrite H.
    destruct (fetch _ _ _ _ s); [| done]. by destruct (decide _). }
  assert (∀ s e, s ∈ stocks → fetch p now start_date end_date s = Raise e → Failed s e ∈ log)
    as Hlog.
  { intros s e Hin Hs. pose proof (gather_log_errors stocks ∅ [] s e Hin Hs) as H.
    unfold step in H. by rewrite Efold in H. }
  assert (dom locker = ∅ ↔ good = []) as Hgood.
  { rewrite Hdom. split.
    - intros H. destruct good as [| g good']; [done |].
      assert (g ∈ (list_to_set (g :: good') : gset string)) as Hg
        by (apply elem_of_list_to_set; left).
      rewrite H in Hg. by apply elem_of_empty in Hg.
    - by intros ->. }
  assert (∀ s, s ∈ good →
            ∃ sd, fetch p now start_date end_date s = Ok sd ∧ locker !! s = Some sd) as Hgoodlook.
  { intros s Hs. apply list_elem_of_filter in Hs as [Hy Hin]. unfold yields in Hy.
    rewrite Hlook. destruct (fetch p now start_date end_date s) as [sd |]; [| done].
    exists sd. by rewrite decide_True. }
  subst run. split_and!.
  - exact Hempty.
  - destruct (bool_decide _); exact Hlog.
  - destruct (bool_decide (dom locker = ∅)) eqn:Eb; cbn [fst].
    + apply bool_decide_eq_true in Eb. split; [by intros _; apply Hgood | eauto].
    + apply bool_decide_eq_false in Eb. split; [by intros [? ?] |].
      intros Hg. by apply Hgood in Hg.
  - intros Hne. rewrite bool_decide_eq_false_2 by (by rewrite Hgood).
    cbn [fst]. eauto.
  - intros a b c sa sc e -> Hab Hbc Hac Ha Hb Hc.
    assert (good = [a; c]) as Eg.
    { subst good. unfold yields.
      rewrite !filter_cons, filter_nil. rewrite Ha, Hb, Hc.
      rewrite !decide_True by done. by rewrite decide_False by (by intros []). }
    rewrite bool_decide_eq_false_2 by (rewrite Hgood, Eg; done).
    cbn [fst]. exists locker. split_and!.
    + done.
    + rewrite Hdom, Eg. simpl. by rewrite (right_id_L ∅ (∪)).
    + rewrite Hlook, Ha. rewrite decide_True; [done | repeat constructor].
    + rewrite Hlook, Hc. rewrite decide_True; [done | repeat constructor].
    + by rewrite Hlook, Hb.
Qed.

End GathererClaim.

(** ** Analysis of all tickers *)

Section CluesClaim.
Import Float FloatFacts Py Pandas PandasFacts Analyzer AnalyzerFacts SharpeFacts Described.

Lemma frame_of_bars_analysable bars : bars ≠ [] → analysable (frame_of_bars bars).
Proof.
  intros Hne. eexists _, _, _.
  split; [apply frame_of_bars_close |].
  split; [apply frame_of_bars_high |].
  split; [apply frame_of_bars_low |].
  split; [by destruct bars |]. by rewrite !length_fmap.
Qed.

Lemma analyze_stock_analysable stock sd :
  analysable (price_data sd) → ∃ r, (analyze_stock (stock, sd)).1 = Ok (stock, r).
Proof.
  intros (c & h & l & Hc & Hh & Hl & Hne & Hlh & Hll).
  unfold analyze_stock. rewrite (analyze_frame_ok _ c h l) by done. eauto.
Qed.

Lemma analyze_stock_key item y : (analyze_stock item).1 = Ok y → y.1 = item.1.
Proof.
  destruct item as [stock sd]. unfold analyze_stock.
  destruct (analyze_frame (price_data sd)) as [[r | e] df]; simpl; [| done].
  by intros [= <-].
Qed.

Lemma pool_map_Ok {A B} (f : A → outcome B) items ys :
  pool_map f items = Ok ys ↔ Forall2 (λ x y, f x = Ok y) items ys.
Proof.
  revert ys. induction items as [| x items IH]; intros ys; simpl.
  - split; [intros [= <-]; constructor | by inversion 1].
  - destruct (f x) as [y |] eqn:Ex.
    + destruct (pool_map f items) as [ys' |] eqn:Ep.
      * split.
        -- intros [= <-]. constructor; [done | by apply IH].
        -- inversion 1 as [| ? y' ? ys'' Hy Hys]; subst.
           apply IH in Hys. congruence.
      * split; [done |]. inversion 1 as [| ? y' ? ys'' Hy Hys]; subst.
        apply IH in Hys. done.
    + split; [done |]. inversion 1; congruence.
Qed.

Lemma pool_map_total {A B} (f : A → outcome B) items :
  (∀ x, x ∈ items → ∃ y, f x = Ok y) → ∃ ys, pool_map f items = Ok ys.
Proof.
  induction items as [| x items IH]; intros H; simpl; [eauto |].
  destruct (H x) as [y ->]; [by left |].
  destruct IH as [ys ->]; [| eauto]. intros x' Hx'. apply H. by right.
Qed.

Lemma foldl_insert_union (results : list (string * IndicatorResult))
    (acc : gmap string IndicatorResult) :
  foldl (λ analyzed_data sr, <[sr.1 := sr.2]> analyzed_data) acc results
  = list_to_map (reverse results) ∪ acc.
Proof.
  revert acc. induction results as [| [k v] results IH]; intros acc.
  - simpl. by rewrite (left_id_L ∅ (∪)).
  - cbn [foldl]. rewrite IH, reverse_cons, list_to_map_app.
    cbn [list_to_map foldr fst snd uncurry].
    rewrite <- (assoc_L (∪)). f_equal.
    rewrite insert_union_singleton_l. done.
Qed.

(** The merge loop builds the mapping of its list, whatever the order. *)
Lemma merge_results_list_to_map results :
  NoDup results.*1 → merge_results results = list_to_map results.
Proof.
  intros Hnd. unfold merge_results. rewrite foldl_insert_union, (right_id_L ∅ (∪)).
  apply list_to_map_proper; [| apply reverse_Permutation].
  by rewrite reverse_Permutation.
Qed.


(** On analysable frames the pool returns one result per ticker, under that
    ticker, and analyze_clues returns their mapping. *)
Lemma analyze_clues_results (evidence : gmap string StockData) :
  (∀ stock sd, evidence !! stock = Some sd → analysable (price_data sd)) →
  ∃ results,
    pool_map (λ item, (analyze_stock item).1) (map_to_list evidence) = Ok results ∧
    Forall2 (λ item y, (analyze_stock item).1 = Ok y) (map_to_list evidence) results ∧
    results.*1 = (map_to_list evidence).*1 ∧
    NoDup results.*1 ∧
    analyze_clues evidence = Ok (list_to_map results).
Proof.
  intros Hok.
  destruct (pool_map_total (λ item, (analyze_stock item).1) (map_to_list evidence))
    as [results Hres].
  { intros [stock sd] Hin. apply elem_of_map_to_list in Hin.
    destruct (analyze_stock_analysable stock sd (Hok _ _ Hin)) as [r Hr]. eauto. }
  exists results.
  pose proof Hres as Hall. apply pool_map_Ok in Hall.
  assert (results.*1 = (map_to_list evidence).*1) as Hkeys.
  { clear Hres. induction Hall as [| x y xs ys Hxy _ IH]; [done |].
    rewrite !fmap_cons, IH. f_equal. by apply analyze_stock_key. }
  assert (NoDup results.*1) as Hnd.
  { rewrite Hkeys. apply NoDup_fst_map_to_list. }
  split_and!; try done.
  unfold analyze_clues. rewrite Hres. f_equal. by apply merge_results_list_to_map.
Qed.

Lemma analyze_clues_by_ticker_total (evidence : gmap string StockData) :
  (∀ stock sd, evidence !! stock = Some sd → analysable (price_data sd)) →
  ∃ analyzed, analyze_clues evidence = Ok analyzed ∧ dom analyzed = dom evidence.
Proof.
  intros Hok.
  destruct (analyze_clues_results evidence Hok) as (results & _ & _ & Hkeys & _ & Hrun).
  eexists. split; [exact Hrun |].
  rewrite dom_list_to_map_L, Hkeys. apply set_eq. intros k.
  by rewrite (dom_alt evidence).
Qed.

End CluesClaim.

Section CluesTheorem.
Import Float FloatFacts Py Pandas PandasFacts Analyzer AnalyzerFacts SharpeFacts Described Samples.



End CluesTheorem.

(** ** Report compilation *)

Section ReportClaim.
Import Float Py Pandas Analyzer AnalyzerFacts Report Samples.

Lemma elem_of_cleanup paths (fs : Files) f :
  f ∈ _cleanup_temp_files paths fs ↔ f ∈ fs ∧ f ∉ paths.
Proof.
  unfold _cleanup_temp_files. revert fs.
  induction paths as [| q paths IH]; intros fs; cbn [foldl].
  - split; [intros H; split; [done | apply not_elem_of_nil] | by intros [? _]].
  - rewrite IH, elem_of_difference, elem_of_singleton, not_elem_of_cons. tauto.
Qed.

Lemma render_pages_from faults items st0 :
  let st := foldl (render_page faults) st0 items in
  pdf_files st = pdf_files st0 ++ (stock_pdf <$> items.*1) ∧
  (∀ f, f ∈ chart_files st0 → f ∈ chart_files st) ∧
  (∀ item, item ∈ items → faults item.1 = NoFault →
     price_chart item.1 ∈ chart_files st ∧ macd_chart item.1 ∈ chart_files st).
Proof.
  revert st0. induction items as [| item items IH]; intros st0; cbn [foldl].
  - split_and!; [by rewrite app_nil_r | done |]. intros item Hin. by apply elem_of_nil in Hin.
  - destruct (IH (render_page faults st0 item)) as (Hpdf & Hmono & Hcharts).
    assert (∀ f, f ∈ chart_files st0 → f ∈ chart_files (render_page faults st0 item)) as Hstep.
    { intros f Hf. unfold render_page, _add_charts_to_pdf.
      destruct (faults item.1); cbn [chart_files]; rewrite ?elem_of_app; auto. }
    split_and!.
    + rewrite Hpdf. unfold render_page at 1.
      destruct (_add_charts_to_pdf _ _ _) as [fs temps]. cbn [pdf_files].
      by rewrite fmap_cons, <- app_assoc.
    + intros f Hf. by apply Hmono, Hstep.
    + intros item' Hin Hnf. apply elem_of_cons in Hin as [-> | Hin]; [| by apply Hcharts].
      split; apply Hmono; unfold render_page, _add_charts_to_pdf; rewrite Hnf;
        cbn [chart_files]; rewrite elem_of_app, !elem_of_cons; auto.
Qed.

(** What [_generate_pdf_report] returns and leaves behind: the merged file's
    name with an empty [temp_files] list, and none of the per-ticker PDFs and
    registered chart images, which it has removed itself. *)
Lemma generate_pdf_report_result faults (analyzed_clues : gmap string IndicatorResult) fs :
  let st := render_pages faults analyzed_clues fs in
  ∃ fs', _generate_pdf_report faults analyzed_clues fs = (Ok (mkOutput merged_pdf []), fs') ∧
    (∀ f, f ∈ pdf_files st ++ chart_files st → f ∉ fs').
Proof.
  intros st. unfold _generate_pdf_report, _merge_pdf_files. fold st.
  rewrite bool_decide_eq_true_2 by (apply elem_of_union_l; by apply elem_of_singleton).
  eexists. split; [done |]. intros f Hf. rewrite elem_of_cleanup. by intros [_ ?].
Qed.

(** C9, as the code has it.  For a supported format compile_case_file returns
    the primary output file's name together with a [temp_files] list that is
    always empty: the text report makes no temporary file, and the PDF report
    removes its per-ticker PDFs and registered chart images itself before it
    returns. *)
Theorem compile_case_file_returns_no_temp_files
    (faults : string → chart_fault) (analyzed_clues : gmap string IndicatorResult)
    (report_format : string) (fs : Files) :
  report_format = "pdf" ∨ report_format = "txt" →
  ∃ out fs',
    compile_case_file faults analyzed_clues report_format fs = (Ok out, fs') ∧
    temp_files out = [] ∧
    (report_format = "pdf" →
       let st := render_pages faults analyzed_clues fs in
       output_file out = "financial_case_file_complete.pdf" ∧
       pdf_files st = stock_pdf <$> (map_to_list analyzed_clues).*1 ∧
       (∀ stock, stock ∈ dom analyzed_clues → faults stock = NoFault →
          price_chart stock ∈ chart_files st ∧ macd_chart stock ∈ chart_files st) ∧
       (∀ f, f ∈ pdf_files st ++ chart_files st → f ∉ fs')) ∧
    (report_format = "txt" →
       output_file out = "financial_case_file.txt" ∧ fs' = {[txt_file]} ∪ fs).
Proof.
  intros [-> | ->]; unfold compile_case_file; cbn [String.eqb Ascii.eqb Bool.eqb].
  - destruct (generate_pdf_report_result faults analyzed_clues fs) as (fs' & Hrun & Hgone).
    exists (mkOutput merged_pdf []), fs'. split; [done |]. split; [done |].
    split; [| done]. intros _.
    destruct (render_pages_from faults (map_to_list analyzed_clues) (mkPdfState fs [] []))
      as (Hpdf & _ & Hcharts).
    split_and!; [done | exact Hpdf | | exact Hgone].
    intros stock Hin Hnf. apply elem_of_dom in Hin as [r Hr].
    apply elem_of_map_to_list in Hr. by apply (Hcharts (stock, r)).
  - exists (mkOutput txt_file []), ({[txt_file]} ∪ fs). by split_and!.
Qed.

Lemma compile_case_file_returns_no_temp_files_witness :
  ∃ out fs',
    compile_case_file (λ _, NoFault) one_ticker_clues "pdf" ∅ = (Ok out, fs') ∧
    temp_files out = [] ∧
    ("pdf" = "pdf" →
       let st := render_pages (λ _, NoFault) one_ticker_clues ∅ in
       output_file out = "financial_case_file_complete.pdf" ∧
       pdf_files st = stock_pdf <$> (map_to_list one_ticker_clues).*1 ∧
       (∀ stock, stock ∈ dom one_ticker_clues → NoFault = NoFault →
          price_chart stock ∈ chart_files st ∧ macd_chart stock ∈ chart_files st) ∧
       (∀ f, f ∈ pdf_files st ++ chart_files st → f ∉ fs')) ∧
    ("pdf" = "txt" →
       output_file out = "financial_case_file.txt" ∧ fs' = {[txt_file]} ∪ ∅).
Proof.
  apply (compile_case_file_returns_no_temp_files (λ _, NoFault) one_ticker_clues "pdf" ∅).
  left. reflexivity.
Defined.

(** C9 as stated fails on a PDF report of one ticker: three intermediate
    files are produced before the merge, and the returned list names none of
    them. *)
Lemma returned_temp_files_omit_intermediates :
  ∃ out fs',
    compile_case_file (λ _, NoFault) one_ticker_clues "pdf" ∅ = (Ok out, fs') ∧
    pdf_files (render_pages (λ _, NoFault) one_ticker_clues ∅)
      ++ chart_files (render_pages (λ _, NoFault) one_ticker_clues ∅)
      = ["financial_case_file_AAPL.pdf"; "AAPL_price_bb_rsi_chart.png"; "AAPL_macd_chart.png"] ∧
    temp_files out = [] ∧
    temp_files out ≠
      pdf_files (render_pages (λ _, NoFault) one_ticker_clues ∅)
        ++ chart_files (render_pages (λ _, NoFault) one_ticker_clues ∅).
Proof.
  destruct (generate_pdf_report_result (λ _, NoFault) one_ticker_clues ∅) as (fs' & Hrun & _).
  exists (mkOutput merged_pdf []), fs'.
  assert (pdf_files (render_pages (λ _, NoFault) one_ticker_clues ∅)
      ++ chart_files (render_pages (λ _, NoFault) one_ticker_clues ∅)
      = ["financial_case_file_AAPL.pdf"; "AAPL_price_bb_rsi_chart.png"; "AAPL_macd_chart.png"])
    as Hfiles.
  { unfold render_pages, one_ticker_clues. rewrite map_to_list_singleton. reflexivity. }
  split; [exact Hrun |]. split; [exact Hfiles |]. split; [done |].
  rewrite Hfiles. discriminate.
Qed.

End ReportClaim.

(** ** The frame condition of analyze_stock, on any frame *)

Section FrameCondition.
Import Float Py Pandas Analyzer Described.

Lemma touches_ret {A} (a : A) : touches_derived_only (ret a).
Proof. by intros df. Qed.

Lemma touches_get_col name : touches_derived_only (get_col name).
Proof. intros df. unfold get_col. by destruct (columns df !! name). Qed.

Lemma touches_frame_len : touches_derived_only frame_len.
Proof. by intros df. Qed.

Lemma touches_iloc_last s : touches_derived_only (iloc_last s).
Proof. intros df. unfold iloc_last. by destruct (last s). Qed.

Lemma touches_select names : touches_derived_only (select names).
Proof. intros df. unfold select. by destruct (select_cols names df). Qed.

Lemma touches_set_col name s :
  name ∈ derived_columns → touches_derived_only (set_col name s).
Proof.
  intros Hin df. split; [done |]. intros name' Hnot. cbn [set_col columns snd].
  apply lookup_insert_ne. by intros ->.
Qed.

Lemma touches_bind {A B} (m : Frame A) (k : A → Frame B) :
  touches_derived_only m → (∀ a, touches_derived_only (k a)) →
  touches_derived_only (bind m k).
Proof.
  intros Hm Hk df. unfold bind. destruct (Hm df) as [Hn Hc].
  destruct (m df) as [[a | e] df1]; cbn [snd] in *; [| done].
  destruct (Hk a df1) as [Hn' Hc']. split; [congruence |].
  intros name Hnot. by rewrite Hc', Hc.
Qed.

Lemma touches_analyze_frame : touches_derived_only analyze_frame.
Proof.
  unfold analyze_frame, calculate_roc.
  repeat first
    [ apply touches_ret
    | apply touches_get_col
    | apply touches_frame_len
    | apply touches_iloc_last
    | apply touches_select
    | apply touches_set_col; unfold derived_columns; repeat constructor
    | apply touches_bind; [| intros ?] ].
Qed.

(** Whatever frame analyze_stock is given, and whether it returns or raises,
    the frame keeps its row count and every column other than the seven
    derived ones. *)
Lemma analyze_stock_frame_condition (stock : string) (sd : StockData) :
  nrows (analyze_stock (stock, sd)).2 = nrows (price_data sd) ∧
  ∀ name, name ∉ derived_columns →
    columns (analyze_stock (stock, sd)).2 !! name = columns (price_data sd) !! name.
Proof.
  destruct (touches_analyze_frame (price_data sd)) as [Hn Hc].
  unfold analyze_stock.
  by destruct (analyze_frame (price_data sd)) as [[r | e] df].
Qed.

(** An empty frame makes analyze_stock raise IndexError at the ATR line, with
    six of the derived columns already assigned. *)
Lemma analyze_stock_empty_frame (stock : string) (news : list NewsItem) :
  ∃ df',
    analyze_stock (stock, mkStockData (frame_of_bars []) news) = (Raise IndexError, df') ∧
    is_Some (columns df' !! "RSI") ∧ columns df' !! "ROC" = None.
Proof.
  eexists. split.
  - unfold analyze_stock, analyze_frame, bind, get_col, set_col, frame_len.
    cbn [price_data frame_of_bars columns nrows fmap list_fmap length].
    repeat (rewrite ?lookup_insert_eq; rewrite ?lookup_insert_ne by done).
    reflexivity.
  - cbn [columns]. split.
    + rewrite lookup_insert_eq. eauto.
    + by repeat (rewrite lookup_insert_ne by done).
Qed.

End FrameCondition.

(** ** From the gatherer to the analyzer *)

Section Pipeline.
Import Float Py Pandas PandasFacts Analyzer AnalyzerFacts SharpeFacts Gatherer Described Samples.

Lemma provider_frame_analysable df :
  provider_frame df → empty df = false → analysable df.
Proof.
  intros (Hlen & [c Hc] & [h Hh] & [l Hl]) Hne.
  unfold empty in Hne. apply orb_false_iff in Hne as [Hrows _].
  apply Nat.eqb_neq in Hrows.
  exists c, h, l. split_and!; try done.
  - intros ->. apply Hlen in Hc. simpl in Hc. lia.
  - rewrite (Hlen _ _ Hh), (Hlen _ _ Hc). done.
  - rewrite (Hlen _ _ Hl), (Hlen _ _ Hc). done.
Qed.

Lemma fetch_Ok p now start_date end_date stock sd :
  fetch p now start_date end_date stock = Ok sd →
  history p stock start_date end_date = Ok (price_data sd) ∧ empty (price_data sd) = false.
Proof.
  unfold fetch. destruct (history _ _ _ _) as [data |]; [| done].
  destruct (empty data) eqn:He; [done |].
  destruct (news p stock) as [items |]; [| done].
  destruct (filter_news now items); [| done]. by intros [= <-].
Qed.

Lemma gather_values p now start_date end_date stocks
    (locker : gmap string StockData) log s sd :
  (foldl (gather_step p now start_date end_date) (locker, log) stocks).1 !! s = Some sd →
  locker !! s = Some sd ∨ fetch p now start_date end_date s = Ok sd.
Proof.
  revert locker log. induction stocks as [| t stocks IH]; intros locker log; [auto |].
  cbn [foldl]. unfold gather_step at 2.
  destruct (fetch p now start_date end_date t) as [sd' |] eqn:Et; intros H;
    apply IH in H as [H | H]; auto.
  destruct (decide (t = s)) as [-> | Hne].
  - rewrite lookup_insert_eq in H. right. congruence.
  - rewrite lookup_insert_ne in H by done. auto.
Qed.

(** What collect_evidence stores is never an empty frame; with a provider
    that delivers well-formed OHLC frames, analyze_clues therefore returns on
    it, with the same tickers as keys. *)
Lemma gathered_evidence_is_analysed p now stocks start_date end_date evidence :
  (∀ s df, history p s start_date end_date = Ok df → provider_frame df) →
  (collect_evidence p now stocks start_date end_date).1 = Ok evidence →
  (∀ s sd, evidence !! s = Some sd → empty (price_data sd) = false) ∧
  ∃ analyzed, analyze_clues evidence = Ok analyzed ∧ dom analyzed = dom evidence.
Proof.
  intros Hprov Hrun. unfold collect_evidence in Hrun.
  destruct (foldl _ _ stocks) as [locker log] eqn:Efold.
  destruct (bool_decide _); [done |]. cbn [fst] in Hrun. injection Hrun as <-.
  assert (∀ s sd, locker !! s = Some sd → fetch p now start_date end_date s = Ok sd) as Hfetch.
  { intros s sd Hs.
    pose proof (gather_values p now start_date end_date stocks ∅ [] s sd) as H.
    rewrite Efold in H. destruct (H Hs) as [H' | H']; [| done].
    by rewrite lookup_empty in H'. }
  split.
  { intros s sd Hs. by apply Hfetch, fetch_Ok in Hs as [_ ?]. }
  destruct (analyze_clues_by_ticker_total locker) as (analyzed & Ha & Hd); [| eauto].
  intros s sd Hs. apply Hfetch, fetch_Ok in Hs as [Hh He].
  apply provider_frame_analysable; [| done]. by eapply Hprov.
Qed.

Lemma frame_of_bars_provider_frame bars : provider_frame (frame_of_bars bars).
Proof.
  split.
  - intros name s. unfold frame_of_bars. cbn [columns nrows].
    rewrite !lookup_insert_Some, lookup_empty.
    intros [[_ <-] | [_ [[_ <-] | [_ [[_ <-] | [_ [[_ <-] | [_ [[_ <-] | [_ ?]]]]]]]]]];
      (done || by rewrite length_fmap).
  - rewrite frame_of_bars_close, frame_of_bars_high, frame_of_bars_low. eauto.
Qed.

Lemma frame_of_bars_not_empty bars : bars ≠ [] → empty (frame_of_bars bars) = false.
Proof.
  intros Hne. unfold empty. apply orb_false_iff. split.
  - apply Nat.eqb_neq. cbn [frame_of_bars nrows]. by destruct bars.
  - apply bool_decide_eq_false. unfold frame_of_bars. cbn [columns].
    rewrite dom_insert_L. intros E.
    assert ("Open" ∈ (∅ : gset string)) as H; [| by apply elem_of_empty in H].
    rewrite <- E. apply elem_of_union_l. by apply elem_of_singleton.
Qed.

Lemma gathered_evidence_is_analysed_witness :
  (∀ s sd, ({["AAPL" := mkStockData (frame_of_bars two_bars) []]} : gmap string StockData) !! s
             = Some sd → empty (price_data sd) = false) ∧
  ∃ analyzed,
    analyze_clues {["AAPL" := mkStockData (frame_of_bars two_bars) []]} = Ok analyzed ∧
    dom analyzed = dom ({["AAPL" := mkStockData (frame_of_bars two_bars) []]}
                          : gmap string StockData).
Proof.
  apply (gathered_evidence_is_analysed sample_provider 0 ["AAPL"] "2024-01-01" "2024-12-31").
  - intros s df [= <-]. apply frame_of_bars_provider_frame.
  - unfold collect_evidence. cbn [foldl gather_step fetch sample_provider history news
      filter_news app].
    rewrite frame_of_bars_not_empty by discriminate.
    rewrite insert_empty, dom_singleton_L.
    rewrite bool_decide_eq_false_2; [done |].
    intros E. assert ("AAPL" ∈ (∅ : gset string)) as H; [| by apply elem_of_empty in H].
    rewrite <- E. by apply elem_of_singleton.
Defined.

End Pipeline.

(** ** Further properties of the indicators *)

Section MoreIndicators.
Import Float FloatFacts Py Pandas PandasFacts Analyzer AnalyzerFacts Spec SharpeFacts
  MacdSpec RsiSpec Described Samples.
Local Open Scope R_scope.

(** ROC(12) is exactly 0 at a bar whose close equals the close 12 bars
    earlier (and is not 0). *)
Lemma roc_zero_on_repeated_close
    (stock : string) (bars : list PriceBar) (news : list NewsItem) (t : nat) (c : R) :
  (12 ≤ t)%nat →
  (Close <$> bars) !! t = Some c →
  (Close <$> bars) !! (t - 12)%nat = Some c →
  c ≠ 0 →
  ∃ res df' roc,
    analyze_stock (stock, mkStockData (frame_of_bars bars) news) = (Ok (stock, res), df') ∧
    columns (result_price_data res) !! "ROC" = Some roc ∧
    roc !! t = Some (Fin 0).
Proof.
  intros Ht Hc Hp Hnz. eexists _, _, _. split.
  { apply analyze_bars_ok. intros ->. done. }
  cbn [result_price_data result_of charted_frame columns]. split.
  { repeat (rewrite lookup_insert_ne by done). by rewrite lookup_insert_eq. }
  assert (t < length (Fin <$> (Close <$> bars)))%nat as Hlt.
  { rewrite length_fmap. by eapply lookup_lt_Some. }
  unfold roc_of, scale, div, sub.
  rewrite list_lookup_fmap, !lookup_zip_with, lookup_shift_ge by done.
  rewrite !(list_lookup_fmap Fin (Close <$> bars)), Hc, Hp.
  cbn [fmap option_fmap option_map mbind option_bind].
  cbn [fsub fneg fadd]. rewrite fdiv_Fin by done. simpl. do 2 f_equal. unfold Rdiv. lra.
Qed.

Lemma roc_zero_on_repeated_close_witness :
  ∃ res df' roc,
    analyze_stock ("AAPL", mkStockData (frame_of_bars (flat_bars 20 50)) [])
      = (Ok ("AAPL", res), df') ∧
    columns (result_price_data res) !! "ROC" = Some roc ∧
    roc !! 15%nat = Some (Fin 0).
Proof.
  apply (roc_zero_on_repeated_close "AAPL" (flat_bars 20 50) [] 15 50).
  - lia.
  - reflexivity.
  - reflexivity.
  - lra.
Defined.













Lemma length_real_returns_from p xs : length (real_returns_from p xs) = length xs.
Proof. revert p. induction xs; intros p; simpl; [done |]. by rewrite IHxs. Qed.

End MoreIndicators.

(** ** An uptrend, end to end *)

Section Uptrend.
Import Float FloatFacts Py Pandas PandasFacts Analyzer AnalyzerFacts Spec SharpeFacts
  MacdSpec RsiSpec Described Samples.
Local Open Scope R_scope.

Lemma lastv_lookup (s : Series) v : s !! pred (length s) = Some v → lastv s = v.
Proof. intros H. unfold lastv. by rewrite last_lookup, H. Qed.



End Uptrend.
(** ** More on evidence gathering *)

Section NewsFilter.
Import Py Pandas Analyzer Gatherer Behaviour Samples.




End NewsFilter.

Section NewsFilterExample.
Import Py Pandas Analyzer Gatherer Behaviour Samples Examples.


End NewsFilterExample.

Section GatherLog.
Import Py Pandas Analyzer Gatherer Behaviour.

Lemma gather_log (p : Provider) (now : Z) (start_date end_date : string)
    (stocks : list string) (locker : gmap string StockData) (log : list log_record) :
  (foldl (gather_step p now start_date end_date) (locker, log) stocks).2
  = log ++ (stocks ≫= log_of p now start_date end_date).
Proof.
  revert locker log. induction stocks as [| s stocks IH]; intros locker log.
  { cbn. by rewrite app_nil_r. }
  cbn [foldl]. unfold gather_step at 2. rewrite bind_cons. unfold log_of at 1.
  destruct (fetch p now start_date end_date s); rewrite IH, <- !app_assoc; done.
Qed.

(** The log of a run, whether it returns or raises: for each requested
    ticker, in the order requested and as often as it is listed, the line
    that opens it followed by exactly one line for its outcome. *)
Theorem collect_evidence_log (p : Provider) (now : Z) (stocks : list string)
    (start_date end_date : string) :
  (collect_evidence p now stocks start_date end_date).2
    = stocks ≫= log_of p now start_date end_date ∧
  length (collect_evidence p now stocks start_date end_date).2 = (2 * length stocks)%nat.
Proof.
  assert ((collect_evidence p now stocks start_date end_date).2
          = stocks ≫= log_of p now start_date end_date) as Hlog.
  { unfold collect_evidence.
    pose proof (gather_log p now start_date end_date stocks ∅ []) as H.
    destruct (foldl (gather_step p now start_date end_date) (∅, []) stocks) as [locker log].
    cbn [snd] in H. destruct (bool_decide (dom locker = ∅)); cbn [snd]; by rewrite H. }
  split; [exact Hlog |]. rewrite Hlog.
  clear Hlog. induction stocks as [| s stocks IH]; [done |].
  rewrite bind_cons, length_app, IH. cbn [log_of length]. lia.
Qed.

End GatherLog.
(** ** How analyze_stock ends *)

Section AnalyzerOutcome.
Import Float Py Pandas PandasFacts Analyzer AnalyzerFacts Described Behaviour Samples Examples.

Lemma analyze_frame_no_close df :
  columns df !! "Close" = None → analyze_frame df = (Raise (KeyError "Close"), df).
Proof.
  intros Hc. unfold analyze_frame. unfold bind at 1. unfold get_col at 1. by rewrite Hc.
Qed.

Lemma analyze_frame_no_high df c :
  columns df !! "Close" = Some c → columns df !! "High" = None →
  (analyze_frame df).1 = Raise (KeyError "High").
Proof.
  intros Hc Hh. unfold analyze_frame.
  repeat first
    [ rewrite bind_set_col
    | rewrite bind_frame_len
    | rewrite bind_ret
    | rewrite bind_assoc
    | erewrite bind_get_col by column ].
  unfold bind at 1. unfold get_col at 1. cbn [columns].
  repeat (rewrite lookup_insert_ne by done). by rewrite Hh.
Qed.





(** The analysis of the evidence is all or nothing: when analyze_stock raises
    for one ticker, analyze_clues raises and returns no ticker's result.  A
    frame without a Close column is enough. *)
Theorem analyze_clues_all_or_nothing
    (evidence : gmap string StockData) (stock : string) (sd : StockData) :
  evidence !! stock = Some sd →
  ((∃ e, (analyze_stock (stock, sd)).1 = Raise e) → ∃ e, analyze_clues evidence = Raise e) ∧
  (columns (price_data sd) !! "Close" = None → ∃ e, analyze_clues evidence = Raise e).
Proof.
  intros Hin.
  assert ((∃ e, (analyze_stock (stock, sd)).1 = Raise e) → ∃ e, analyze_clues evidence = Raise e)
    as Hany.
  { intros [e0 He0]. unfold analyze_clues.
    destruct (pool_map _ (map_to_list evidence)) as [results | e] eqn:Ep; [| eauto].
    apply pool_map_Ok in Ep.
    apply elem_of_map_to_list in Hin.
    apply list_elem_of_lookup in Hin as [i Hi].
    destruct (Forall2_lookup_l _ _ _ _ _ Ep Hi) as (y & _ & Hy).
    cbn beta in Hy. congruence. }
  split; [exact Hany |].
  intros Hc. apply Hany. exists (KeyError "Close").
  unfold analyze_stock. by rewrite analyze_frame_no_close.
Qed.

Lemma analyze_clues_all_or_nothing_witness :
  ∃ e, analyze_clues (<["MSFT" := mkStockData closes_only []]> one_ticker_evidence) = Raise e.
Proof.
  destruct (analyze_clues_all_or_nothing
              (<["MSFT" := mkStockData closes_only []]> one_ticker_evidence)
              "MSFT" (mkStockData closes_only []) (lookup_insert_eq _ _ _)) as [Hany _].
  apply Hany. exists (KeyError "High").
  unfold analyze_stock. cbn [price_data].
  pose proof (analyze_frame_no_high closes_only [Fin 100; Fin 102] eq_refl eq_refl) as H.
  revert H. destruct (analyze_frame closes_only) as [[r | e] df']; cbn [fst]; congruence.
Defined.

End AnalyzerOutcome.
(** ** Histories shorter than a window *)

Section ShortHistory.
Import Float FloatFacts Py Pandas PandasFacts Analyzer AnalyzerFacts SharpeFacts Described.
Local Open Scope R_scope.

Lemma length_observations s : (length (observations s) ≤ length s)%nat.
Proof.
  unfold observations. induction s as [| v s IH]; [done |].
  cbn [omap list_omap]. destruct v; cbn [length]; lia.
Qed.

Lemma length_window w i s : (length (window w i s) ≤ length s)%nat.
Proof. unfold window. rewrite length_drop, length_take. lia. Qed.

(** A rolling window longer than the column never fills. *)
Lemma rolling_short w agg s :
  (length s < w)%nat → rolling w agg s = replicate (length s) NaN.
Proof.
  intros Hw. apply list_eq. intros i. unfold rolling. rewrite list_lookup_imap.
  destruct (s !! i) as [v |] eqn:Ei; cbn [fmap option_fmap option_map].
  - apply lookup_lt_Some in Ei as Hi. rewrite lookup_replicate_2 by done.
    pose proof (length_observations (window w i s)).
    pose proof (length_window w i s).
    rewrite decide_True; [done | lia].
  - apply lookup_ge_None in Ei. symmetry. apply lookup_ge_None. by rewrite length_replicate.
Qed.

Lemma zip_with_NaN_l (f : float64 → float64 → float64) n b :
  (∀ y, f NaN y = NaN) → length b = n → zip_with f (replicate n NaN) b = replicate n NaN.
Proof.
  intros Hf. revert b. induction n as [| n IH]; intros [| y b] Hb; try done.
  cbn. rewrite Hf, IH; [done |]. by injection Hb.
Qed.

Lemma zip_with_NaN_r (f : float64 → float64 → float64) n a :
  (∀ x, f x NaN = NaN) → length a = n → zip_with f a (replicate n NaN) = replicate n NaN.
Proof.
  intros Hf. revert a. induction n as [| n IH]; intros [| x a] Ha; try done.
  cbn. rewrite Hf, IH; [done |]. by injection Ha.
Qed.

Lemma fadd_NaN_r x : fadd x NaN = NaN.
Proof. by destruct x. Qed.

Lemma fsub_NaN_r x : fsub x NaN = NaN.
Proof. by destruct x. Qed.

Lemma fdiv_NaN_r x : fdiv x NaN = NaN.
Proof. by destruct x. Qed.

Lemma mean_NaN n : mean (replicate n NaN) = NaN.
Proof.
  unfold mean. rewrite dropna_replicate_NaN. cbn. unfold of_nat. cbn. apply fdiv_0_0.
Qed.

Lemma lastv_replicate n (v : float64) : n ≠ 0%nat → lastv (replicate n v) = v.
Proof.
  intros Hn. unfold lastv. rewrite last_lookup, length_replicate.
  rewrite lookup_replicate_2 by lia. done.
Qed.

Lemma shift_short n s : (length s ≤ n)%nat → shift n s = replicate (length s) NaN.
Proof.
  intros Hn. unfold shift. rewrite take_app_le by (rewrite length_replicate; lia).
  rewrite take_replicate. f_equal. lia.
Qed.

Lemma scale_NaN k n : scale k (replicate n NaN) = replicate n NaN.
Proof. unfold scale. by rewrite fmap_replicate. Qed.

Lemma bands_short c :
  (length c < 20)%nat →
  upper_band_of (rolling_mean 20 c) c = replicate (length c) NaN ∧
  lower_band_of (rolling_mean 20 c) c = replicate (length c) NaN ∧
  bb_gap_of c = replicate (length c) NaN.
Proof.
  intros Hc.
  assert (upper_band_of (rolling_mean 20 c) c = replicate (length c) NaN) as Hu.
  { unfold upper_band_of, rolling_mean, rolling_std, add.
    rewrite !rolling_short, scale_NaN by done.
    apply zip_with_NaN_l; [done | by rewrite length_replicate]. }
  assert (lower_band_of (rolling_mean 20 c) c = replicate (length c) NaN) as Hl.
  { unfold lower_band_of, rolling_mean, rolling_std, sub.
    rewrite !rolling_short, scale_NaN by done.
    apply zip_with_NaN_l; [done | by rewrite length_replicate]. }
  split_and!; [done | done |].
  unfold bb_gap_of. rewrite Hu, Hl. unfold sub.
  apply zip_with_NaN_l; [done | by rewrite length_replicate].
Qed.

Lemma rsi_short c : (length c < 14)%nat → rsi_of c = replicate (length c) NaN.
Proof.
  intros Hc. unfold rsi_of, gain_of, loss_of, rolling_mean, where_, neg, div.
  rewrite !rolling_short by (rewrite ?length_fmap, length_diff; done).
  rewrite !length_fmap, length_diff.
  rewrite zip_with_NaN_l; [| done | by rewrite length_replicate].
  by rewrite fmap_replicate.
Qed.

Lemma atr_short h l c :
  length h = length c → length l = length c → (length c < 14)%nat →
  atr_series h l c = replicate (length c) NaN.
Proof.
  intros Hh Hl Hc. unfold atr_series, rolling_mean.
  rewrite rolling_short; rewrite length_true_range_of; done.
Qed.

Lemma roc_short c : (length c ≤ 12)%nat → roc_of 12 c = replicate (length c) NaN.
Proof.
  intros Hc. unfold roc_of. rewrite shift_short by done. unfold div, sub.
  rewrite (zip_with_NaN_r fsub) by (auto using fsub_NaN_r).
  rewrite (zip_with_NaN_l fdiv) by (rewrite ?length_replicate; done).
  apply scale_NaN.
Qed.

Lemma returns_short c :
  (length c ≤ 2)%nat → (length (dropna (pct_change c)) ≤ 1)%nat.
Proof.
  destruct c as [| x [| y [| z c]]]; cbn [length]; intros Hc; try lia.
  - cbn. lia.
  - unfold pct_change, div, shift. cbn [length replicate app take zip_with fmap list_fmap].
    rewrite fdiv_NaN_r. cbn [fsub fneg fadd]. rewrite dropna_NaN_cons. cbn. lia.
  - unfold pct_change, div, shift. cbn [length replicate app take zip_with fmap list_fmap].
    rewrite fdiv_NaN_r. cbn [fsub fneg fadd]. rewrite dropna_NaN_cons.
    unfold dropna. rewrite filter_cons. destruct (decide _); cbn; lia.
Qed.

Lemma std_short c : (length c ≤ 2)%nat → std (pct_change c) = NaN.
Proof.
  intros Hc. unfold std, var. rewrite decide_True by (by apply returns_short). done.
Qed.

Lemma sharpe_of_NaN_volatility a n : sharpe_of a NaN n = NaN.
Proof. unfold sharpe_of. by rewrite fdiv_NaN_r. Qed.

Lemma mean_single_row x : mean (pct_change [x]) = NaN.
Proof.
  unfold pct_change, div, shift. cbn [length replicate app take zip_with fmap list_fmap].
  rewrite fdiv_NaN_r. cbn [fsub fneg fadd]. apply (mean_NaN 1).
Qed.

(** A history shorter than an indicator's window is analysed to the end all
    the same: the indicator is NaN, nothing is raised.  Below 20 bars that
    holds of the Bollinger values, below 14 of RSI and ATR, up to 12 of the
    rate of change, up to 2 of volatility and the Sharpe ratio, and with a
    single bar of the average daily return. *)
Theorem short_history_indicators
    (stock : string) (bars : list PriceBar) (news : list NewsItem) :
  bars ≠ [] →
  ∃ res df',
    analyze_stock (stock, mkStockData (frame_of_bars bars) news) = (Ok (stock, res), df') ∧
    let n := length bars in
    ((n < 20)%nat → upper_band res = NaN ∧ lower_band res = NaN ∧ avg_bb_gap res = NaN) ∧
    ((n < 14)%nat → rsi res = NaN ∧ atr res = NaN) ∧
    ((n ≤ 12)%nat → latest_roc res = NaN ∧ avg_roc res = NaN) ∧
    ((n ≤ 2)%nat → volatility res = NaN ∧ sharpe_ratio res = NaN) ∧
    (n = 1%nat → avg_daily_return res = NaN).
Proof.
  intros Hne. eexists _, _. split; [by apply analyze_bars_ok |].
  set (c := Fin <$> (Close <$> bars)).
  set (h := Fin <$> (High <$> bars)).
  set (l := Fin <$> (Low <$> bars)).
  assert (length c = length bars) as Lc by (unfold c; by rewrite !length_fmap).
  assert (length h = length c) as Lh by (unfold c, h; by rewrite !length_fmap).
  assert (length l = length c) as Ll by (unfold c, l; by rewrite !length_fmap).
  assert (length bars ≠ 0%nat) as Hn by (by destruct bars).
  cbn [upper_band lower_band avg_bb_gap rsi atr latest_roc avg_roc volatility
       sharpe_ratio avg_daily_return result_of].
  split_and!.
  - intros Hlt. destruct (bands_short c) as (-> & -> & ->); [lia |].
    rewrite Lc, !lastv_replicate, mean_NaN by done. done.
  - intros Hlt. rewrite rsi_short, atr_short by (try done; lia).
    rewrite Lc, !lastv_replicate by done. done.
  - intros Hle. rewrite roc_short by lia.
    rewrite Lc, lastv_replicate, mean_NaN by done. done.
  - intros Hle. rewrite std_short by lia. by rewrite sharpe_of_NaN_volatility.
  - intros H1. destruct bars as [| b [| b' bars]]; try done. apply mean_single_row.
Qed.

Lemma short_history_indicators_witness :
  ∃ res df',
    analyze_stock ("AAPL", mkStockData (frame_of_bars Samples.two_bars) [])
      = (Ok ("AAPL", res), df') ∧
    upper_band res = NaN ∧ rsi res = NaN ∧ atr res = NaN ∧ latest_roc res = NaN ∧
    volatility res = NaN ∧ sharpe_ratio res = NaN.
Proof.
  destruct (short_history_indicators "AAPL" Samples.two_bars [] ltac:(done))
    as (res & df' & Hrun & H20 & H14 & H12 & H2 & _).
  exists res, df'. split; [exact Hrun |]. cbn [Samples.two_bars length] in *.
  destruct H20 as (? & _ & _); [lia |]. destruct H14 as (? & ?); [lia |].
  destruct H12 as (? & _); [lia |]. destruct H2 as (? & ?); [lia |]. done.
Defined.

End ShortHistory.
(** ** The range of the RSI *)

Section RsiRange.
Import Float FloatFacts Py Pandas PandasFacts Analyzer AnalyzerFacts SharpeFacts Described.
Import RsiSpec Behaviour.
Local Open Scope R_scope.





Lemma length_last14 xs i : (13 ≤ i < length xs)%nat → length (last14 xs i) = 14%nat.
Proof. intros Hi. unfold last14. rewrite length_drop, length_take. lia. Qed.

Lemma sma_last14 xs i :
  (13 ≤ i < length xs)%nat → sma 14 xs i = Fin (rsum (last14 xs i) / 14).
Proof.
  intros Hi. unfold sma. rewrite decide_False by lia.
  fold (last14 xs i). unfold rmean. rewrite length_last14 by done.
  do 2 f_equal. rewrite INR_IZR_INZ. done.
Qed.







End RsiRange.
(** ** The Bollinger bands *)

Section Bollinger.
Import Float FloatFacts Py Pandas PandasFacts Analyzer AnalyzerFacts SharpeFacts Described.
Import Behaviour.
Local Open Scope R_scope.










End Bollinger.

Section BollingerExample.
Import Float Py Pandas Analyzer Samples.


End BollingerExample.
(** ** MACD and the range of the prices *)

Section MacdRange.
Import Float FloatFacts Py Pandas PandasFacts Analyzer AnalyzerFacts SharpeFacts Described.
Import MacdSpec.
Local Open Scope R_scope.

Lemma alpha_in_unit_interval span :
  (1 ≤ span)%nat → 0 <= 2 / (INR span + 1) <= 1.
Proof.
  intros Hs. apply le_INR in Hs. change (INR 1) with 1 in Hs.
  split.
  - apply Rmult_le_pos; [lra |]. apply Rlt_le, Rinv_0_lt_compat. lra.
  - apply (Rmult_le_reg_r (INR span + 1)); [lra |]. field_simplify; lra.
Qed.

(** An exponential average is a convex combination: it stays between the
    bounds of what it averages. *)
Lemma ema_from_bounds alpha lo hi prev xs :
  0 <= alpha <= 1 → lo <= prev <= hi →
  Forall (λ x, lo <= x <= hi) xs →
  Forall (λ e, lo <= e <= hi) (ema_from alpha prev xs).
Proof.
  intros Ha Hp Hxs. revert prev Hp.
  induction Hxs as [| x xs Hx _ IH]; intros prev Hp; cbn; constructor.
  - nra.
  - apply IH. nra.
Qed.

Lemma ema_bounds span lo hi xs :
  (1 ≤ span)%nat → Forall (λ x, lo <= x <= hi) xs →
  Forall (λ e, lo <= e <= hi) (ema span xs).
Proof.
  intros Hs Hxs. destruct Hxs as [| x xs Hx Hxs]; cbn; constructor; [done |].
  apply ema_from_bounds; auto using alpha_in_unit_interval.
Qed.

Lemma zip_with_Rminus_bounds lo hi a b :
  Forall (λ x, lo <= x <= hi) a → Forall (λ x, lo <= x <= hi) b →
  Forall (λ d, lo - hi <= d <= hi - lo) (zip_with Rminus a b).
Proof.
  intros Ha. revert b. induction Ha as [| x a Hx _ IH]; intros b Hb; [constructor |].
  destruct Hb as [| y b Hy Hb]; cbn; constructor; [lra | by apply IH].
Qed.

Lemma macd_line_bounds lo hi closes :
  Forall (λ x, lo <= x <= hi) closes →
  Forall (λ d, lo - hi <= d <= hi - lo) (macd_line closes) ∧
  Forall (λ d, lo - hi <= d <= hi - lo) (signal_line closes).
Proof.
  intros Hc.
  assert (Forall (λ d, lo - hi <= d <= hi - lo) (macd_line closes)) as Hm.
  { unfold macd_line. apply zip_with_Rminus_bounds; apply ema_bounds; (lia || done). }
  split; [exact Hm |]. unfold signal_line. apply ema_bounds; [lia | done].
Qed.

Lemma lastv_Fin (xs : list R) :
  xs ≠ [] → ∃ x, last xs = Some x ∧ lastv (Fin <$> xs) = Fin x.
Proof.
  intros Hne. destruct (last xs) as [x |] eqn:El.
  - exists x. split; [done |]. unfold lastv. by rewrite fmap_last, El.
  - apply last_None in El. done.
Qed.

(** MACD and its signal line are differences of averages of the closes, so
    neither can exceed the spread of the closes: with every close between lo
    and hi, every row of both columns, and the two reported values, lie
    between lo - hi and hi - lo.  The first MACD row is 0, and on a constant
    price both values are 0. *)
Theorem macd_within_price_range
    (stock : string) (bars : list PriceBar) (news : list NewsItem) (lo hi : R) :
  bars ≠ [] →
  Forall (λ b, lo <= Close b <= hi) bars →
  ∃ res df' macd_col signal_col,
    analyze_stock (stock, mkStockData (frame_of_bars bars) news) = (Ok (stock, res), df') ∧
    columns (macd_data res) !! "MACD" = Some (Fin <$> macd_col) ∧
    columns (macd_data res) !! "Signal" = Some (Fin <$> signal_col) ∧
    length macd_col = length bars ∧ length signal_col = length bars ∧
    macd_col !! 0%nat = Some 0 ∧
    Forall (λ d, lo - hi <= d <= hi - lo) macd_col ∧
    Forall (λ d, lo - hi <= d <= hi - lo) signal_col ∧
    (∃ m, macd res = Fin m ∧ lo - hi <= m <= hi - lo) ∧
    (∃ s, macd_signal res = Fin s ∧ lo - hi <= s <= hi - lo) ∧
    (lo = hi → macd res = Fin 0 ∧ macd_signal res = Fin 0).
Proof.
  intros Hne Hb.
  set (closes := Close <$> bars).
  assert (Forall (λ x, lo <= x <= hi) closes) as Hc.
  { unfold closes. by apply Forall_fmap. }
  assert (length closes = length bars) as Lc by (unfold closes; by rewrite length_fmap).
  destruct (macd_line_bounds lo hi closes Hc) as [Hm Hs].
  assert (length (macd_line closes) = length bars) as Lm.
  { unfold macd_line. rewrite length_zip_with, !length_ema. lia. }
  assert (length (signal_line closes) = length bars) as Ls.
  { unfold signal_line. by rewrite length_ema. }
  assert (macd_line closes ≠ []) as Hmne.
  { apply nonempty_length. rewrite Lm. by apply nonempty_length. }
  assert (signal_line closes ≠ []) as Hsne.
  { apply nonempty_length. rewrite Ls. by apply nonempty_length. }
  destruct (lastv_Fin _ Hmne) as (m & Hml & Hmv).
  destruct (lastv_Fin _ Hsne) as (s & Hsl & Hsv).
  assert (lo - hi <= m <= hi - lo) as Hmb.
  { rewrite last_lookup in Hml. by eapply (Forall_lookup_1 _ _ _ _ Hm). }
  assert (lo - hi <= s <= hi - lo) as Hsb.
  { rewrite last_lookup in Hsl. by eapply (Forall_lookup_1 _ _ _ _ Hs). }
  eexists _, _, (macd_line closes), (signal_line closes).
  split; [by apply analyze_bars_ok |].
  fold closes. cbn [macd_data result_of macd_frame columns macd macd_signal].
  rewrite signal_of_Fin, macd_of_Fin, Hmv, Hsv.
  split_and!; try done.
  - unfold macd_line, closes. destruct bars as [| b bars]; [done |].
    cbn. f_equal. lra.
  - by exists m.
  - by exists s.
  - intros ->. split; f_equal; lra.
Qed.

End MacdRange.

Section MacdRangeExample.
Import Float Py Pandas Analyzer Samples.
Local Open Scope R_scope.

Lemma macd_within_price_range_witness :
  ∃ res df',
    analyze_stock ("AAPL", mkStockData (frame_of_bars (flat_bars 3 50)) [])
      = (Ok ("AAPL", res), df') ∧
    macd res = Fin 0 ∧ macd_signal res = Fin 0.
Proof.
  destruct (macd_within_price_range "AAPL" (flat_bars 3 50) [] 50 50 ltac:(done))
    as (res & df' & mc & sc & Hrun & _ & _ & _ & _ & _ & _ & _ & _ & _ & Hflat).
  { repeat constructor; cbn; lra. }
  exists res, df'. split; [exact Hrun |]. by apply Hflat.
Defined.

End MacdRangeExample.
(** ** The true range and its average *)

Section TrueRange.
Import Float FloatFacts Py Pandas PandasFacts Analyzer AnalyzerFacts SharpeFacts Described.
Import RsiSpec AtrSpec Behaviour.
Local Open Scope R_scope.

Lemma true_range_next_bounds prev b :
  let tr := true_range_next prev b in
  0 <= tr ∧ High b - Low b <= tr ∧
  Rabs (High b - prev) <= tr ∧ Rabs (Low b - prev) <= tr ∧
  (Low b <= prev <= High b → tr = High b - Low b).
Proof.
  unfold true_range_next.
  pose proof (Rabs_pos (High b - prev)).
  pose proof (Rmax_l (High b - Low b) (Rmax (Rabs (High b - prev)) (Rabs (Low b - prev)))).
  pose proof (Rmax_r (High b - Low b) (Rmax (Rabs (High b - prev)) (Rabs (Low b - prev)))).
  pose proof (Rmax_l (Rabs (High b - prev)) (Rabs (Low b - prev))).
  pose proof (Rmax_r (Rabs (High b - prev)) (Rabs (Low b - prev))).
  cbn zeta. split_and!; try lra.
  intros [Hl Hh].
  rewrite (Rabs_pos_eq (High b - prev)) by lra.
  rewrite (Rabs_left1 (Low b - prev)) by lra.
  apply Rmax_left. apply Rmax_lub; lra.
Qed.

Lemma true_ranges_from_nonneg prev bars :
  Forall (λ tr, 0 <= tr) (true_ranges_from prev bars).
Proof.
  revert prev. induction bars as [| b bars IH]; intros prev; cbn; constructor; [| done].
  apply true_range_next_bounds.
Qed.

Lemma true_ranges_from_lookup prev bars t b :
  bars !! t = Some b →
  true_ranges_from prev bars !! t
    = Some (true_range_next
              (match t with
               | O => prev
               | S t' => default prev ((Close <$> bars) !! t')
               end) b).
Proof.
  revert prev t. induction bars as [| b0 bars IH]; intros prev t Hb; [done |].
  destruct t as [| t]; cbn in Hb |- *.
  - by injection Hb as ->.
  - rewrite (IH _ _ Hb). destruct t; cbn; [done |].
    destruct ((Close <$> bars) !! t) eqn:E; [done |].
    apply lookup_lt_Some in Hb. apply lookup_ge_None in E.
    rewrite length_fmap in E. lia.
Qed.

(** The true range of a bar after the first is the largest of high - low,
    |high - previous close| and |low - previous close|.  It is never
    negative, whatever the bar, and it is high - low when the previous close
    lies within the bar.  The reported ATR, the mean of the last 14 true
    ranges, is a number that is not negative once there are 15 bars, and
    with exactly 14 bars when the first bar has its low below its high. *)
Theorem true_range_bounds
    (stock : string) (b0 : PriceBar) (rest : list PriceBar) (news : list NewsItem) :
  let bars := b0 :: rest in
  let tr_col := true_range_of (Fin <$> (High <$> bars)) (Fin <$> (Low <$> bars))
                              (Fin <$> (Close <$> bars)) in
  ∃ res df',
    analyze_stock (stock, mkStockData (frame_of_bars bars) news) = (Ok (stock, res), df') ∧
    (∀ t b prev, bars !! S t = Some b → (Close <$> bars) !! t = Some prev →
       ∃ tr, tr_col !! S t = Some (Fin tr) ∧
         tr = Rmax (High b - Low b) (Rmax (Rabs (High b - prev)) (Rabs (Low b - prev))) ∧
         0 <= tr ∧
         (Low b <= prev <= High b → tr = High b - Low b)) ∧
    ((15 ≤ length bars)%nat → ∃ a, atr res = Fin a ∧ 0 <= a) ∧
    (length bars = 14%nat → Low b0 <= High b0 → ∃ a, atr res = Fin a ∧ 0 <= a).
Proof.
  intros bars tr_col.
  assert (tr_col = Fin <$> true_ranges bars) as Htr by apply true_range_of_bars.
  assert (length (true_ranges bars) = length bars) as Ltr by apply length_true_ranges.
  assert ((14 ≤ length bars)%nat →
            Forall (λ tr, 0 <= tr) (last14 (true_ranges bars) (length bars - 1)) →
            ∃ a, lastv (atr_series (Fin <$> (High <$> bars)) (Fin <$> (Low <$> bars))
                          (Fin <$> (Close <$> bars))) = Fin a ∧ 0 <= a) as Hatr.
  { intros Hn Hall. unfold atr_series. fold tr_col. rewrite Htr.
    eexists. split.
    - apply lastv_lookup. unfold rolling_mean. rewrite length_rolling, length_fmap, Ltr.
      replace (Nat.pred (length bars)) with (length bars - 1)%nat by lia.
      fold (rolling_mean 14 (Fin <$> true_ranges bars)).
      rewrite lookup_rolling_mean_Fin by lia.
      by rewrite sma_last14 by lia.
    - apply Rmult_le_pos; [by apply rsum_nonneg | lra]. }
  eexists _, _. split; [by apply analyze_bars_ok |].
  cbn [atr result_of]. split_and!.
  - intros t b prev Hb Hp. rewrite Htr. subst bars. cbn in Hb, Hp.
    cbn [true_ranges]. rewrite list_lookup_fmap. cbn [lookup list_lookup].
    fold (@lookup nat R (list R) _ t (true_ranges_from (Close b0) rest)).
    rewrite (true_ranges_from_lookup _ _ _ _ Hb).
    assert (match t with
            | O => Close b0
            | S t' => default (Close b0) ((Close <$> rest) !! t')
            end = prev) as ->.
    { destruct t as [| t]; [by injection Hp |].
      change ((Close <$> rest) !! t = Some prev) in Hp. by rewrite Hp. }
    eexists. split; [done |]. split; [done |].
    pose proof (true_range_next_bounds prev b) as (? & _ & _ & _ & ?). done.
  - intros Hn. apply Hatr; [lia |].
    unfold last14. rewrite take_ge by lia. subst bars. cbn [true_ranges].
    cbn [length] in Hn |- *.
    replace (S (length rest) - 1 + 1 - 14)%nat with (S (length rest - 14)) by lia.
    cbn [drop]. apply Forall_drop, true_ranges_from_nonneg.
  - intros Hn Hb0. apply Hatr; [lia |].
    unfold last14. rewrite take_ge by lia. rewrite Hn. cbn [Nat.sub Nat.add drop].
    subst bars. cbn [true_ranges]. constructor; [lra | apply true_ranges_from_nonneg].
Qed.

End TrueRange.
(** ** Prices in another unit *)

Section Rescaling.
Import Float FloatFacts Py Pandas PandasFacts Analyzer AnalyzerFacts SharpeFacts Described.
Import Behaviour.
Local Open Scope R_scope.

Variable k : R.
Hypothesis k_pos : 0 < k.

Local Abbreviation rs := (fmap (M := list) (rescale k)).

Lemma sign_of_rescale r : sign_of (k * r) = sign_of r.
Proof.
  destruct (Rtotal_order r 0) as [Hr | [-> | Hr]].
  - rewrite !sign_of_neg; [done | done | nra].
  - by rewrite Rmult_0_r.
  - rewrite !sign_of_pos; [done | done | nra].
Qed.

Lemma rescale_inf_of s : rescale k (inf_of s) = inf_of s.
Proof. by destruct s. Qed.

Lemma rescale_0 : rescale k (Fin 0) = Fin 0.
Proof. cbn. by rewrite Rmult_0_r. Qed.

Lemma is_nan_rescale v : is_nan (rescale k v) = is_nan v.
Proof. by destruct v. Qed.

Lemma fadd_rescale a b : fadd (rescale k a) (rescale k b) = rescale k (fadd a b).
Proof. destruct a, b; cbn; try done. f_equal. lra. Qed.

Lemma fneg_rescale a : fneg (rescale k a) = rescale k (fneg a).
Proof. destruct a; cbn; try done. f_equal. lra. Qed.

Lemma fsub_rescale a b : fsub (rescale k a) (rescale k b) = rescale k (fsub a b).
Proof. unfold fsub. by rewrite fneg_rescale, fadd_rescale. Qed.

Lemma fabs_rescale a : fabs (rescale k a) = rescale k (fabs a).
Proof.
  destruct a; cbn; try done. f_equal. rewrite Rabs_mult, (Rabs_pos_eq k); [done | lra].
Qed.

(** A ratio of two prices does not depend on the unit. *)
Lemma fdiv_rescale a b : fdiv (rescale k a) (rescale k b) = fdiv a b.
Proof.
  destruct a as [x | | |], b as [y | | |]; cbn; try done; rewrite ?sign_of_rescale; try done.
  destruct (sign_of y) eqn:Ey; try done; f_equal; field; split; try lra.
  - apply sign_of_Neg in Ey. lra.
  - apply sign_of_Pos in Ey. lra.
Qed.

Lemma fdiv_rescale_l a c : fdiv (rescale k a) (Fin c) = rescale k (fdiv a (Fin c)).
Proof.
  destruct a as [x | | |]; cbn; try done.
  - rewrite sign_of_rescale. destruct (sign_of c) eqn:Ec; cbn.
    + f_equal. apply sign_of_Neg in Ec. field. lra.
    + by rewrite rescale_inf_of.
    + f_equal. apply sign_of_Pos in Ec. field. lra.
  - by destruct (sign_of c).
  - by destruct (sign_of c).
Qed.

Lemma fmul_rescale_l a c : fmul (rescale k a) (Fin c) = rescale k (fmul a (Fin c)).
Proof.
  destruct a as [x | | |]; cbn; try done; rewrite ?rescale_inf_of; try done.
  f_equal. lra.
Qed.

Lemma fmul_rescale_r c a : fmul (Fin c) (rescale k a) = rescale k (fmul (Fin c) a).
Proof.
  destruct a as [x | | |]; cbn; try done; rewrite ?rescale_inf_of; try done.
  f_equal. lra.
Qed.

Lemma fmax_rescale a b : fmax (rescale k a) (rescale k b) = rescale k (fmax a b).
Proof.
  destruct a, b; cbn; try done. f_equal. apply RmaxRmult. lra.
Qed.

Lemma fgt0_rescale v : fgt0 (rescale k v) = fgt0 v.
Proof. destruct v; cbn; try done. by rewrite sign_of_rescale. Qed.

Lemma flt0_rescale v : flt0 (rescale k v) = flt0 v.
Proof. destruct v; cbn; try done. by rewrite sign_of_rescale. Qed.

Lemma zip_with_rescale (f : float64 → float64 → float64) a b :
  (∀ x y, f (rescale k x) (rescale k y) = rescale k (f x y)) →
  zip_with f (rs a) (rs b) = rs (zip_with f a b).
Proof.
  intros Hf. revert b. induction a as [| x a IH]; intros [| y b]; cbn; try done.
  by rewrite Hf, IH.
Qed.

Lemma shift_rescale n s : shift n (rs s) = rs (shift n s).
Proof.
  unfold shift. rewrite length_fmap, fmap_take, fmap_app, fmap_replicate. done.
Qed.

Lemma sub_rescale a b : sub (rs a) (rs b) = rs (sub a b).
Proof. apply zip_with_rescale, fsub_rescale. Qed.

Lemma add_rescale a b : add (rs a) (rs b) = rs (add a b).
Proof. apply zip_with_rescale, fadd_rescale. Qed.

Lemma div_rescale a b : div (rs a) (rs b) = div a b.
Proof.
  unfold div. revert b. induction a as [| x a IH]; intros [| y b]; cbn; try done.
  by rewrite fdiv_rescale, IH.
Qed.

Lemma scale_rescale c s : scale (Fin c) (rs s) = rs (scale (Fin c) s).
Proof.
  unfold scale. rewrite <- !list_fmap_compose. apply list_fmap_ext.
  intros _ v _. cbn. apply fmul_rescale_l.
Qed.

Lemma neg_rescale s : neg (rs s) = rs (neg s).
Proof.
  unfold neg. rewrite <- !list_fmap_compose. apply list_fmap_ext.
  intros _ v _. cbn. apply fneg_rescale.
Qed.

Lemma abs_rescale s : abs (rs s) = rs (abs s).
Proof.
  unfold abs. rewrite <- !list_fmap_compose. apply list_fmap_ext.
  intros _ v _. cbn. apply fabs_rescale.
Qed.

Lemma diff_rescale s : diff (rs s) = rs (diff s).
Proof. unfold diff. by rewrite shift_rescale, sub_rescale. Qed.

Lemma pct_change_rescale s : pct_change (rs s) = pct_change s.
Proof. unfold pct_change. by rewrite shift_rescale, div_rescale. Qed.

Lemma roc_rescale n c : roc_of n (rs c) = roc_of n c.
Proof. unfold roc_of. by rewrite shift_rescale, sub_rescale, div_rescale. Qed.

Lemma where_gt0_rescale s : where_ fgt0 (Fin 0) (rs s) = rs (where_ fgt0 (Fin 0) s).
Proof.
  unfold where_. rewrite <- !list_fmap_compose. apply list_fmap_ext.
  intros _ v _. cbn [compose]. rewrite fgt0_rescale.
  destruct (fgt0 v); [done | by rewrite rescale_0].
Qed.

Lemma where_lt0_rescale s : where_ flt0 (Fin 0) (rs s) = rs (where_ flt0 (Fin 0) s).
Proof.
  unfold where_. rewrite <- !list_fmap_compose. apply list_fmap_ext.
  intros _ v _. cbn [compose]. rewrite flt0_rescale.
  destruct (flt0 v); [done | by rewrite rescale_0].
Qed.

Lemma observations_rescale s : observations (rs s) = Rmult k <$> observations s.
Proof.
  unfold observations. induction s as [| v s IH]; [done |].
  cbn [fmap list_fmap omap list_omap]. fold (rs s).
  change (list_omap ?f ?l) with (omap f l). rewrite IH.
  by destruct v.
Qed.

Lemma window_rescale w i s : window w i (rs s) = rs (window w i s).
Proof. unfold window. by rewrite fmap_drop, fmap_take. Qed.

Lemma rolling_rescale w (agg : list R → float64) s :
  (∀ obs, agg (Rmult k <$> obs) = rescale k (agg obs)) →
  rolling w agg (rs s) = rs (rolling w agg s).
Proof.
  intros Hagg. apply list_eq. intros i. unfold rolling.
  rewrite list_lookup_fmap, !list_lookup_imap, list_lookup_fmap.
  destruct (s !! i) as [v |]; cbn; [| done].
  rewrite window_rescale, observations_rescale, length_fmap.
  destruct (decide _); [done |]. by rewrite Hagg.
Qed.

Lemma rsum_rescale l : rsum (Rmult k <$> l) = k * rsum l.
Proof.
  unfold rsum. induction l as [| x l IH]; cbn; [lra |]. rewrite IH. lra.
Qed.

Lemma rmean_rescale l : l ≠ [] → rmean (Rmult k <$> l) = k * rmean l.
Proof.
  intros Hne. unfold rmean. rewrite rsum_rescale, length_fmap. field.
  apply not_0_INR. by destruct l.
Qed.

Lemma ssd_rescale l : l ≠ [] → ssd (Rmult k <$> l) = k * k * ssd l.
Proof.
  intros Hne. unfold ssd. rewrite rmean_rescale by done.
  generalize (rmean l). intros m.
  unfold rsum. induction l as [| x l IH]; cbn; [lra |].
  destruct l as [| y l].
  - cbn. lra.
  - rewrite IH by done. lra.
Qed.

Lemma rolling_mean_rescale w s :
  (1 ≤ w)%nat → rolling_mean w (rs s) = rs (rolling_mean w s).
Proof.
  intros Hw. apply list_eq. intros i. unfold rolling_mean, rolling.
  rewrite list_lookup_fmap, !list_lookup_imap, list_lookup_fmap.
  destruct (s !! i) as [v |]; cbn; [| done].
  rewrite window_rescale, observations_rescale, length_fmap.
  destruct (decide _) as [| Hlen]; [done |]. cbn.
  rewrite rmean_rescale; [done |]. intros E. rewrite E in Hlen. cbn in Hlen. lia.
Qed.

Lemma rolling_std_rescale w s :
  (1 ≤ w)%nat → rolling_std w (rs s) = rs (rolling_std w s).
Proof.
  intros Hw. apply list_eq. intros i. unfold rolling_std, rolling.
  rewrite list_lookup_fmap, !list_lookup_imap, list_lookup_fmap.
  destruct (s !! i) as [v |]; cbn; [| done].
  rewrite window_rescale, observations_rescale, !length_fmap.
  destruct (decide _) as [| Hlen]; [done |].
  destruct (decide _) as [| Hone]; [done |]. cbn.
  rewrite ssd_rescale by (intros E; rewrite E in Hlen; cbn in Hlen; lia).
  do 2 f_equal.
  replace (k * k * ssd (observations (window w i s))
           / INR (length (observations (window w i s)) - 1))
    with (k * k * (ssd (observations (window w i s))
                   / INR (length (observations (window w i s)) - 1))).
  - rewrite sqrt_mult_alt by nra. rewrite sqrt_square by lra. done.
  - unfold Rdiv. lra.
Qed.

Lemma ewm_go_rescale alpha w o s :
  ewm_go alpha (rescale k w) o (rs s) = rs (ewm_go alpha w o s).
Proof.
  revert w o. induction s as [| cur s IH]; intros w o; [done |].
  cbn [fmap list_fmap ewm_go]. fold (rs s). rewrite !is_nan_rescale.
  destruct (is_nan w).
  { by rewrite IH. }
  destruct (is_nan cur).
  { by rewrite IH. }
  cbn zeta. rewrite !fmul_rescale_r, fadd_rescale, fdiv_rescale_l.
  cbn [fmap list_fmap]. by rewrite IH.
Qed.

Lemma ewm_mean_rescale span s : ewm_mean span (rs s) = rs (ewm_mean span s).
Proof.
  destruct s as [| x s]; [done |].
  cbn [fmap list_fmap ewm_mean]. fold (rs s). by rewrite ewm_go_rescale.
Qed.

Lemma macd_rescale c : macd_of (rs c) = rs (macd_of c).
Proof. unfold macd_of. by rewrite !ewm_mean_rescale, sub_rescale. Qed.

Lemma signal_rescale m : signal_of (rs m) = rs (signal_of m).
Proof. unfold signal_of. apply ewm_mean_rescale. Qed.

Lemma upper_band_rescale c :
  upper_band_of (rolling_mean 20 (rs c)) (rs c)
  = rs (upper_band_of (rolling_mean 20 c) c).
Proof.
  unfold upper_band_of.
  rewrite rolling_mean_rescale, rolling_std_rescale, scale_rescale, add_rescale by lia. done.
Qed.

Lemma lower_band_rescale c :
  lower_band_of (rolling_mean 20 (rs c)) (rs c)
  = rs (lower_band_of (rolling_mean 20 c) c).
Proof.
  unfold lower_band_of.
  rewrite rolling_mean_rescale, rolling_std_rescale, scale_rescale, sub_rescale by lia. done.
Qed.

Lemma bb_gap_rescale c : bb_gap_of (rs c) = rs (bb_gap_of c).
Proof. unfold bb_gap_of. by rewrite upper_band_rescale, lower_band_rescale, sub_rescale. Qed.

Lemma rsi_rescale c : rsi_of (rs c) = rsi_of c.
Proof.
  unfold rsi_of, gain_of, loss_of. cbn zeta.
  rewrite diff_rescale, where_gt0_rescale, where_lt0_rescale, neg_rescale.
  rewrite !rolling_mean_rescale by lia. by rewrite div_rescale.
Qed.

Lemma max_axis1_rescale a b c :
  max_axis1 (rs a) (rs b) (rs c) = rs (max_axis1 a b c).
Proof.
  unfold max_axis1. revert b c.
  induction a as [| x a IH]; intros [| y b] [| z c]; cbn; try done.
  rewrite <- IH. f_equal.
  unfold nanmax. cbn [foldr]. rewrite <- !fmax_rescale. done.
Qed.

Lemma true_range_rescale h l c :
  true_range_of (rs h) (rs l) (rs c) = rs (true_range_of h l c).
Proof.
  unfold true_range_of. cbn zeta.
  by rewrite shift_rescale, !sub_rescale, !abs_rescale, max_axis1_rescale.
Qed.

Lemma atr_rescale h l c : atr_series (rs h) (rs l) (rs c) = rs (atr_series h l c).
Proof. unfold atr_series. by rewrite true_range_rescale, rolling_mean_rescale by lia. Qed.

Lemma dropna_rescale s : dropna (rs s) = rs (dropna s).
Proof.
  unfold dropna. induction s as [| v s IH]; [done |].
  cbn [fmap list_fmap]. fold (rs s). rewrite !filter_cons, is_nan_rescale.
  destruct (decide _); cbn [fmap list_fmap]; by rewrite IH.
Qed.

Lemma foldl_fadd_rescale acc l :
  foldl fadd (rescale k acc) (rs l) = rescale k (foldl fadd acc l).
Proof.
  revert acc. induction l as [| v l IH]; intros acc; [done |].
  cbn [fmap list_fmap foldl]. fold (rs l). by rewrite fadd_rescale, IH.
Qed.

Lemma mean_rescale s : mean (rs s) = rescale k (mean s).
Proof.
  unfold mean, fsum. rewrite dropna_rescale, length_fmap.
  rewrite <- rescale_0 at 1. rewrite foldl_fadd_rescale. apply fdiv_rescale_l.
Qed.

Lemma lastv_rescale s : s ≠ [] → lastv (rs s) = rescale k (lastv s).
Proof.
  intros Hne. unfold lastv. rewrite fmap_last.
  destruct (last s) eqn:El; [done |]. by apply last_None in El.
Qed.

Lemma closes_rescale bars :
  Fin <$> (Close <$> (rescale_bar k <$> bars)) = rs (Fin <$> (Close <$> bars)).
Proof. rewrite <- !list_fmap_compose. by apply list_fmap_ext. Qed.

Lemma highs_rescale bars :
  Fin <$> (High <$> (rescale_bar k <$> bars)) = rs (Fin <$> (High <$> bars)).
Proof. rewrite <- !list_fmap_compose. by apply list_fmap_ext. Qed.

Lemma lows_rescale bars :
  Fin <$> (Low <$> (rescale_bar k <$> bars)) = rs (Fin <$> (Low <$> bars)).
Proof. rewrite <- !list_fmap_compose. by apply list_fmap_ext. Qed.

End Rescaling.

Section RescalingTheorem.
Import Float FloatFacts Py Pandas PandasFacts Analyzer AnalyzerFacts SharpeFacts Described.
Import Behaviour Samples.
Local Open Scope R_scope.

(** Quoting every price of a history in another unit (all of open, high,
    low and close times the same k > 0) leaves the ratios as they were and
    scales the prices: the average daily return, volatility, Sharpe ratio,
    RSI and both rates of change are the same, and the latest price, MACD,
    signal line, both bands, the average band gap and the ATR are k times
    what they were. *)
Theorem indicators_under_rescaling
    (stock : string) (bars : list PriceBar) (news : list NewsItem) (k : R) :
  0 < k →
  bars ≠ [] →
  ∃ res res' df df',
    analyze_stock (stock, mkStockData (frame_of_bars bars) news) = (Ok (stock, res), df) ∧
    analyze_stock (stock, mkStockData (frame_of_bars (rescale_bar k <$> bars)) news)
      = (Ok (stock, res'), df') ∧
    avg_daily_return res' = avg_daily_return res ∧
    volatility res' = volatility res ∧
    sharpe_ratio res' = sharpe_ratio res ∧
    rsi res' = rsi res ∧
    avg_roc res' = avg_roc res ∧
    latest_roc res' = latest_roc res ∧
    latest_price res' = rescale k (latest_price res) ∧
    macd res' = rescale k (macd res) ∧
    macd_signal res' = rescale k (macd_signal res) ∧
    upper_band res' = rescale k (upper_band res) ∧
    lower_band res' = rescale k (lower_band res) ∧
    avg_bb_gap res' = rescale k (avg_bb_gap res) ∧
    atr res' = rescale k (atr res).
Proof.
  intros Hk Hne.
  assert (rescale_bar k <$> bars ≠ []) as Hne' by (by destruct bars).
  eexists _, _, _, _.
  split; [by apply analyze_bars_ok |].
  split; [by apply analyze_bars_ok |].
  rewrite closes_rescale, highs_rescale, lows_rescale, length_fmap.
  set (c := Fin <$> (Close <$> bars)).
  set (h := Fin <$> (High <$> bars)).
  set (l := Fin <$> (Low <$> bars)).
  assert (c ≠ []) as Hc by (unfold c; by destruct bars).
  assert (length h = length c) as Lh by (unfold c, h; by rewrite !length_fmap).
  assert (length l = length c) as Ll by (unfold c, l; by rewrite !length_fmap).
  cbn [avg_daily_return volatility sharpe_ratio rsi avg_roc latest_roc latest_price
       macd macd_signal upper_band lower_band avg_bb_gap atr result_of].
  rewrite pct_change_rescale, rsi_rescale, roc_rescale by done.
  rewrite macd_rescale, signal_rescale, upper_band_rescale, lower_band_rescale,
    bb_gap_rescale, atr_rescale, mean_rescale by done.
  rewrite !lastv_rescale; try done.
  - apply nonempty_length. rewrite length_atr_series by done. by apply nonempty_length.
  - apply nonempty_length. rewrite length_lower_band_of. by apply nonempty_length.
  - apply nonempty_length. rewrite length_upper_band_of. by apply nonempty_length.
  - apply nonempty_length. rewrite length_signal_of, length_macd_of.
    by apply nonempty_length.
  - apply nonempty_length. rewrite length_macd_of. by apply nonempty_length.
Qed.

Lemma indicators_under_rescaling_witness :
  ∃ res res' df df',
    analyze_stock ("AAPL", mkStockData (frame_of_bars two_bars) []) = (Ok ("AAPL", res), df) ∧
    analyze_stock ("AAPL", mkStockData (frame_of_bars (rescale_bar 100 <$> two_bars)) [])
      = (Ok ("AAPL", res'), df') ∧
    avg_daily_return res' = avg_daily_return res ∧
    sharpe_ratio res' = sharpe_ratio res ∧
    latest_price res' = rescale 100 (latest_price res).
Proof.
  destruct (indicators_under_rescaling "AAPL" two_bars [] 100 ltac:(lra) ltac:(done))
    as (res & res' & df & df' & Hrun & Hrun' & Havg & _ & Hsharpe & _ & _ & _ & Hprice & _).
  by exists res, res', df, df'.
Defined.

End RescalingTheorem.
(** ** File names *)

Section FileNames.
Import Py Analyzer Report Behaviour.

Lemma list_ascii_of_string_app s t :
  String.list_ascii_of_string (s +:+ t)
  = String.list_ascii_of_string s ++ String.list_ascii_of_string t.
Proof.
  induction s as [| c s IH]; [done |].
  change (String c s +:+ t) with (String c (s +:+ t)).
  cbn [String.list_ascii_of_string]. by rewrite IH.
Qed.

Lemma backwards_app s t : backwards (s +:+ t) = backwards t ++ backwards s.
Proof. unfold backwards. by rewrite list_ascii_of_string_app, reverse_app. Qed.

Lemma backwards_inj s t : backwards s = backwards t → s = t.
Proof.
  unfold backwards. intros H. apply (inj reverse) in H.
  rewrite <- (String.string_of_list_ascii_of_string s), <- (String.string_of_list_ascii_of_string t).
  by rewrite H.
Qed.

(** Two names with the same ending are equal only if what precedes it is. *)
Lemma append_inj_l s s' t : s +:+ t = s' +:+ t → s = s'.
Proof.
  intros H. apply backwards_inj. apply (f_equal backwards) in H.
  rewrite !backwards_app in H. by apply (inj (app (backwards t))) in H.
Qed.

Lemma price_chart_inj s s' : price_chart s = price_chart s' → s = s'.
Proof. apply append_inj_l. Qed.

Lemma macd_chart_inj s s' : macd_chart s = macd_chart s' → s = s'.
Proof. apply append_inj_l. Qed.

Lemma stock_pdf_inj s s' : stock_pdf s = stock_pdf s' → s = s'.
Proof.
  unfold stock_pdf. intros H. apply (inj (String.append _)) in H. by apply append_inj_l in H.
Qed.

Lemma stock_pdf_complete s : stock_pdf s = merged_pdf ↔ s = "complete".
Proof.
  split; [| by intros ->].
  change merged_pdf with (stock_pdf "complete"). apply stock_pdf_inj.
Qed.

Ltac endings H :=
  apply (f_equal backwards) in H;
  unfold price_chart, macd_chart, stock_pdf, merged_pdf, txt_file in H;
  rewrite ?backwards_app in H;
  cbn [backwards String.list_ascii_of_string reverse rev_append app] in H;
  discriminate H.

Lemma price_chart_not_macd_chart s s' : price_chart s ≠ macd_chart s'.
Proof. intros H. endings H. Qed.

Lemma price_chart_not_pdf s s' : price_chart s ≠ stock_pdf s'.
Proof. intros H. endings H. Qed.

Lemma macd_chart_not_pdf s s' : macd_chart s ≠ stock_pdf s'.
Proof. intros H. endings H. Qed.

Lemma price_chart_not_merged s : price_chart s ≠ merged_pdf.
Proof. intros H. endings H. Qed.

Lemma macd_chart_not_merged s : macd_chart s ≠ merged_pdf.
Proof. intros H. endings H. Qed.

End FileNames.
(** ** What the PDF report leaves on disk *)

Section PdfFootprint.
Import Py Analyzer Report Behaviour Samples.

Lemma add_charts_split fault stock (fs : Files) temps :
  _add_charts_to_pdf fault stock (fs, temps)
  = (charts_written fault stock ∪ fs, temps ++ charts_registered fault stock).
Proof.
  unfold charts_written, charts_registered, _add_charts_to_pdf.
  destruct fault; cbn [fst snd]; rewrite ?app_nil_r, ?(right_id_L ∅ (∪)), ?(left_id_L ∅ (∪)),
    ?(assoc_L (∪)); done.
Qed.

Lemma render_page_state faults st item :
  render_page faults st item
  = mkPdfState ({[stock_pdf item.1]} ∪ (charts_written (faults item.1) item.1 ∪ files st))
      (pdf_files st ++ [stock_pdf item.1])
      (chart_files st ++ charts_registered (faults item.1) item.1).
Proof. unfold render_page. by rewrite add_charts_split. Qed.

Lemma render_pages_state faults items st0 :
  let st := foldl (render_page faults) st0 items in
  (∀ f, f ∈ files st ↔
     f ∈ files st0 ∨
     ∃ item, item ∈ items ∧
       (f = stock_pdf item.1 ∨ f ∈ charts_written (faults item.1) item.1)) ∧
  (∀ f, f ∈ chart_files st ↔
     f ∈ chart_files st0 ∨
     ∃ item, item ∈ items ∧ f ∈ charts_registered (faults item.1) item.1).
Proof.
  revert st0. induction items as [| item items IH]; intros st0; cbn [foldl].
  - split; intros f; (split; [by left |]).
    + intros [? | (item & Hin & _)]; [done |]. by apply not_elem_of_nil in Hin.
    + intros [? | (item & Hin & _)]; [done |]. by apply not_elem_of_nil in Hin.
  - destruct (IH (render_page faults st0 item)) as [Hfiles Hcharts].
    split; intros f.
    + rewrite Hfiles, render_page_state. cbn [files].
      rewrite !elem_of_union, elem_of_singleton. setoid_rewrite elem_of_cons.
      split.
      * intros [[? | [? | ?]] | (item' & Hin & H)]; eauto 6.
      * intros [? | (item' & [-> | Hin] & [? | ?])]; eauto 6.
    + rewrite Hcharts, render_page_state. cbn [chart_files].
      rewrite elem_of_app. setoid_rewrite elem_of_cons.
      split.
      * intros [[? | ?] | (item' & Hin & H)]; eauto 6.
      * intros [? | (item' & [-> | Hin] & ?)]; eauto 6.
Qed.

(** The files on disk when [_generate_pdf_report] returns. *)
Lemma pdf_report_files faults (analyzed_clues : gmap string IndicatorResult) (fs : Files) :
  ∃ fs',
    _generate_pdf_report faults analyzed_clues fs = (Ok (mkOutput merged_pdf []), fs') ∧
    ∀ f, f ∈ fs' ↔
      (f = merged_pdf ∨ f ∈ fs ∨
       ∃ s, s ∈ dom analyzed_clues ∧ (f = stock_pdf s ∨ f ∈ charts_written (faults s) s)) ∧
      (∀ s, s ∈ dom analyzed_clues →
         f ≠ stock_pdf s ∧ f ∉ charts_registered (faults s) s).
Proof.
  unfold _generate_pdf_report, _merge_pdf_files.
  rewrite bool_decide_eq_true_2 by (apply elem_of_union_l; by apply elem_of_singleton).
  eexists. split; [done |]. intros f.
  destruct (render_pages_from faults (map_to_list analyzed_clues) (mkPdfState fs [] []))
    as (Hpdf & _ & _).
  destruct (render_pages_state faults (map_to_list analyzed_clues) (mkPdfState fs [] []))
    as (Hfiles & Hcharts).
  fold (render_pages faults analyzed_clues fs) in Hpdf, Hfiles, Hcharts.
  cbn [pdf_files files chart_files app] in Hpdf, Hfiles, Hcharts.
  assert (∀ (P : string → Prop),
            (∃ item : string * IndicatorResult, item ∈ map_to_list analyzed_clues ∧ P item.1)
            ↔ ∃ s, s ∈ dom analyzed_clues ∧ P s) as Hitems.
  { intros P. split.
    - intros ([s r] & Hin & HP). exists s. split; [| done].
      apply elem_of_map_to_list in Hin. by apply elem_of_dom_2 in Hin.
    - intros (s & [r Hr]%elem_of_dom & HP). exists (s, r). split; [| done].
      by apply elem_of_map_to_list. }
  rewrite elem_of_cleanup, elem_of_union, elem_of_singleton, Hfiles, elem_of_app, Hcharts, Hpdf.
  rewrite (Hitems (λ s, f = stock_pdf s ∨ f ∈ charts_written (faults s) s)).
  rewrite (Hitems (λ s, f ∈ charts_registered (faults s) s)).
  rewrite list_elem_of_fmap.
  split.
  - intros [Hin Hout]. split; [tauto |]. intros s Hs. split.
    + intros ->. apply Hout. left. apply elem_of_dom in Hs as [r Hr].
      exists s. split; [done |]. apply list_elem_of_fmap. exists (s, r).
      split; [done | by apply elem_of_map_to_list].
    + intros Hreg. apply Hout. right. right. eauto.
  - intros [Hin Hout]. split; [tauto |].
    intros [(s & -> & Hs) | [Hnil | (s & Hs & Hreg)]].
    + apply list_elem_of_fmap in Hs as ([s' r] & -> & Hin').
      apply elem_of_map_to_list, elem_of_dom_2 in Hin'.
      destruct (Hout s' Hin') as [Hne _]. by apply Hne.
    + by apply elem_of_nil in Hnil.
    + destruct (Hout s Hs) as [_ Hnr]. by apply Hnr.
Qed.

End PdfFootprint.

Section PdfFootprintTheorems.
Import Py Analyzer Report Behaviour Samples.

Lemma charts_registered_leak fault s f :
  f ∈ charts_written fault s → f ∉ charts_registered fault s →
  (f = price_chart s ∧ fault = PriceImageFails) ∨ (f = macd_chart s ∧ fault = MacdImageFails).
Proof.
  unfold charts_written, charts_registered, _add_charts_to_pdf.
  destruct fault; cbn [fst snd app];
    rewrite ?elem_of_union, ?elem_of_singleton, ?not_elem_of_cons, ?elem_of_empty;
    intros Hw Hr; intuition (auto; try done).
Qed.

Lemma charts_registered_name fault s f :
  f ∈ charts_registered fault s →
  (f = price_chart s ∧ fault ≠ PriceImageFails ∧ fault ≠ PriceChartFails)
  ∨ (f = macd_chart s ∧ fault = NoFault).
Proof.
  unfold charts_registered, _add_charts_to_pdf.
  destruct fault; cbn [fst snd app]; rewrite ?elem_of_cons, ?elem_of_nil;
    intros H; intuition (auto; try done).
Qed.

Lemma merged_pdf_on_disk faults (analyzed_clues : gmap string IndicatorResult) (fs : Files) :
  ∃ fs',
    _generate_pdf_report faults analyzed_clues fs = (Ok (mkOutput merged_pdf []), fs') ∧
    (merged_pdf ∈ fs' ↔ "complete" ∉ dom analyzed_clues).
Proof.
  destruct (pdf_report_files faults analyzed_clues fs) as (fs' & Hrun & Hfs).
  exists fs'. split; [exact Hrun |]. rewrite Hfs. split.
  - intros [_ Hout] Hin. destruct (Hout _ Hin) as [Hne _]. by apply Hne.
  - intros Hnin. split; [by left |]. intros s Hs. split.
    + intros Heq. symmetry in Heq. apply stock_pdf_complete in Heq. by subst s.
    + intros Hreg. apply charts_registered_name in Hreg as [[Heq _] | [Heq _]].
      * symmetry in Heq. by apply price_chart_not_merged in Heq.
      * symmetry in Heq. by apply macd_chart_not_merged in Heq.
Qed.

(** The merged PDF is written under a fixed name, which is also the name of
    the per-ticker PDF of a ticker called "complete"; the per-ticker PDFs
    are deleted after the merge.  So the file whose name compile_case_file
    returns for a PDF report is there when it returns exactly if no analysed
    ticker is called "complete". *)
Theorem merged_report_survives_cleanup
    (faults : string → chart_fault) (analyzed_clues : gmap string IndicatorResult)
    (fs : Files) :
  ∃ out fs',
    compile_case_file faults analyzed_clues "pdf" fs = (Ok out, fs') ∧
    output_file out = "financial_case_file_complete.pdf" ∧
    (output_file out ∈ fs' ↔ "complete" ∉ dom analyzed_clues) ∧
    ("complete" ∈ dom analyzed_clues →
       stock_pdf "complete" = output_file out ∧ stock_pdf "complete" ∉ fs').
Proof.
  destruct (merged_pdf_on_disk faults analyzed_clues fs) as (fs' & Hrun & Hfs).
  exists (mkOutput merged_pdf []), fs'. cbn [output_file].
  split_and!; [exact Hrun | done | exact Hfs |].
  intros Hin. split; [done |]. change (stock_pdf "complete") with merged_pdf.
  rewrite Hfs. tauto.
Qed.

(** What a PDF report leaves on disk besides the merged file.  A file that
    was there before and has the name of no intermediate file of an analysed
    ticker is still there.  Nothing else is there, except for chart images
    that were saved but could not be embedded into the page: such an image
    was never registered for cleanup, and stays. *)
Theorem pdf_report_footprint
    (faults : string → chart_fault) (analyzed_clues : gmap string IndicatorResult)
    (fs : Files) :
  ∃ out fs',
    compile_case_file faults analyzed_clues "pdf" fs = (Ok out, fs') ∧
    (∀ f, f ∈ fs →
       (∀ s, s ∈ dom analyzed_clues →
          f ≠ stock_pdf s ∧ f ≠ price_chart s ∧ f ≠ macd_chart s) →
       f ∈ fs') ∧
    (∀ f, f ∈ fs' →
       f = output_file out ∨ f ∈ fs ∨
       ∃ s, s ∈ dom analyzed_clues ∧
         ((f = price_chart s ∧ faults s = PriceImageFails)
          ∨ (f = macd_chart s ∧ faults s = MacdImageFails))) ∧
    (∀ s, s ∈ dom analyzed_clues →
       (faults s = PriceImageFails → price_chart s ∈ fs') ∧
       (faults s = MacdImageFails → macd_chart s ∈ fs' ∧ (price_chart s ∉ fs')) ∧
       (faults s = NoFault → (macd_chart s ∉ fs') ∧ (price_chart s ∉ fs'))).
Proof.
  destruct (pdf_report_files faults analyzed_clues fs) as (fs' & Hrun & Hfs).
  exists (mkOutput merged_pdf []), fs'.
  split; [exact Hrun |]. cbn [output_file]. split_and!.
  - intros f Hf Hother. apply Hfs. split; [auto |]. intros s Hs.
    destruct (Hother s Hs) as (Hpdf & Hprice & Hmacd). split; [done |].
    intros Hreg. apply charts_registered_name in Hreg as [[? _] | [? _]]; done.
  - intros f [Hin Hout]%Hfs. destruct Hin as [? | [? | (s & Hs & Hf)]]; [by left | auto |].
    destruct (Hout s Hs) as [Hpdf Hreg]. destruct Hf as [? | Hw]; [done |].
    right. right. exists s. split; [done |]. by apply charts_registered_leak.
  - intros s Hs.
    assert (∀ s' f, f ∈ charts_registered (faults s') s' →
              (f = price_chart s → s' = s ∧ faults s ≠ PriceImageFails
                                   ∧ faults s ≠ PriceChartFails) ∧
              (f = macd_chart s → s' = s ∧ faults s = NoFault)) as Hnames.
    { intros s' f [(-> & Hf1 & Hf2) | [-> Hf]]%charts_registered_name; split; intros Heq.
      - apply price_chart_inj in Heq. by subst s'.
      - by apply price_chart_not_macd_chart in Heq.
      - symmetry in Heq. by apply price_chart_not_macd_chart in Heq.
      - apply macd_chart_inj in Heq. by subst s'. }
    split_and!.
    + intros Hfault. apply Hfs. split.
      * right. right. exists s. split; [done |]. right.
        unfold charts_written. rewrite Hfault. cbn [_add_charts_to_pdf fst].
        by apply elem_of_union_l, elem_of_singleton.
      * intros s' Hs'. split; [apply price_chart_not_pdf |].
        intros Hreg. destruct (Hnames _ _ Hreg) as [Hn _].
        destruct Hn as (_ & Hn & _); done.
    + intros Hfault. split.
      * apply Hfs. split.
        -- right. right. exists s. split; [done |]. right.
           unfold charts_written. rewrite Hfault. cbn [_add_charts_to_pdf fst].
           by apply elem_of_union_l, elem_of_singleton.
        -- intros s' Hs'. split; [apply macd_chart_not_pdf |].
           intros Hreg. destruct (Hnames _ _ Hreg) as [_ Hn].
           destruct Hn as (_ & Hn); [done |]. congruence.
      * intros [_ Hout]%Hfs. destruct (Hout s Hs) as [_ Hreg]. apply Hreg.
        unfold charts_registered. rewrite Hfault. cbn [_add_charts_to_pdf snd app].
        rewrite elem_of_cons. by left.
    + intros Hfault. split.
      * intros [_ Hout]%Hfs. destruct (Hout s Hs) as [_ Hreg]. apply Hreg.
        unfold charts_registered. rewrite Hfault. cbn [_add_charts_to_pdf snd app].
        rewrite !elem_of_cons. auto.
      * intros [_ Hout]%Hfs. destruct (Hout s Hs) as [_ Hreg]. apply Hreg.
        unfold charts_registered. rewrite Hfault. cbn [_add_charts_to_pdf snd app].
        rewrite elem_of_cons. by left.
Qed.

End PdfFootprintTheorems.
(** ** The four stages in a row *)

Section WholeRun.
Import Float Py Pandas Analyzer AnalyzerFacts Config Gatherer Report Main Described Behaviour.

Lemma collect_evidence_result p now stocks start_date end_date :
  let good := filter (yields p now start_date end_date) stocks in
  (good = [] →
     (collect_evidence p now stocks start_date end_date).1
       = Raise (Exception "No data could be retrieved for any of the stocks.")) ∧
  (good ≠ [] →
     ∃ evidence,
       (collect_evidence p now stocks start_date end_date).1 = Ok evidence ∧
       dom evidence = list_to_set good ∧
       ∀ s sd, evidence !! s = Some sd → fetch p now start_date end_date s = Ok sd).
Proof.
  intros good. unfold collect_evidence.
  pose proof (gather_dom p now start_date end_date stocks) as Hdom. fold good in Hdom.
  pose proof (gather_values p now start_date end_date stocks ∅ []) as Hval.
  destruct (foldl (gather_step p now start_date end_date) (∅, []) stocks) as [locker log].
  cbn [fst] in Hdom, Hval. split.
  - intros Hgood. rewrite Hgood in Hdom. cbn in Hdom.
    by rewrite bool_decide_eq_true_2.
  - intros Hgood. rewrite bool_decide_eq_false_2.
    + exists locker. split_and!; [done | done |].
      intros s sd Hs. destruct (Hval s sd Hs) as [H | H]; [| done].
      by rewrite lookup_empty in H.
    + rewrite Hdom. destruct good as [| g good']; [done |]. cbn. intros E.
      assert (g ∈ (∅ : gset string)) as H; [| by apply elem_of_empty in H].
      rewrite <- E. by apply elem_of_union_l, elem_of_singleton.
Qed.

Lemma cleanup_nothing (fs : Files) : _cleanup_temp_files [] fs = fs.
Proof. done. Qed.

(** After validation the report format is one compile_case_file supports. *)
Lemma validated_format w config :
  validate_config config = Ok tt →
  text (default_dates w config !! "report_format") = "pdf"
  ∨ text (default_dates w config !! "report_format") = "txt".
Proof.
  intros Hv. apply validate_config_accepts in Hv as (_ & _ & Hf).
  assert (default_dates w config !! "report_format" = config !! "report_format") as ->.
  { unfold default_dates.
    repeat (destruct (unset _ _); rewrite ?lookup_insert_ne by done); done. }
  destruct Hf as [-> | ->]; auto.
Qed.

End WholeRun.

Section WholeRunTheorem.
Import Float Py Pandas Analyzer AnalyzerFacts Config Gatherer Report Main Described Behaviour.
Import Samples.

(** How a run ends on a configuration that passes validation, with a
    provider whose frames have High, Low and Close columns of one entry per
    row.  It fails, writing nothing, when no ticker yields data.  Otherwise a
    text report succeeds and adds the text file to the disk.  A PDF report
    succeeds, with the merged file on disk, unless one of the tickers that
    yield data is called "complete": then the merged file has been deleted
    with the per-ticker files and the run fails at the check of its output
    file. *)
Theorem investigate_finances_outcome (w : World) (config : gmap string yaml) (fs : Files) :
  validate_config config = Ok tt →
  let case_details := default_dates w config in
  let stocks := tickers (case_details !! "stocks") in
  let start_date := text (case_details !! "start_date") in
  let end_date := text (case_details !! "end_date") in
  let format := text (case_details !! "report_format") in
  let good := filter (yields (provider w) (now w) start_date end_date) stocks in
  (∀ s df, history (provider w) s start_date end_date = Ok df → provider_frame df) →
  (format = "pdf" ∨ format = "txt") ∧
  (good = [] → investigate_finances w config fs = (false, fs)) ∧
  (good ≠ [] → format = "txt" →
     investigate_finances w config fs = (true, {[txt_file]} ∪ fs)) ∧
  (good ≠ [] → format = "pdf" → "complete" ∉ good →
     ∃ fs', investigate_finances w config fs = (true, fs') ∧ merged_pdf ∈ fs') ∧
  (good ≠ [] → format = "pdf" → "complete" ∈ good →
     ∃ fs', investigate_finances w config fs = (false, fs') ∧ merged_pdf ∉ fs').
Proof.
  intros Hv case_details stocks start_date end_date format good Hprov.
  split; [by apply validated_format |].
  assert (configure w config = Ok case_details) as Hc.
  { unfold configure, load_config. by rewrite Hv. }
  destruct (collect_evidence_result (provider w) (now w) stocks start_date end_date)
    as [Hnone Hsome].
  fold good in Hnone, Hsome.
  split.
  { intros Hgood. unfold investigate_finances, investigation. rewrite Hc.
    fold case_details stocks start_date end_date. by rewrite (Hnone Hgood). }
  assert (good ≠ [] →
          ∃ evidence analyzed,
            (collect_evidence (provider w) (now w) stocks start_date end_date).1 = Ok evidence ∧
            analyze_clues evidence = Ok analyzed ∧
            dom analyzed = list_to_set good) as Hstages.
  { intros Hgood. destruct (Hsome Hgood) as (evidence & Hrun & Hdom & Hfetch).
    destruct (analyze_clues_by_ticker_total evidence) as (analyzed & Ha & Hd).
    - intros s sd Hs. apply Hfetch, fetch_Ok in Hs as [Hh He].
      apply provider_frame_analysable; [| done]. by eapply Hprov.
    - exists evidence, analyzed. split_and!; [done | done | congruence]. }
  split_and!.
  - intros Hgood Hfmt. destruct (Hstages Hgood) as (evidence & analyzed & Hrun & Ha & _).
    unfold investigate_finances, investigation. rewrite Hc.
    fold case_details stocks start_date end_date format. rewrite Hrun, Ha, Hfmt.
    unfold compile_case_file. cbn [String.eqb Ascii.eqb Bool.eqb].
    unfold _generate_txt_report. cbn [output_file temp_files].
    rewrite bool_decide_eq_true_2; [done |]. by apply elem_of_union_l, elem_of_singleton.
  - intros Hgood Hfmt Hnc.
    destruct (Hstages Hgood) as (evidence & analyzed & Hrun & Ha & Hd).
    destruct (merged_pdf_on_disk (chart_faults w) analyzed fs) as (fs' & Hpdf & Hon).
    assert (merged_pdf ∈ fs') as Hin.
    { apply Hon. rewrite Hd, elem_of_list_to_set. done. }
    exists fs'. split; [| done].
    unfold investigate_finances, investigation. rewrite Hc.
    fold case_details stocks start_date end_date format. rewrite Hrun, Ha, Hfmt.
    unfold compile_case_file. cbn [String.eqb Ascii.eqb Bool.eqb]. rewrite Hpdf.
    cbn [output_file temp_files]. by rewrite bool_decide_eq_true_2.
  - intros Hgood Hfmt Hcomplete.
    destruct (Hstages Hgood) as (evidence & analyzed & Hrun & Ha & Hd).
    destruct (merged_pdf_on_disk (chart_faults w) analyzed fs) as (fs' & Hpdf & Hon).
    assert (merged_pdf ∉ fs') as Hnin.
    { rewrite Hon, Hd, elem_of_list_to_set. tauto. }
    exists fs'. split; [| done].
    unfold investigate_finances, investigation. rewrite Hc.
    fold case_details stocks start_date end_date format. rewrite Hrun, Ha, Hfmt.
    unfold compile_case_file. cbn [String.eqb Ascii.eqb Bool.eqb]. rewrite Hpdf.
    cbn [output_file temp_files]. by rewrite bool_decide_eq_false_2.
Qed.

End WholeRunTheorem.

Section WholeRunExample.
Import Float Py Pandas Analyzer Config Gatherer Report Main Described Behaviour Samples.

Lemma sample_provider_yields now start_date end_date s :
  yields sample_provider now start_date end_date s = true.
Proof.
  unfold yields, fetch. cbn [sample_provider history news].
  by rewrite frame_of_bars_not_empty.
Qed.

Lemma investigate_finances_outcome_witness :
  ∃ fs', investigate_finances sample_world config_with_blank_dates ∅ = (true, fs')
         ∧ merged_pdf ∈ fs'.
Proof.
  assert (validate_config config_with_blank_dates = Ok tt) as Hv by reflexivity.
  assert (tickers (default_dates sample_world config_with_blank_dates !! "stocks")
          = ["AAPL"; "MSFT"]) as Hstocks by reflexivity.
  assert (text (default_dates sample_world config_with_blank_dates !! "report_format")
          = "pdf") as Hfmt by reflexivity.
  destruct (investigate_finances_outcome sample_world config_with_blank_dates ∅ Hv)
    as (_ & _ & _ & Hpdf & _).
  { intros s df [= <-]. apply frame_of_bars_provider_frame. }
  rewrite Hstocks in Hpdf.
  rewrite !filter_cons, !sample_provider_yields, filter_nil in Hpdf.
  rewrite !decide_True in Hpdf by done.
  apply Hpdf; [done | exact Hfmt |].
  rewrite !not_elem_of_cons. split_and!; [done | done | apply not_elem_of_nil].
Defined.

End WholeRunExample.
(** ** Returns compound to the price change *)

Section Compounding.
Import Float FloatFacts Py Pandas PandasFacts Analyzer AnalyzerFacts SharpeFacts Described.
Import Spec Behaviour Samples.
Local Open Scope R_scope.

Lemma growth_telescopes p xs :
  Forall (λ c, c ≠ 0) (p :: xs) →
  p * rprod (growth (real_returns_from p xs)) = default p (last xs).
Proof.
  revert p. induction xs as [| x xs IH]; intros p Hnz.
  - cbn. lra.
  - apply Forall_cons in Hnz as [Hp Hnz].
    change (real_returns_from p (x :: xs))
      with ((x - p) / p :: real_returns_from x xs).
    unfold growth. rewrite fmap_cons. fold (growth (real_returns_from x xs)).
    unfold rprod. cbn [foldr]. fold (rprod (growth (real_returns_from x xs))).
    specialize (IH x Hnz).
    replace (default p (last (x :: xs))) with (default x (last xs))
      by (rewrite last_cons; by destruct (last xs)).
    rewrite <- IH. field. done.
Qed.

Lemma real_returns_from_lookup p xs t r :
  real_returns_from p xs !! t = Some r →
  ∃ prev x, (p :: xs) !! t = Some prev ∧ xs !! t = Some x ∧ r = (x - prev) / prev.
Proof.
  revert p t. induction xs as [| x xs IH]; intros p t; [done |].
  destruct t as [| t]; cbn.
  - intros [= <-]. eauto.
  - intros H. apply IH in H as (prev & y & H1 & H2 & ->). eauto.
Qed.

(** The Daily Return column of a history whose closes are not 0: NaN in the
    first row, then the simple return of each bar on the bar before.  The
    returns compound to the price change over the history: the first close
    times the product of the factors 1 + r is the last close, which is the
    reported latest price. *)
Theorem daily_returns_compound
    (stock : string) (b0 : PriceBar) (rest : list PriceBar) (news : list NewsItem) :
  let bars := b0 :: rest in
  Forall (λ b, Close b ≠ 0) bars →
  ∃ res df' returns,
    analyze_stock (stock, mkStockData (frame_of_bars bars) news) = (Ok (stock, res), df') ∧
    columns (result_price_data res) !! "Daily Return" = Some (NaN :: (Fin <$> returns)) ∧
    length returns = length rest ∧
    (∀ t r, returns !! t = Some r →
       ∃ prev x, (Close <$> bars) !! t = Some prev ∧ (Close <$> bars) !! S t = Some x ∧
                 r = (x - prev) / prev) ∧
    latest_price res = Fin (Close b0 * rprod (growth returns)).
Proof.
  intros bars Hnz.
  assert (Forall (λ c, c ≠ 0) (Close b0 :: (Close <$> rest))) as Hc.
  { change (Close b0 :: (Close <$> rest)) with (Close <$> bars). by apply Forall_fmap. }
  eexists _, _, (real_returns_from (Close b0) (Close <$> rest)).
  split; [by apply analyze_bars_ok |].
  cbn [result_price_data result_of charted_frame columns latest_price].
  split_and!.
  - rewrite lookup_insert_ne by done. rewrite lookup_insert_eq.
    subst bars. rewrite (fmap_cons Close), pct_change_closes.
    by rewrite returns_from_nonzero.
  - by rewrite length_real_returns_from, length_fmap.
  - intros t r Hr. apply real_returns_from_lookup in Hr as (prev & x & H1 & H2 & ->).
    exists prev, x. done.
  - rewrite growth_telescopes by done.
    unfold lastv. subst bars. rewrite !fmap_last, last_cons.
    by destruct (last rest).
Qed.

Lemma daily_returns_compound_witness :
  ∃ res df' returns,
    analyze_stock ("AAPL", mkStockData (frame_of_bars two_bars) []) = (Ok ("AAPL", res), df') ∧
    columns (result_price_data res) !! "Daily Return" = Some (NaN :: (Fin <$> returns)) ∧
    length returns = 1%nat ∧
    latest_price res = Fin (100 * rprod (growth returns)).
Proof.
  destruct (daily_returns_compound "AAPL" (mkBar 100 101 99 100 1000)
              [mkBar 100 103 100 102 1200] [])
    as (res & df' & returns & Hrun & Hcol & Hlen & _ & Hlast).
  { repeat constructor; cbn; lra. }
  by exists res, df', returns.
Defined.

End Compounding.
(** ** Analysing a frame twice *)

Section Idempotence.
Import Float Py Pandas PandasFacts Analyzer AnalyzerFacts Described Samples.

Lemma analyzed_columns_source close cols name :
  name ∉ derived_columns →
  analyzed_columns close cols !! name = cols !! name.
Proof.
  intros Hn. unfold analyzed_columns, derived_columns in *.
  rewrite !not_elem_of_cons in Hn. destruct Hn as (? & ? & ? & ? & ? & ? & ? & _).
  by rewrite !lookup_insert_ne by done.
Qed.

Lemma analyzed_columns_twice close cols :
  analyzed_columns close (analyzed_columns close cols) = analyzed_columns close cols.
Proof.
  apply map_eq. intros name. unfold analyzed_columns.
  repeat match goal with
  | |- context [<[?key := _]> _ !! name] =>
      destruct (decide (key = name)) as [<- |];
      [ by rewrite ?lookup_insert_eq; repeat (rewrite lookup_insert_ne by done);
           rewrite ?lookup_insert_eq
      | rewrite !(lookup_insert_ne _ key name) by done ]
  end.
  done.
Qed.

(** analyze_stock reads only the Close, High and Low columns and overwrites
    the columns it derives, so analysing the frame it has already analysed
    changes nothing: the second call returns the same indicators and leaves
    the frame as the first call left it. *)
Theorem analyze_stock_idempotent (stock : string) (sd : StockData) :
  analysable (price_data sd) →
  ∃ res df',
    analyze_stock (stock, sd) = (Ok (stock, res), df') ∧
    analyze_stock (stock, mkStockData df' (news_data sd)) = (Ok (stock, res), df').
Proof.
  intros (c & h & l & Hc & Hh & Hl & Hne & Lh & Ll).
  exists (result_of (nrows (price_data sd)) c h l),
    (mkFrame (nrows (price_data sd)) (analyzed_columns c (columns (price_data sd)))).
  split.
  - unfold analyze_stock. by rewrite (analyze_frame_ok _ c h l).
  - unfold analyze_stock. cbn [price_data].
    rewrite (analyze_frame_ok _ c h l); try done.
    + cbn [nrows columns]. by rewrite analyzed_columns_twice.
    + cbn [columns]. rewrite analyzed_columns_source; [done |].
      unfold derived_columns. rewrite !not_elem_of_cons. split_and!; [done.. |].
      apply not_elem_of_nil.
    + cbn [columns]. rewrite analyzed_columns_source; [done |].
      unfold derived_columns. rewrite !not_elem_of_cons. split_and!; [done.. |].
      apply not_elem_of_nil.
    + cbn [columns]. rewrite analyzed_columns_source; [done |].
      unfold derived_columns. rewrite !not_elem_of_cons. split_and!; [done.. |].
      apply not_elem_of_nil.
Qed.

Lemma analyze_stock_idempotent_witness :
  ∃ res df',
    analyze_stock ("AAPL", mkStockData (frame_of_bars two_bars) []) = (Ok ("AAPL", res), df') ∧
    analyze_stock ("AAPL", mkStockData df' []) = (Ok ("AAPL", res), df').
Proof.
  apply (analyze_stock_idempotent "AAPL" (mkStockData (frame_of_bars two_bars) [])).
  by apply frame_of_bars_analysable.
Defined.

End Idempotence.

(** ** The order of the tickers *)

Section TickerOrder.
Import Py Pandas Analyzer Gatherer Described Behaviour.



End TickerOrder.
(** ** Loading the configuration file *)

Section ConfigFileFacts.
Import Py Config ConfigFile Samples.

Lemma try_encodings_returns read remaining log config :
  (try_encodings read remaining log).1 = inr config ↔
  ∃ skipped encoding rest,
    remaining = skipped ++ encoding :: rest ∧
    Forall (λ enc, read enc = Undecodable) skipped ∧
    read encoding = Parsed config ∧
    validate_config config = Ok tt.
Proof.
  revert log. induction remaining as [| enc remaining IH]; intros log.
  - cbn. split; [done |]. intros (skipped & ? & ? & H & _). by destruct skipped.
  - cbn [try_encodings]. destruct (read enc) as [| | e | parsed] eqn:Er.
    + rewrite IH. split.
      * intros (skipped & encoding & rest & -> & Hs & Hr & Hv).
        exists (enc :: skipped), encoding, rest. split_and!; try done. by constructor.
      * intros (skipped & encoding & rest & Heq & Hs & Hr & Hv).
        destruct skipped as [| enc' skipped]; cbn in Heq; injection Heq as <- ->.
        { congruence. }
        apply Forall_cons in Hs as [_ Hs]. eauto 8.
    + cbn. split; [done |]. intros (skipped & encoding & rest & Heq & Hs & Hr & Hv).
      destruct skipped as [| enc' skipped]; cbn in Heq; injection Heq as <- ->.
      * congruence.
      * apply Forall_cons in Hs as [Hs _]. congruence.
    + cbn. split; [done |]. intros (skipped & encoding & rest & Heq & Hs & Hr & Hv).
      destruct skipped as [| enc' skipped]; cbn in Heq; injection Heq as <- ->.
      * congruence.
      * apply Forall_cons in Hs as [Hs _]. congruence.
    + destruct (validate_config parsed) as [[] | e] eqn:Ev; cbn.
      * split.
        -- intros [= <-]. exists [], enc, remaining. split_and!; try done.
        -- intros (skipped & encoding & rest & Heq & Hs & Hr & Hv).
           destruct skipped as [| enc' skipped]; cbn in Heq; injection Heq as <- ->.
           ++ congruence.
           ++ apply Forall_cons in Hs as [Hs _]. congruence.
      * split; [done |]. intros (skipped & encoding & rest & Heq & Hs & Hr & Hv).
        destruct skipped as [| enc' skipped]; cbn in Heq; injection Heq as <- ->.
        -- congruence.
        -- apply Forall_cons in Hs as [Hs _]. congruence.
Qed.

Lemma try_encodings_exhausted read remaining log :
  Forall (λ enc, read enc = Undecodable) remaining →
  try_encodings read remaining log
  = (inl (Error (ValueError
                   "Unable to read the config file with any of the attempted encodings.")),
     log ++ (DecodeFailed <$> remaining) ++ [AllFailed]).
Proof.
  intros Hall. revert log. induction Hall as [| enc remaining Henc _ IH]; intros log; [done |].
  cbn [try_encodings]. rewrite Henc, IH, fmap_cons, <- !app_assoc. done.
Qed.

(** What load_config returns has passed validate_config, and was read in the
    first of the encodings utf-8, iso-8859-1, windows-1252 in which the file
    decodes: the four keys are there, the stocks are a non-empty list and the
    report format is pdf or txt.  A file that decodes in an encoding but does
    not pass there is not tried in the next one.  When the file decodes in
    none of the three, load_config raises ValueError, having logged each
    failure. *)
Theorem load_config_returns_validated (read : string → reading) :
  (∀ config, (load_config read).1 = inr config →
     validate_config config = Ok tt ∧
     (∀ key, key ∈ ["stocks"; "start_date"; "end_date"; "report_format"] →
        is_Some (config !! key)) ∧
     (∃ item items, config !! "stocks" = Some (YList (item :: items))) ∧
     (config !! "report_format" = Some (YStr "pdf")
      ∨ config !! "report_format" = Some (YStr "txt")) ∧
     ∃ skipped encoding rest,
       encodings = skipped ++ encoding :: rest ∧
       Forall (λ enc, read enc = Undecodable) skipped ∧
       read encoding = Parsed config) ∧
  (∀ skipped encoding rest config e,
     encodings = skipped ++ encoding :: rest →
     Forall (λ enc, read enc = Undecodable) skipped →
     read encoding = Parsed config →
     validate_config config = Raise e →
     (load_config read).1 = inl (Error e)) ∧
  (Forall (λ enc, read enc = Undecodable) encodings →
     load_config read
     = (inl (Error (ValueError
                      "Unable to read the config file with any of the attempted encodings.")),
        [DecodeFailed "utf-8"; DecodeFailed "iso-8859-1"; DecodeFailed "windows-1252";
         AllFailed])).
Proof.
  split_and!.
  - intros config Hrun. unfold load_config in Hrun.
    apply try_encodings_returns in Hrun
      as (skipped & encoding & rest & Heq & Hs & Hr & Hv).
    split; [done |].
    pose proof (proj1 (validate_config_accepts config) Hv) as (Hkeys & Hstocks & Hfmt).
    split_and!; [exact Hkeys | exact Hstocks | exact Hfmt |].
    by exists skipped, encoding, rest.
  - intros skipped encoding rest config e Heq Hs Hr Hv. unfold load_config. rewrite Heq.
    generalize (@nil log_record). clear Heq.
    induction Hs as [| enc skipped Henc _ IH]; intros log; cbn [app try_encodings].
    + by rewrite Hr, Hv.
    + rewrite Henc. apply IH.
  - intros Hall. unfold load_config. by rewrite try_encodings_exhausted.
Qed.

End ConfigFileFacts.
(** ** The printed report *)

Section PrintedReport.
Import Float Py Analyzer Layout Printed.

(** The two sections of a ticker's PDF page and the ticker's lines in the
    text report show the same ten numbers in the same order, each with the
    same number of decimals in both formats.  The band values [upper_band]
    and [lower_band], the dates and the news are in neither. *)
Theorem reports_print_the_same_numbers
    (stock : string) (data : IndicatorResult) (pdf : FPDF) :
  let pdf' := _add_momentum_indicators_section data (_add_key_statistics_section data pdf) in
  ∃ added,
    page pdf' = page pdf ++ added ∧
    page_numbers added = stock_lines stock data ≫= numbers_of ∧
    page_numbers added =
      [(2%nat, latest_price data); (4%nat, volatility data); (4%nat, sharpe_ratio data);
       (4%nat, atr data); (2%nat, avg_roc data); (2%nat, latest_roc data);
       (2%nat, rsi data); (4%nat, macd data); (4%nat, macd_signal data);
       (2%nat, avg_bb_gap data)].
Proof.
  intros pdf'. subst pdf'. destruct pdf as [font0 colour0 page0].
  cbv [_add_momentum_indicators_section _add_key_statistics_section _add_linked_cell
       set_font set_text_color cell_ ln_ page current_font text_color family style size_pt
       String.eqb Ascii.eqb Bool.eqb andb Nat.eqb].
  rewrite <- !app_assoc. cbn [app].
  eexists. split; [reflexivity |]. split; reflexivity.
Qed.

(** The styling of the two sections, whatever the numbers and whatever font
    the page was in before, provided its text colour was black (as it is on
    a new FPDF object).  A cell is blue and underlined exactly if it carries
    a link, so the link styling never runs on into the value printed next to
    it; every row of cells is 200 units wide; and the sections leave the
    page in regular 10 pt helvetica, black. *)
Theorem report_sections_styling (data : IndicatorResult) (pdf : FPDF) :
  text_color pdf = black →
  let pdf' := _add_momentum_indicators_section data (_add_key_statistics_section data pdf) in
  ∃ added,
    page pdf' = page pdf ++ added ∧
    Forall well_styled (cells_of added) ∧
    Forall (λ c, family (cell_font c) = "helvetica") (cells_of added) ∧
    Forall (λ w, w = 200%nat) (row_widths 0 added) ∧
    length (row_widths 0 added) = 7%nat ∧
    current_font pdf' = mkFont "helvetica" Regular 10 ∧
    text_color pdf' = black.
Proof.
  intros Hblack pdf'. subst pdf'. destruct pdf as [font0 colour0 page0].
  cbn [text_color] in Hblack. subst colour0.
  cbv [_add_momentum_indicators_section _add_key_statistics_section _add_linked_cell
       set_font set_text_color cell_ ln_ page current_font text_color family style size_pt
       String.eqb Ascii.eqb Bool.eqb andb Nat.eqb].
  rewrite <- !app_assoc. cbn [app].
  eexists. split; [reflexivity |].
  cbn [cells_of omap list_omap row_widths ln width Nat.add].
  split_and!; try done.
  - repeat constructor; unfold well_styled; cbn; done.
  - repeat constructor.
  - repeat constructor.
Qed.

End PrintedReport.

Section PrintedReportExample.
Import Float Py Analyzer Layout Printed Samples Examples.

Lemma report_sections_styling_witness :
  let pdf' := _add_momentum_indicators_section sample_result
                (_add_key_statistics_section sample_result headed_page) in
  ∃ added,
    page pdf' = page headed_page ++ added ∧
    Forall well_styled (cells_of added) ∧
    Forall (λ c, family (cell_font c) = "helvetica") (cells_of added) ∧
    Forall (λ w, w = 200%nat) (row_widths 0 added) ∧
    length (row_widths 0 added) = 7%nat ∧
    current_font pdf' = mkFont "helvetica" Regular 10 ∧
    text_color pdf' = black.
Proof. apply (report_sections_styling sample_result headed_page). reflexivity. Defined.

End PrintedReportExample.
(** ** The rate of change, row by row *)

Section RateOfChange.
Import Float FloatFacts Py Pandas PandasFacts Analyzer AnalyzerFacts SharpeFacts Described.
Import Samples.
Local Open Scope R_scope.




End RateOfChange.
